(** * EPO processor: download, extract, parse-to-CSV

    A shallow embedding of the Go sources of [packages/epo_processor]
    ([internal/download], [internal/extract], [internal/parse],
    [internal/config]) together with the properties of the pipeline that
    were checked against them.

    Conventions.
    - Go [string]s are byte strings: Rocq [string].
    - [int64] and [time.Duration] values are [Z] with the two's complement
      wrap-around written out ([Int64.wrap]).
    - [IOEither[error, A]] / [Either[error, A]] is [Either A] below, with
      the error carried as its message.
    - Maps used as sets ([map[string]struct{}]) are [gset string]. *)

From Stdlib Require Import ZArith String Ascii List Lia Bool.
From stdpp Require Import gmap strings list sorting.

Set Warnings "-register-all".

Open Scope string_scope.
Open Scope Z_scope.

(* ===================================================================== *)
(** ** Cancellation *)
(* ===================================================================== *)

(** A [context.Context], as one operation observes it through its polls
    of [ctx.Done()]: [None] is never cancelled; [Some n] answers "not
    done" to the next [n] polls and "done" to every poll after them (a
    cancelled context stays cancelled). Cancellation comes from outside
    (a signal), so every [n] is possible. *)
Definition Context := option nat.

(** [context.Background()]: never cancelled. *)
Definition background : Context := None.

(** One poll [select { case <-ctx.Done(): ... default: }]: whether the
    context is done, and the context as the following polls see it. *)
Definition poll (ctx : Context) : bool * Context :=
  match ctx with
  | None => (false, None)
  | Some O => (true, Some O)
  | Some (S n) => (false, Some n)
  end.

(** The message of [ctx.Err()] after cancellation. *)
Definition Canceled : string := "context canceled".

(* ===================================================================== *)
(** ** Machine integers *)
(* ===================================================================== *)

Module Int64.

Definition min : Z := - 2 ^ 63.
Definition max : Z := 2 ^ 63 - 1.

(** Two's complement reduction of a mathematical integer to [int64]. *)
Definition wrap (z : Z) : Z := (z + 2 ^ 63) mod 2 ^ 64 - 2 ^ 63.

Definition add (a b : Z) : Z := wrap (a + b).
Definition mul (a b : Z) : Z := wrap (a * b).

(** Go's [/] on integers truncates towards zero; the only overflowing
    quotient, [min / -1], wraps. Division by zero panics in Go; no caller
    below divides by zero (see [Pow10_int64_nonzero]). *)
Definition quo (a b : Z) : Z := wrap (Z.quot a b).

Definition in_range (z : Z) : bool := (min <=? z) && (z <=? max).

End Int64.

(** [uint(x)] for an [int] [x] on a 64-bit platform. *)
Definition uint_of_int (x : Z) : Z := x mod 2 ^ 64.

(* ===================================================================== *)
(** ** Byte strings: the parts of [strings], [strconv] and [regexp] used *)
(* ===================================================================== *)

Module Str.

Definition code (c : ascii) : nat := nat_of_ascii c.

Definition between (lo hi : nat) (c : ascii) : bool :=
  (Nat.leb lo (code c)) && (Nat.leb (code c) hi).

(** The white space of [unicode.IsSpace] that is in ASCII: tab, LF, VT,
    FF, CR, space. *)
Definition isSpace (c : ascii) : bool :=
  between 9 13 c || Nat.eqb (code c) 32.

(** The white space outside ASCII, as UTF-8 writes it: U+0085 and U+00A0
    in two bytes; U+1680, U+2000 to U+200A, U+2028, U+2029, U+202F,
    U+205F and U+3000 in three. *)
Definition isSpace2 (a b : ascii) : bool :=
  Nat.eqb (code a) 194 && (Nat.eqb (code b) 133 || Nat.eqb (code b) 160).

Definition isSpace3 (a b c : ascii) : bool :=
  (Nat.eqb (code a) 225 && Nat.eqb (code b) 154 && Nat.eqb (code c) 128)
  || (Nat.eqb (code a) 226 && Nat.eqb (code b) 128
      && (between 128 138 c || between 168 169 c || Nat.eqb (code c) 175))
  || (Nat.eqb (code a) 226 && Nat.eqb (code b) 129 && Nat.eqb (code c) 159)
  || (Nat.eqb (code a) 227 && Nat.eqb (code b) 128 && Nat.eqb (code c) 128).

(** The text is one white-space rune. *)
Definition isSpaceRune (t : string) : bool :=
  match t with
  | String a EmptyString => isSpace a
  | String a (String b EmptyString) => isSpace2 a b
  | String a (String b (String c EmptyString)) => isSpace3 a b c
  | _ => false
  end.

(** The first rune of the text is white space. *)
Definition startsWithSpace (s : string) : bool :=
  match s with
  | String a EmptyString => isSpace a
  | String a (String b EmptyString) => isSpace a || isSpace2 a b
  | String a (String b (String c _)) => isSpace a || isSpace2 a b || isSpace3 a b c
  | EmptyString => false
  end.

(** [\s] of Go regular expressions: tab, LF, FF, CR, space (no VT). *)
Definition isReSpace (c : ascii) : bool :=
  isSpace c && negb (Nat.eqb (code c) 11).

Definition isDigit (c : ascii) : bool := between 48 57 c.
Definition isLower (c : ascii) : bool := between 97 122 c.
Definition isUpper (c : ascii) : bool := between 65 90 c.
Definition isLetter (c : ascii) : bool := isLower c || isUpper c.

Definition upper (c : ascii) : ascii :=
  if isLower c then ascii_of_nat (code c - 32) else c.
Definition lower (c : ascii) : ascii :=
  if isUpper c then ascii_of_nat (code c + 32) else c.

Fixpoint map (f : ascii -> ascii) (s : string) : string :=
  match s with
  | EmptyString => EmptyString
  | String c s' => String (f c) (map f s')
  end.

(** The rune of two bytes [a b] is the one written [x y]. *)
Definition isRune2 (a b : ascii) (x y : nat) : bool :=
  Nat.eqb (code a) x && Nat.eqb (code b) y.

Definition isRune3 (a b c : ascii) (x y z : nat) : bool :=
  Nat.eqb (code a) x && Nat.eqb (code b) y && Nat.eqb (code c) z.

(** [strings.ToUpper], on the ASCII letters and on the two runes outside
    ASCII whose capital is an ASCII letter: U+0131, the dotless i, and
    U+017F, the long s. Every other rune has its capital outside ASCII;
    its bytes are kept as they are, so the result is exact in its ASCII
    bytes and their places among the runes, which is all that a
    comparison with ASCII text sees. *)
Fixpoint ToUpper (s : string) : string :=
  match s with
  | EmptyString => EmptyString
  | String a s1 =>
      match s1 with
      | String b s2 =>
          if isRune2 a b 196 177 then String "I" (ToUpper s2)
          else if isRune2 a b 197 191 then String "S" (ToUpper s2)
          else String (upper a) (ToUpper s1)
      | EmptyString => String (upper a) EmptyString
      end
  end.

(** [strings.ToLower], likewise: the ASCII letters, U+0130, the dotted
    capital I, and U+212A, the Kelvin sign, whose small letters are i
    and k. *)
Fixpoint ToLower (s : string) : string :=
  match s with
  | EmptyString => EmptyString
  | String a s1 =>
      match s1 with
      | String b s2 =>
          if isRune2 a b 196 176 then String "i" (ToLower s2)
          else
            match s2 with
            | String c s3 =>
                if isRune3 a b c 226 132 170 then String "k" (ToLower s3)
                else String (lower a) (ToLower s1)
            | EmptyString => String (lower a) (ToLower s1)
            end
      | EmptyString => String (lower a) EmptyString
      end
  end.

(** [strings.TrimLeftFunc(s, unicode.IsSpace)]: the runes are read from
    the left. *)
Fixpoint trimLeft (s : string) : string :=
  match s with
  | EmptyString => EmptyString
  | String a s1 =>
      if isSpace a then trimLeft s1
      else
        match s1 with
        | String b s2 =>
            if isSpace2 a b then trimLeft s2
            else
              match s2 with
              | String c s3 => if isSpace3 a b c then trimLeft s3 else s
              | EmptyString => s
              end
        | EmptyString => s
        end
  end.

(** [strings.TrimRightFunc(s, unicode.IsSpace)]: the runes are read
    from the right; what is left of the text ends in a white-space rune
    exactly when it is one as a whole, the rest of it being trimmed
    already. *)
Fixpoint trimRight (s : string) : string :=
  match s with
  | EmptyString => EmptyString
  | String c s' =>
      let t := String c (trimRight s') in
      if isSpaceRune t then EmptyString else t
  end.

(** [strings.TrimSpace]. *)
Definition TrimSpace (s : string) : string := trimRight (trimLeft s).

Definition isEmpty (s : string) : bool :=
  match s with EmptyString => true | _ => false end.

(** Longest prefix whose bytes satisfy [p], and the rest. *)
Fixpoint span (p : ascii -> bool) (s : string) : string * string :=
  match s with
  | EmptyString => (EmptyString, EmptyString)
  | String c s' =>
      if p c then let (a, b) := span p s' in (String c a, b)
      else (EmptyString, s)
  end.

Fixpoint forallb (p : ascii -> bool) (s : string) : bool :=
  match s with
  | EmptyString => true
  | String c s' => p c && forallb p s'
  end.

Fixpoint existsb (p : ascii -> bool) (s : string) : bool :=
  match s with
  | EmptyString => false
  | String c s' => p c || existsb p s'
  end.

Fixpoint HasPrefix (s pre : string) : bool :=
  match pre, s with
  | EmptyString, _ => true
  | String a pre', String b s' => (if ascii_dec a b then true else false) && HasPrefix s' pre'
  | String _ _, EmptyString => false
  end.

Definition HasSuffix (s suf : string) : bool :=
  HasPrefix (String.rev s) (String.rev suf).

Definition TrimSuffix (s suf : string) : string :=
  if HasSuffix s suf
  then String.substring 0 (String.length s - String.length suf) s
  else s.

(** [strings.Join]. *)
Fixpoint Join (elems : list string) (sep : string) : string :=
  match elems with
  | [] => ""
  | [x] => x
  | x :: rest => x ++ sep ++ Join rest sep
  end.

Definition digitVal (c : ascii) : Z := Z.of_nat (code c) - 48.

Fixpoint digitsVal (acc : Z) (s : string) : Z :=
  match s with
  | EmptyString => acc
  | String c s' => digitsVal (10 * acc + digitVal c) s'
  end.

(** [strconv.ParseInt(s, 10, 64)] with the error dropped: an optional
    sign, then one or more decimal digits, and a value that fits
    [int64]; anything else is an error. *)
Definition ParseInt (s : string) : option Z :=
  let '(neg, body) :=
    match s with
    | String "-" r => (true, r)
    | String "+" r => (false, r)
    | _ => (false, s)
    end in
  if isEmpty body || negb (forallb isDigit body) then None
  else
    let v := if neg then - digitsVal 0 body else digitsVal 0 body in
    if Int64.in_range v then Some v else None.

End Str.

(* ===================================================================== *)
(** ** [fp-go] combinators used by the sources *)
(* ===================================================================== *)

(** [either.Either[error, A]]: [Left] carries the error message. *)
Inductive Either (A : Type) : Type :=
| Left (err : string)
| Right (a : A).
Arguments Left {A} err.
Arguments Right {A} a.

Module ET.

Definition IsLeft {A} (e : Either A) : bool :=
  match e with Left _ => true | Right _ => false end.
Definition IsRight {A} (e : Either A) : bool := negb (IsLeft e).

Definition Chain {A B} (f : A -> Either B) (e : Either A) : Either B :=
  match e with Left err => Left err | Right a => f a end.

Definition Map {A B} (f : A -> B) (e : Either A) : Either B :=
  match e with Left err => Left err | Right a => Right (f a) end.

Definition GetOrElse {A} (onLeft : string -> A) (e : Either A) : A :=
  match e with Left err => onLeft err | Right a => a end.

(** [TraverseArray]: apply [f] to each element from left to right and
    collect the results; the first [Left] is the result. *)
Fixpoint TraverseArray {A B} (f : A -> Either B) (l : list A) : Either (list B) :=
  match l with
  | [] => Right []
  | x :: rest =>
      match f x with
      | Left err => Left err
      | Right y =>
          match TraverseArray f rest with
          | Left err => Left err
          | Right ys => Right (y :: ys)
          end
      end
  end.

End ET.

Module F.

(** [function.Ternary(pred, onTrue, onFalse)]. *)
Definition Ternary {A B} (pred : A -> bool) (onTrue onFalse : A -> B) (a : A) : B :=
  if pred a then onTrue a else onFalse a.

(** [function.Constant1]. *)
Definition Constant1 {A B} (b : B) : A -> B := fun _ => b.

End F.

Module O.

(** [option.Sequence2(f)(a, b)]: [f] on the two values when both are
    present, [None] otherwise. *)
Definition Sequence2 {A B C} (f : A -> B -> option C) (a : option A) (b : option B) : option C :=
  match a with
  | None => None
  | Some x => match b with None => None | Some y => f x y end
  end.

Definition MonadGetOrElse {A} (o : option A) (d : unit -> A) : A :=
  match o with Some a => a | None => d tt end.

End O.

(* ===================================================================== *)
(** ** [fp-go/retry]: policies and the retrying combinator *)
(* ===================================================================== *)

Module Retry.

Record RetryStatus := {
  IterNumber : nat;            (* 0 on the first try *)
  CumulativeDelay : Z;
  PreviousDelay : option Z;    (* the delay before this try *)
}.

Definition DefaultRetryStatus : RetryStatus :=
  {| IterNumber := 0; CumulativeDelay := 0; PreviousDelay := None |}.

(** A policy gives the delay before the next try, or [None] when the
    retries are used up. *)
Definition RetryPolicy := RetryStatus -> option Z.

(** [LimitRetries(i)]: retry at once, but only [i] times. *)
Definition LimitRetries (i : Z) : RetryPolicy :=
  fun status => if Z.of_nat (IterNumber status) <? i then Some 0 else None.

(** [int64(math.Pow(2, float64(n)))]: exact up to [2^62]; beyond, the
    conversion is out of range (amd64 gives the smallest [int64]). *)
Definition Pow2_int64 (n : nat) : Z :=
  if (n <=? 62)%nat then 2 ^ Z.of_nat n else Int64.min.

(** [ExponentialBackoff(delay)]: the delay doubles with each try. *)
Definition ExponentialBackoff (delay : Z) : RetryPolicy :=
  fun status => Some (Int64.mul delay (Pow2_int64 (IterNumber status))).

(** [Monoid.Concat]: when either policy gives up, so does the sum;
    otherwise the larger of the two delays. *)
Definition Concat (p1 p2 : RetryPolicy) : RetryPolicy :=
  fun status =>
    match p1 status, p2 status with
    | Some d1, Some d2 => Some (Z.max d1 d2)
    | _, _ => None
    end.

Definition ApplyPolicy (policy : RetryPolicy) (status : RetryStatus) : RetryStatus :=
  let previousDelay := policy status in
  {| IterNumber := S (IterNumber status);
     CumulativeDelay :=
       Int64.add (CumulativeDelay status) (default 0 previousDelay);
     PreviousDelay := previousDelay |}.

(** What a run of [Retrying] does, in order. *)
Inductive Event :=
| Attempt (iter : nat)
| Sleep (delay : Z).

(** [Retrying(policy, action, check)]: run the action; when [check]
    asks for a retry and the policy grants one, sleep for the delay and
    start over with the next status; otherwise the result of the action
    is the result. The action reads the world through the context it
    is given and hands it back as its later polls see it. [fuel] bounds
    the number of tries of the model; [None] is a run that needs more. *)
Fixpoint Retrying {A} (fuel : nat) (policy : RetryPolicy)
    (action : RetryStatus -> Context -> Either A * Context)
    (check : Either A -> bool)
    (status : RetryStatus) (ctx : Context) : option (list Event * Either A) :=
  match fuel with
  | O => None
  | S fuel' =>
      let (a, ctx') := action status ctx in
      if check a then
        let status' := ApplyPolicy policy status in
        match PreviousDelay status' with
        | None => Some ([Attempt (IterNumber status)], a)
        | Some delay =>
            match Retrying fuel' policy action check status' ctx' with
            | Some (events, r) =>
                Some (Attempt (IterNumber status) :: Sleep delay :: events, r)
            | None => None
            end
        end
      else Some ([Attempt (IterNumber status)], a)
  end.

Definition attempts (events : list Event) : nat :=
  length (List.filter (fun e => match e with Attempt _ => true | _ => false end) events).

Definition sleeps (events : list Event) : list Z :=
  List.flat_map (fun e => match e with Sleep d => [d] | _ => [] end) events.

End Retry.

(* ===================================================================== *)
(** ** [internal/download]: the catalog client and the fetcher *)
(* ===================================================================== *)

Module Download.

(** [getUnitMultiplier]. *)
Definition getUnitMultiplier (unit : string) : Z :=
  let u := Str.ToUpper (Str.TrimSpace unit) in
  if decide (u = "TB" \/ u = "TIB" \/ u = "T") then Z.shiftl 1 40
  else if decide (u = "GB" \/ u = "GIB" \/ u = "G") then Z.shiftl 1 30
  else if decide (u = "MB" \/ u = "MIB" \/ u = "M") then Z.shiftl 1 20
  else if decide (u = "KB" \/ u = "KIB" \/ u = "K") then Z.shiftl 1 10
  else if decide (u = "B" \/ u = "BYTES" \/ u = "BYTE" \/ u = "") then 1
  else 0.

(** The anchored pattern of [parseFileSize]: one or more digits (group
    1); optionally a dot or a comma followed by one or more digits (group
    2); any run of [\s]; any run of ASCII letters (group 3); end of
    text. Every quantifier is greedy and the character classes that
    follow one another are disjoint, so the match is found without
    backtracking. An absent group 2 is the empty string, as in
    [FindStringSubmatch]. *)
Definition fileSizeRe (s : string) : option (string * string * string) :=
  let (int, r1) := Str.span Str.isDigit s in
  if Str.isEmpty int then None
  else
    let (dec, r2) :=
      match r1 with
      | String c r' =>
          if decide (c = "."%char \/ c = ","%char) then
            let (d, r'') := Str.span Str.isDigit r' in
            if Str.isEmpty d then (EmptyString, r1) else (d, r'')
          else (EmptyString, r1)
      | EmptyString => (EmptyString, r1)
      end in
    let (_, r3) := Str.span Str.isReSpace r2 in
    let (unit, r4) := Str.span Str.isLetter r3 in
    if Str.isEmpty r4 then Some (int, dec, unit) else None.

(** [int64(math.Pow10(n))] for [n >= 0]. Up to [10^18] the power is an
    exact [float64] that fits [int64]. Beyond, the conversion is out of
    range and its result is implementation-dependent; amd64 gives the
    smallest [int64]. *)
Definition Pow10_int64 (n : nat) : Z :=
  if (n <=? 18)%nat then 10 ^ Z.of_nat n else Int64.min.

(** [parseFileSize]. *)
Definition parseFileSize (s : string) : Z :=
  let s := Str.TrimSpace s in
  if Str.isEmpty s then 0
  else
    match fileSizeRe s with
    | None => 0
    | Some (integerPart, decimalPart, unit0) =>
        let unit := Str.ToUpper unit0 in
        let parseInt (str : string) : option Z :=
          if Str.isEmpty str then None else Str.ParseInt str in
        let multiplier := getUnitMultiplier unit in
        let whole :=
          (fun whole => Int64.mul whole multiplier) <$> parseInt integerPart in
        let add (a b : Z) : option Z := Some (Int64.add a b) in
        let decimal :=
          (fun decimal =>
             let scale := Pow10_int64 (String.length decimalPart) in
             Int64.quo (Int64.mul decimal multiplier) scale)
            <$> parseInt decimalPart in
        let total := O.Sequence2 add whole decimal in
        O.MonadGetOrElse total (fun _ => 0)
    end.

(** *** [internal/config]: the [server] block *)

(** [time.Second], in nanoseconds, the unit of [time.Duration]. *)
Definition Second : Z := 1000000000.

Record Server := {
  BaseURL : string;
  Timeout : Z;              (* time.Duration *)
  MaxRetries : Z;           (* int *)
  ConcurrentDownloads : Z;  (* int *)
  ProductID : Z;            (* int *)
}.

(** The defaults installed by [config.Load]. *)
Definition defaultServer (baseURL : string) : Server :=
  {| BaseURL := baseURL;
     Timeout := Int64.mul 30 Second;
     MaxRetries := 3;
     ConcurrentDownloads := 5;
     ProductID := 3 |}.

(** The [validate] tags of [Server] that bear on the numbers. *)
Definition validServer (s : Server) : bool :=
  (0 <? Timeout s)
  && (0 <=? MaxRetries s) && (MaxRetries s <=? 10)
  && (1 <=? ConcurrentDownloads s) && (ConcurrentDownloads s <=? 30).

(** The [timeout] given to [http.Client] in [FetchFiles]. *)
Definition clientTimeout (cfg : Server) : Z :=
  F.Ternary
    (fun t : Z => 0 <? t)
    (F.Constant1 (Int64.mul (Timeout cfg) Second))
    (F.Constant1 (Int64.mul 30 Second))
    (Timeout cfg).

(** *** [DownloadFile]: one file, under the retry policy *)

Record DownloadFile := {
  filename : string;
  filePath : string;
  expectedSize : Z;
  checksum : string;
  url : string;
}.

Definition Millisecond : Z := 1000000.

Definition policy (cfg : Server) : Retry.RetryPolicy :=
  Retry.Concat
    (Retry.LimitRetries (uint_of_int (MaxRetries cfg)))
    (Retry.ExponentialBackoff (Int64.mul 5 Millisecond)).

(** The retried action. [http k] is what the [k]-th request of this
    file comes to: the bytes copied to the target, or the error of the
    request, of a status other than 200, or of the copy. Every request
    is taken to end, with a response or with an error, as it does under
    the client time-out or once the context is cancelled; a request
    that never answers gives a call that does not return, and no run
    of this kind is described below. *)
Definition action (http : nat -> Either Z)
    (status : Retry.RetryStatus) (ctx : Context) : Either Z * Context :=
  let (done, ctx') := poll ctx in
  if done then (Left Canceled, ctx')
  else (http (Retry.IterNumber status), ctx').

(** The [check] given to [Retrying]: every error asks for a retry. *)
Definition check (result : Either Z) : bool :=
  match result with
  | Left _ => true
  | Right _ => false
  end.

(** How a call ends: with a run-time panic, or by returning. *)
Inductive Run (A : Type) : Type :=
| Panics (msg : string)
| Returns (a : A).
Arguments Panics {A} msg.
Arguments Returns {A} a.

(** [DownloadFile], the method; the record above has the name.
    [skipExists] is [Cfg.Download.SkipExists] and
    [existingValid] the outcome of [verifyChecksum] on the target. The
    span attributes slice the first 12 bytes off the checksum, which
    panics on a shorter one. A call that returns gives the list of tries
    and sleeps and the outcome. *)
Definition downloadFile (fuel : nat) (cfg : Server) (skipExists existingValid : bool)
    (http : nat -> Either Z) (f : DownloadFile) (ctx : Context)
  : option (Run (list Retry.Event * Either Z)) :=
  if (String.length (checksum f) <? 12)%nat
  then Some (Panics "slice bounds out of range [:12]")
  else
    let (done, ctx') := poll ctx in
    if done then Some (Returns ([], Left Canceled))
    else if skipExists && existingValid then Some (Returns ([], Right (expectedSize f)))
    else
      Returns <$>
        Retry.Retrying fuel (policy cfg) (action http) check Retry.DefaultRetryStatus ctx'.

End Download.


(* ===================================================================== *)
(** ** [xmlquery]: the document tree and the queries used by the parser *)
(* ===================================================================== *)

Module Xml.

(** [xmlquery.Attr]: the name's space and local part, and the value. *)
Record Attr := { Space : string; Local : string; Value : string }.

(** [xmlquery.Node], as a tree. For an element [Data] is the local name
    and [Prefix] the namespace prefix. *)
Inductive Node :=
| DocumentNode (children : list Node)
| ElementNode (Prefix Data : string) (attrs : list Attr) (children : list Node)
| TextNode (Data : string)
| CharDataNode (Data : string)
| CommentNode (Data : string).

Definition children (n : Node) : list Node :=
  match n with
  | DocumentNode cs | ElementNode _ _ _ cs => cs
  | _ => []
  end.

(** [local-name() = name] on an element. *)
Definition hasLocalName (name : string) (n : Node) : bool :=
  match n with
  | ElementNode _ d _ _ => bool_decide (d = name)
  | _ => false
  end.

(** [n.SelectAttr(name)] for a [name] without a colon: the value of the
    first attribute with that local name and no space, else the empty
    string. *)
Definition SelectAttr (n : Node) (name : string) : string :=
  match n with
  | ElementNode _ _ attrs _ =>
      match List.find (fun a => bool_decide (Local a = name) && bool_decide (Space a = "")) attrs with
      | Some a => Value a
      | None => ""
      end
  | _ => ""
  end.

(** [n.InnerText()]: the text and character data below [n], comments
    left out. *)
Fixpoint InnerText (n : Node) : string :=
  match n with
  | TextNode d | CharDataNode d => d
  | CommentNode _ => ""
  | DocumentNode cs | ElementNode _ _ _ cs =>
      List.fold_right (fun c acc => InnerText c ++ acc) "" cs
  end.

(** All element descendants of [n] in document order, [n] left out:
    the node set of [.//*]. *)
Fixpoint descendants (n : Node) : list Node :=
  match n with
  | DocumentNode cs | ElementNode _ _ _ cs =>
      List.flat_map
        (fun c => match c with
                  | ElementNode _ _ _ _ => c :: descendants c
                  | _ => descendants c
                  end) cs
  | _ => []
  end.

(** The path [*[local-name()='name']]: child elements called [name]. *)
Definition childrenNamed (name : string) (n : Node) : list Node :=
  List.filter (hasLocalName name) (children n).

(** The path [.//*[local-name()='name']]. *)
Definition descendantsNamed (name : string) (n : Node) : list Node :=
  List.filter (hasLocalName name) (descendants n).

(** [xmlquery.FindOne]: the first node of the result, or [nil]. *)
Definition FindOne (result : list Node) : option Node := List.head result.

End Xml.

(* ===================================================================== *)
(** ** [internal/parse]: records and rows *)
(* ===================================================================== *)

Module Parse.

Import Xml.

(** *** [epo-models.go] *)

Record PatentClassification := {
  Scheme : string;
  ClassificationSymbol : string;
}.

Record Citation := {
  CitedID : string;
  Categories : list string;
}.

Record DocumentID := {
  Country : string;
  DocNumber : string;
  Kind : string;
}.

(** The field [DocumentID] of the source is [DocumentID_] here, the
    name being taken by the record. *)
Record PublicationReference := {
  DataFormat : string;
  DocumentID_ : DocumentID;
}.

Record FamilyMember := {
  PublicationReferences : list PublicationReference;
}.

(** The fields [Country], [DocNumber] and [Kind] of the source carry the
    prefix [doc] here, [DocumentID] having fields of the same names. *)
Record ExchangeDocument := {
  docCountry : string;
  docDocNumber : string;
  docKind : string;
  Status : string;
  PatentClassifications : list PatentClassification;
  Citations : list Citation;
  FamilyMembers : list FamilyMember;
}.

(** The [[5]string] row, with the names of the CSV header. *)
Record CsvRow := {
  patent_id : string;
  status : string;
  cpc_list : string;
  citations : string;
  family_patents : string;
}.

Definition fields (r : CsvRow) : list string :=
  [patent_id r; status r; cpc_list r; citations r; family_patents r].

Definition header : list string :=
  ["patent_id"; "status"; "cpc_list"; "citations"; "family_patents"].

(** [sort.Strings]: ascending byte-wise order. *)
Definition sortStrings (l : list string) : list string := merge_sort String.le l.

(** [getText]. *)
Definition getText (parent : Node) (name : string) : string :=
  match FindOne (childrenNamed name parent) with
  | None => ""
  | Some n => Str.TrimSpace (InnerText n)
  end.

(** *** [exchangeDocumentFromNode], first half: reading the tree *)

(** The function traversed over the [patent-classification] nodes. *)
Definition classificationFromNode (n : Node) : Either PatentClassification :=
  match FindOne (childrenNamed "classification-scheme" n) with
  | None => Left "missing classification-scheme"
  | Some schemeNode =>
      let scheme := SelectAttr schemeNode "scheme" in
      if Str.isEmpty scheme then Left "missing scheme attribute"
      else
        match FindOne (childrenNamed "classification-symbol" n) with
        | None => Left "missing classification-symbol"
        | Some symbolNode =>
            let symbol := Str.TrimSpace (InnerText symbolNode) in
            Right {| Scheme := scheme; ClassificationSymbol := symbol |}
        end
  end.

Definition classificationsFromNode (node : Node) : list PatentClassification :=
  ET.GetOrElse (fun _ => [])
    (ET.Chain (ET.TraverseArray classificationFromNode)
       (Right (descendantsNamed "patent-classification" node))).

(** The function traversed over the [citation] nodes. The categories
    come from a union of two paths, whose result lists the nodes of the
    first path before those of the second. *)
Definition citationFromNode (n : Node) : Either Citation :=
  let categories :=
    List.filter (fun s => negb (Str.isEmpty s))
      (List.map (fun c => Str.TrimSpace (InnerText c))
         (childrenNamed "category" n
            ++ List.flat_map (childrenNamed "category") (childrenNamed "rel-passage" n))) in
  let citedID :=
    match FindOne (List.flat_map (childrenNamed "document-id") (childrenNamed "patcit" n)) with
    | Some docIDNode =>
        let c := getText docIDNode "country" in
        let d := getText docIDNode "doc-number" in
        let k := getText docIDNode "kind" in
        if negb (Str.isEmpty c && Str.isEmpty d && Str.isEmpty k)
        then c ++ d ++ k
        else ""
    | None => ""
    end in
  Right {| CitedID := citedID; Categories := categories |}.

Definition citationsFromNode (node : Node) : list Citation :=
  ET.GetOrElse (fun _ => [])
    (ET.Chain (ET.TraverseArray citationFromNode)
       (Right (List.flat_map (childrenNamed "citation")
                 (descendantsNamed "references-cited" node)))).

(** The function traversed over the [publication-reference] nodes. *)
Definition publicationReferenceFromNode (pr : Node) : Either PublicationReference :=
  let dataFormat := SelectAttr pr "data-format" in
  if Str.isEmpty dataFormat then Left "missing data-format attribute"
  else
    match FindOne (childrenNamed "document-id" pr) with
    | None => Left "no document-id found"
    | Some docIDNode =>
        let c := getText docIDNode "country" in
        let d := getText docIDNode "doc-number" in
        let k := getText docIDNode "kind" in
        Right {| DataFormat := dataFormat;
                 DocumentID_ := {| Country := c; DocNumber := d; Kind := k |} |}
    end.

Definition familyMemberFromNode (familyNode : Node) : Either FamilyMember :=
  let refs :=
    ET.Chain (ET.TraverseArray publicationReferenceFromNode)
      (Right (childrenNamed "publication-reference" familyNode)) in
  ET.Map (fun refs => {| PublicationReferences := refs |}) refs.

Definition familyMembersFromNode (node : Node) : list FamilyMember :=
  ET.GetOrElse (fun _ => [])
    (ET.Chain (ET.TraverseArray familyMemberFromNode)
       (Right (List.flat_map (childrenNamed "family-member")
                 (descendantsNamed "patent-family" node)))).

(** *** [exchangeDocumentFromNode], second half: the row of a document *)

Definition patentID (doc : ExchangeDocument) : string :=
  docCountry doc ++ docDocNumber doc ++ docKind doc.

(** The keys put into [cpcSet] by the loop over the classifications. *)
Definition cpcSet (doc : ExchangeDocument) : gset string :=
  List.fold_left
    (fun (set : gset string) pc =>
       if decide (Scheme pc = "CPCI") then {[ ClassificationSymbol pc ]} ∪ set else set)
    (PatentClassifications doc) ∅.

Definition cpcList (doc : ExchangeDocument) : list string :=
  sortStrings (elements (cpcSet doc)).

Definition formatCitation (c : Citation) : list string :=
  if negb (Str.isEmpty (CitedID c)) then
    let cats := Str.Join (Categories c) "," in
    [CitedID c ++ " (" ++ cats ++ ")"]
  else [].

Definition citationList (doc : ExchangeDocument) : list string :=
  List.flat_map formatCitation (Citations doc).

Definition familyID (pr : PublicationReference) : string :=
  Country (DocumentID_ pr) ++ DocNumber (DocumentID_ pr) ++ Kind (DocumentID_ pr).

(** The keys put into [familySet] by the two nested loops. *)
Definition familySet (doc : ExchangeDocument) : gset string :=
  List.fold_left
    (fun (set : gset string) fm =>
       List.fold_left
         (fun (set : gset string) pr =>
            if decide (DataFormat pr = "docdb") then
              let fid := familyID pr in
              if decide (fid <> patentID doc) then {[ fid ]} ∪ set else set
            else set)
         (PublicationReferences fm) set)
    (FamilyMembers doc) ∅.

Definition familyList (doc : ExchangeDocument) : list string :=
  sortStrings (elements (familySet doc)).

Definition rowOfDocument (doc : ExchangeDocument) : CsvRow :=
  {| patent_id := patentID doc;
     status := Status doc;
     cpc_list := Str.Join (cpcList doc) ";";
     citations := Str.Join (citationList doc) ";";
     family_patents := Str.Join (familyList doc) ";" |}.

Definition documentOfNode (node : Node) : Either ExchangeDocument :=
  let country := SelectAttr node "country" in
  let docNumber := SelectAttr node "doc-number" in
  let kind := SelectAttr node "kind" in
  let status := SelectAttr node "status" in
  if Str.isEmpty country || Str.isEmpty docNumber || Str.isEmpty kind || Str.isEmpty status
  then Left "missing required attributes"
  else
    Right {| docCountry := country;
             docDocNumber := docNumber;
             docKind := kind;
             Status := status;
             PatentClassifications := classificationsFromNode node;
             Citations := citationsFromNode node;
             FamilyMembers := familyMembersFromNode node |}.

(** [exchangeDocumentFromNode]. *)
Definition exchangeDocumentFromNode (node : Node) : Either CsvRow :=
  ET.Map rowOfDocument (documentOfNode node).

(** *** [processSingleXML] *)

(** An XML file on disk, as the calls on it answer: [os.Open],
    [f.Stat], and [xmlquery.Parse], which gives the document node or a
    syntax error. *)
Record File := {
  OpenErr : option string;
  StatErr : option string;
  Size : Z;
  Parsed : Either Node;
}.

(** The traversal of the [exchange-document] nodes, each behind a poll
    of the context. *)
Fixpoint traverseDocuments (ctx : Context) (nodes : list Node)
  : Either (list CsvRow) :=
  match nodes with
  | [] => Right []
  | node :: rest =>
      let (done, ctx') := poll ctx in
      match (if done then Left Canceled else exchangeDocumentFromNode node) with
      | Left err => Left err
      | Right row =>
          match traverseDocuments ctx' rest with
          | Left err => Left err
          | Right rows => Right (row :: rows)
          end
      end
  end.

(** The path [//*[local-name()='exchange-document']] on the parsed
    document. *)
Definition exchangeDocuments (doc : Node) : list Node :=
  descendantsNamed "exchange-document" doc.

Definition processSingleXML (ctx : Context) (file : File) : Either (list CsvRow) :=
  match OpenErr file with
  | Some err => Left err
  | None =>
      let (done0, ctx0) := poll ctx in
      if done0 then Left Canceled
      else
        match StatErr file with
        | Some err => Left err
        | None =>
            let (done1, ctx1) := poll ctx0 in
            if done1 then Left Canceled
            else
              match Parsed file with
              | Left err => Left err
              | Right doc =>
                  let (done2, ctx2) := poll ctx1 in
                  if done2 then Left Canceled
                  else traverseDocuments ctx2 (exchangeDocuments doc)
              end
        end
  end.

(** *** [ParseAllToCSV]: the output, the writer and the per-file worker *)

(** The output of a session, [csv.NewWriter(bufio.NewWriter(file))]:
    one [bufio.Writer] of 4096 bytes over the file. [Output] is what the
    file has taken, [Buffer] what the writer still holds, [Failed] its
    first error, which it keeps. [Room] is the number of bytes that the
    file will take from here on ([None]: any number): a write that goes
    beyond it is cut there and fails. [Rows] lists the records that
    [Write] has taken without error. *)
Record Writer := {
  Rows : list (list string);
  Output : list ascii;
  Buffer : list ascii;
  Failed : option string;
  Room : option nat;
}.

(** What the output takes from here on: nothing, once it has failed. *)
Definition Budget (w : Writer) : option nat :=
  match Failed w with
  | Some _ => Some 0%nat
  | None => Room w
  end.

Definition WriteError : string := "write error".

Definition bytes (s : string) : list ascii := list_ascii_of_string s.

(** **** [bufio.Writer] *)

Definition Available (w : Writer) : nat := (4096 - length (Buffer w))%nat.

(** The number of bytes, out of [n], that the file takes. *)
Definition takes (w : Writer) (n : nat) : nat :=
  match Room w with
  | None => n
  | Some room => Nat.min room n
  end.

(** [copy(b.buf[b.n:], s)], for an [s] that fits. *)
Definition store (s : list ascii) (w : Writer) : Writer :=
  {| Rows := Rows w; Output := Output w; Buffer := (Buffer w ++ s)%list;
     Failed := Failed w; Room := Room w |}.

(** [b.wr.WriteString(s)], straight to the file. *)
Definition writeThrough (s : list ascii) (w : Writer) : Writer :=
  let n := takes w (length s) in
  {| Rows := Rows w;
     Output := (Output w ++ take n s)%list;
     Buffer := Buffer w;
     Failed := if (n <? length s)%nat then Some WriteError else None;
     Room := (fun room => (room - n)%nat) <$> Room w |}.

(** [Flush]: the buffer goes to the file; what the file does not take
    stays in the buffer, with the error. *)
Definition Flush (w : Writer) : Writer :=
  match Failed w with
  | Some _ => w
  | None =>
      let n := takes w (length (Buffer w)) in
      {| Rows := Rows w;
         Output := (Output w ++ take n (Buffer w))%list;
         Buffer := drop n (Buffer w);
         Failed := if (n <? length (Buffer w))%nat then Some WriteError else None;
         Room := (fun room => (room - n)%nat) <$> Room w |}
  end.

(** [WriteString]: a text that fits is stored; one that does not goes
    straight to the file when the buffer is empty; otherwise the buffer
    is filled up and flushed, and what is left of the text is stored, or
    goes straight to the file when it is longer than the buffer. *)
Definition WriteString (s : list ascii) (w : Writer) : Writer :=
  match Failed w with
  | Some _ => w
  | None =>
      if (length s <=? Available w)%nat then store s w
      else if (length (Buffer w) =? 0)%nat then writeThrough s w
      else
        let n := Available w in
        let w1 := Flush (store (take n s) w) in
        let s1 := drop n s in
        match Failed w1 with
        | Some _ => w1
        | None =>
            if (length s1 <=? Available w1)%nat then store s1 w1
            else writeThrough s1 w1
        end
  end.

(** [WriteByte]: a full buffer is flushed first. *)
Definition WriteByte (c : ascii) (w : Writer) : Writer :=
  match Failed w with
  | Some _ => w
  | None =>
      let w1 := if (Available w =? 0)%nat then Flush w else w in
      match Failed w1 with
      | Some _ => w1
      | None => store [c] w1
      end
  end.

(** **** [csv.Writer], with its comma and without [UseCRLF] *)

Definition quote : ascii := "034"%char.
Definition LF : ascii := "010"%char.
Definition CR : ascii := "013"%char.

Definition fieldNeedsQuotes (field : string) : bool :=
  if Str.isEmpty field then false
  else if decide (field = "\.") then true
  else
    Str.existsb
      (fun c => bool_decide (c = LF \/ c = CR \/ c = quote \/ c = ","%char)) field
    || Str.startsWithSpace field.

(** The loop that writes a quoted field: the text up to the next quote,
    CR or LF in one [WriteString], then that byte, a quote doubled.
    [seg] is the text read since the last of these. *)
Fixpoint writeQuoted (seg : list ascii) (field : string) (w : Writer) : Writer :=
  match field with
  | EmptyString =>
      match seg with
      | [] => w
      | _ => WriteString seg w
      end
  | String c rest =>
      if decide (c = quote)
      then writeQuoted [] rest (WriteString [quote; quote] (WriteString seg w))
      else if decide (c = CR \/ c = LF)
      then writeQuoted [] rest (WriteByte c (WriteString seg w))
      else writeQuoted (seg ++ [c]) rest w
  end.

Definition writeField (field : string) (w : Writer) : Writer :=
  if fieldNeedsQuotes field
  then WriteByte quote (writeQuoted [] field (WriteByte quote w))
  else WriteString (bytes field) w.

Fixpoint writeFields (first : bool) (record : list string) (w : Writer) : Writer :=
  match record with
  | [] => w
  | field :: rest =>
      writeFields false rest
        (writeField field (if first then w else WriteByte ","%char w))
  end.

(** [Write] of [csv.Writer]. Each call on the buffer gives back its
    error, kept from then on, so that the first error ends the record:
    the calls after it do nothing. *)
Definition write (w : Writer) (row : list string) : Writer * option string :=
  let w1 := WriteByte LF (writeFields true row w) in
  match Failed w1 with
  | Some err => (w1, Some err)
  | None =>
      ({| Rows := (Rows w1 ++ [row])%list; Output := Output w1; Buffer := Buffer w1;
          Failed := Failed w1; Room := Room w1 |}, None)
  end.

(** [safeFlush]: [writer.Flush()], then [writer.Error()]. *)
Definition flush (w : Writer) : Writer * option string :=
  let w1 := Flush w in (w1, Failed w1).

(** [os.Create] then the header row. *)
Definition newWriter (budget : option nat) : Writer * option string :=
  write {| Rows := []; Output := []; Buffer := []; Failed := None; Room := budget |}
    header.

(** What the workers share: the writer behind [writeMu], the one-slot
    [errChan], and the counters. Spans, logs, byte counts and the
    progress bar do not feed back into the computation and are left
    out. *)
Record Session := {
  writer : Writer;
  errChan : option string;
  xmlFilesSuccess : Z;
  xmlFilesFailed : Z;
  recordsTotal : Z;
  processedFiles : Z;
}.

Definition newSession (w : Writer) : Session :=
  {| writer := w; errChan := None; xmlFilesSuccess := 0;
     xmlFilesFailed := 0; recordsTotal := 0; processedFiles := 0 |}.

(** The non-blocking send [select { case errChan <- err: default: }]. *)
Definition trySend (err : string) (s : Session) : Session :=
  {| writer := writer s;
     errChan := match errChan s with Some e => Some e | None => Some err end;
     xmlFilesSuccess := xmlFilesSuccess s;
     xmlFilesFailed := xmlFilesFailed s;
     recordsTotal := recordsTotal s;
     processedFiles := processedFiles s |}.

Definition countFailed (s : Session) : Session :=
  {| writer := writer s; errChan := errChan s;
     xmlFilesSuccess := xmlFilesSuccess s;
     xmlFilesFailed := xmlFilesFailed s + 1;
     recordsTotal := recordsTotal s;
     processedFiles := processedFiles s |}.

Definition countSuccess (s : Session) : Session :=
  {| writer := writer s; errChan := errChan s;
     xmlFilesSuccess := xmlFilesSuccess s + 1;
     xmlFilesFailed := xmlFilesFailed s;
     recordsTotal := recordsTotal s;
     processedFiles := processedFiles s |}.

Definition countRecords (n : Z) (s : Session) : Session :=
  {| writer := writer s; errChan := errChan s;
     xmlFilesSuccess := xmlFilesSuccess s;
     xmlFilesFailed := xmlFilesFailed s;
     recordsTotal := recordsTotal s + n;
     processedFiles := processedFiles s |}.

Definition countProcessed (s : Session) : Session :=
  {| writer := writer s; errChan := errChan s;
     xmlFilesSuccess := xmlFilesSuccess s;
     xmlFilesFailed := xmlFilesFailed s;
     recordsTotal := recordsTotal s;
     processedFiles := processedFiles s + 1 |}.

Definition setWriter (w : Writer) (s : Session) : Session :=
  {| writer := w; errChan := errChan s;
     xmlFilesSuccess := xmlFilesSuccess s;
     xmlFilesFailed := xmlFilesFailed s;
     recordsTotal := recordsTotal s;
     processedFiles := processedFiles s |}.

(** The traversal of [safeWrite] over the records of one file. *)
Fixpoint writeRecords (w : Writer) (records : list CsvRow)
  : Writer * Either (list (list string)) :=
  match records with
  | [] => (w, Right [])
  | record :: rest =>
      match write w (fields record) with
      | (w1, Some err) => (w1, Left err)
      | (w1, None) =>
          match writeRecords w1 rest with
          | (w2, Left err) => (w2, Left err)
          | (w2, Right written) => (w2, Right (fields record :: written))
          end
      end
  end.

(** The body of the goroutine started for one XML file. *)
Definition fileWorker (ctx : Context) (path : string) (file : File) (s : Session)
  : Session :=
  match processSingleXML ctx file with
  | Left err =>
      trySend ("failed to process " ++ path ++ ": " ++ err) (countFailed s)
  | Right records =>
      let (w1, res) := writeRecords (writer s) records in
      let s1 :=
        match res with
        | Right written => countRecords (Z.of_nat (length written)) (setWriter w1 s)
        | Left err => trySend err (countFailed (setWriter w1 s))
        end in
      match flush (writer s1) with
      | (w2, Some flushErr) => trySend flushErr (countFailed (setWriter w2 s1))
      | (w2, None) =>
          let s2 := setWriter w2 s1 in
          let s3 := if ET.IsRight res then countSuccess s2 else s2 in
          countProcessed s3
      end
  end.

End Parse.

(* ===================================================================== *)
(** ** [path/filepath] on Unix, on paths split into their elements *)
(* ===================================================================== *)

Module Path.

(** The elements of a slash-separated name, empty ones included. *)
Fixpoint split (s : string) : list string :=
  match s with
  | EmptyString => [EmptyString]
  | String c s' =>
      if decide (c = "/"%char) then EmptyString :: split s'
      else
        match split s' with
        | [] => [String c EmptyString]
        | x :: xs => String c x :: xs
        end
  end.

(** One element of [filepath.Clean], on the stack of the elements kept
    so far (innermost first): empty and dot elements are dropped; a
    dot-dot element removes the element before it, is dropped at the
    root of a rooted path, and is kept at the start of a relative one. *)
Definition cleanStep (rooted : bool) (stack : list string) (elem : string) : list string :=
  if decide (elem = "" \/ elem = ".") then stack
  else if decide (elem = "..") then
    match stack with
    | top :: below => if decide (top = "..") then ".." :: stack else below
    | [] => if rooted then [] else [".."]
    end
  else elem :: stack.

Definition Clean (rooted : bool) (elems : list string) : list string :=
  List.rev (List.fold_left (cleanStep rooted) elems []).

(** From here on a path is absolute and clean, and given by its
    elements below the root; a relative path is resolved against the
    working directory by the operating system. *)

(** [filepath.Join(dir, name)]. *)
Definition Join (dir : list string) (name : string) : list string :=
  Clean true (dir ++ split name)%list.

(** [filepath.Dir]. *)
Definition Dir (p : list string) : list string := List.removelast p.

(** [filepath.Base]. *)
Definition Base (p : list string) : string := List.last p "/".

(** A clean absolute path has no empty, dot or dot-dot element. *)
Definition isClean (p : list string) : Prop :=
  Forall (fun e => e <> "" /\ e <> "." /\ e <> "..") p.

(** The order in which [filepath.WalkDir] visits: the entries of a
    directory by name, each directory before what is below it. *)
Fixpoint leb (p q : list string) : bool :=
  match p, q with
  | [], _ => true
  | _ :: _, [] => false
  | a :: p', b :: q' =>
      if decide (a = b) then leb p' q' else String.leb a b
  end.

Definition le (p q : list string) : Prop := leb p q = true.

#[global] Instance le_dec : RelDecision le.
Proof. intros p q. unfold le. apply _. Defined.

End Path.

(* ===================================================================== *)
(** ** [internal/extract]: archives, the disk, and the unpacker *)
(* ===================================================================== *)

Module Extract.

(** What a file holds: bytes that are not a ZIP archive, or an archive
    with its entries in order. An archive is a finite tree, each entry
    stored whole inside it; an archive whose bytes unpack to a copy of
    itself is outside this type. *)
Inductive Content :=
| Data (bytes : string)
| Zip (files : list Entry)
with Entry :=
| Directory (name : string)                  (* FileInfo().IsDir() *)
| Regular (name : string) (body : Content)   (* a file, read from the archive *)
| Blank (name : string)                      (* a file of no bytes, stored as such:
                                                the archive holds nothing to read *)
| Unreadable (name : string)                 (* f.Open() fails *)
| Damaged (name : string) (partial : Content). (* io.Copy fails after [partial] *)

Definition Name (f : Entry) : string :=
  match f with
  | Directory n | Regular n _ | Blank n | Unreadable n | Damaged n _ => n
  end.

Inductive Inode :=
| IDir
| IFile (c : Content).

(** The disk: what is at each absolute path. The root always is a
    directory. *)
Abbreviation Disk := (gmap (list string) Inode).

Definition stat (fs : Disk) (p : list string) : option Inode :=
  match p with
  | [] => Some IDir
  | _ => fs !! p
  end.

Fixpoint mkdirAllFrom (base rest : list string) (fs : Disk) : Either Disk :=
  match rest with
  | [] => Right fs
  | e :: rest' =>
      let p := (base ++ [e])%list in
      match fs !! p with
      | Some (IFile _) => Left "not a directory"
      | Some IDir => mkdirAllFrom p rest' fs
      | None => mkdirAllFrom p rest' (<[p := IDir]> fs)
      end
  end.

(** [os.MkdirAll(p, os.ModePerm)]. *)
Definition MkdirAll (p : list string) (fs : Disk) : Either Disk :=
  mkdirAllFrom [] p fs.

(** [os.Create(p)]: a new file of no bytes, or the file that is there
    cut to none. *)
Definition Create (p : list string) (fs : Disk) : Either Disk :=
  match stat fs p with
  | Some IDir => Left "is a directory"
  | _ =>
      match stat fs (Path.Dir p) with
      | Some IDir => Right (<[p := IFile (Data "")]> fs)
      | Some (IFile _) => Left "not a directory"
      | None => Left "no such file or directory"
      end
  end.

Definition isEmptyDir (p : list string) (fs : Disk) : bool :=
  bool_decide (map_Forall (fun q _ => ~ (p `prefix_of` q /\ p <> q)) fs).

(** [os.Remove(p)]. [locked] tells the paths whose removal the
    operating system refuses (permissions). *)
Definition Remove (locked : list string -> bool) (p : list string) (fs : Disk)
  : Either Disk :=
  if locked p then Left "operation not permitted"
  else
    match fs !! p with
    | Some (IFile _) => Right (delete p fs)
    | Some IDir =>
        if isEmptyDir p fs then Right (delete p fs) else Left "directory not empty"
    | None => Left "no such file or directory"
    end.

(** [f.Open()] on an entry of the archive that [zip.OpenReader] holds
    open at [zipPath]. It reads the header of the entry from that file,
    so it fails on every entry once the file is no archive any more,
    which an entry written over it brings about. It gives what
    [io.Copy] will read, and whether it will read it to the end. *)
Definition Open (zipPath : list string) (f : Entry) (fs : Disk)
  : option (Content * bool) :=
  match fs !! zipPath with
  | Some (IFile (Zip _)) =>
      match f with
      | Regular _ body => Some (body, true)
      | Blank _ => Some (Data "", true)
      | Damaged _ partial => Some (partial, false)
      | Unreadable _ | Directory _ => None
      end
  | _ => None
  end.

(** [io.Copy(destFile, rc)] into the file that [os.Create] has just
    made at [destPath]. When that file is the archive itself, it has
    just been cut to no bytes: the copy finds nothing left to read and
    fails, unless the entry has no bytes in the archive. *)
Definition Copy (zipPath destPath : list string) (f : Entry)
    (body : Content) (whole : bool) (fs : Disk) : Disk * bool :=
  if decide (destPath = zipPath)
  then (fs, match f with Blank _ => true | _ => false end)
  else (<[destPath := IFile body]> fs, whole).

(** The body of the loop over [r.File] in [extractZipToDir]; [None] is
    the end of the body without a [return]. *)
Definition extractEntry (zipPath destDir : list string) (f : Entry) (fs : Disk)
  : Disk * option string :=
  let destPath := Path.Join destDir (Name f) in
  match f with
  | Directory _ =>
      match MkdirAll destPath fs with
      | Left err => (fs, Some ("failed to create directory: " ++ err))
      | Right fs1 => (fs1, None)
      end
  | _ =>
      match MkdirAll (Path.Dir destPath) fs with
      | Left err => (fs, Some ("failed to create parent directory: " ++ err))
      | Right fs1 =>
          match Open zipPath f fs1 with
          | None => (fs1, Some "failed to open file in zip")
          | Some (body, whole) =>
              match Create destPath fs1 with
              | Left err => (fs1, Some ("failed to create file: " ++ err))
              | Right fs2 =>
                  match Copy zipPath destPath f body whole fs2 with
                  | (fs3, true) => (fs3, None)
                  | (fs3, false) => (fs3, Some "failed to copy file")
                  end
              end
          end
      end
  end.

(** The loop over [r.File]. *)
Fixpoint extractEntries (zipPath destDir : list string) (files : list Entry)
    (fs : Disk) : Disk * option string :=
  match files with
  | [] => (fs, None)
  | f :: rest =>
      match extractEntry zipPath destDir f fs with
      | (fs1, Some err) => (fs1, Some err)
      | (fs1, None) => extractEntries zipPath destDir rest fs1
      end
  end.

(** [extractZipToDir]: [zip.OpenReader] succeeds on a file that holds an
    archive. *)
Definition extractZipToDir (zipPath destDir : list string) (fs : Disk)
  : Disk * option string :=
  match fs !! zipPath with
  | Some (IFile (Zip files)) => extractEntries zipPath destDir files fs
  | _ => (fs, Some "failed to open zip")
  end.

Definition isZipName (name : string) : bool :=
  Str.HasSuffix (Str.ToLower name) ".zip".

(** The test of the walk callback, for what is at [p] on a walk that
    started at [dir]. *)
Definition isZipUnder (dir : list string) (p : list string) (node : Inode) : bool :=
  match node with
  | IFile _ => isZipName (Path.Base p) && bool_decide (dir `prefix_of` p)
  | IDir => false
  end.

(** [findAllZipFilesRecursive], by what it returns: the regular files at
    or below [dir] whose name ends in [.zip], in the order of the walk.
    The walk itself is [WalkDirZip] below; on a disk that is a tree it
    gives this list. *)
Definition findAllZipFilesRecursive (dir : list string) (fs : Disk)
  : Either (list (list string)) :=
  match stat fs dir with
  | None => Left "no such file or directory"
  | Some _ =>
      Right (merge_sort Path.le
               (map_to_list (filter (fun kv => isZipUnder dir kv.1 kv.2 = true) fs)).*1)
  end.

Section Unpacker.

(** The paths that [os.Remove] refuses, and [e.DeleteAfter]. *)
Variable locked : list string -> bool.
Variable DeleteAfter : bool.

(** The inner loop of [extractAllZipsInDir], over the archives found
    by one walk. *)
Fixpoint extractNested (zipFiles : list (list string)) (ctx : Context) (fs : Disk)
  : Context * Disk * option string :=
  match zipFiles with
  | [] => (ctx, fs, None)
  | zipFile :: rest =>
      let (done, ctx1) := poll ctx in
      if done then (ctx1, fs, Some Canceled)
      else
        let destDir := Path.Dir zipFile in
        match extractZipToDir zipFile destDir fs with
        | (fs1, Some err) => (ctx1, fs1, Some err)
        | (fs1, None) =>
            let fs2 :=
              if DeleteAfter then
                match Remove locked zipFile fs1 with
                | Left _ => fs1
                | Right fs' => fs'
                end
              else fs1 in
            extractNested rest ctx1 fs2
        end
  end.

(** [extractAllZipsInDir]: the loop [for { ... }]. [fuel] bounds the
    number of walks of the model; [None] is a run that needs more. *)
Fixpoint extractAllZipsInDir (fuel : nat) (dir : list string)
    (ctx : Context) (fs : Disk) : option (Disk * Either unit) :=
  match fuel with
  | O => None
  | S fuel' =>
      let (done, ctx1) := poll ctx in
      if done then Some (fs, Left Canceled)
      else
        match findAllZipFilesRecursive dir fs with
        | Left err => Some (fs, Left err)
        | Right [] => Some (fs, Right tt)
        | Right zipFiles =>
            match extractNested zipFiles ctx1 fs with
            | (_, fs1, Some err) => Some (fs1, Left err)
            | (ctx2, fs1, None) => extractAllZipsInDir fuel' dir ctx2 fs1
            end
        end
  end.

End Unpacker.

(** *** The size of the work left *)

(** The number of archives in a content, nested ones included. *)
Fixpoint weight (c : Content) : nat :=
  match c with
  | Data _ => 0%nat
  | Zip files => S (list_sum (List.map entryWeight files))
  end
with entryWeight (f : Entry) : nat :=
  match f with
  | Regular _ body | Damaged _ body => weight body
  | Directory _ | Blank _ | Unreadable _ => 0%nat
  end.

(** What the file at [p] adds to the work of a walk from [dir]. *)
Definition weightAt (dir p : list string) (node : Inode) : nat :=
  match node with
  | IFile c => if isZipUnder dir p node then weight c else 0%nat
  | IDir => 0%nat
  end.

Definition pending (dir : list string) (fs : Disk) : nat :=
  map_fold (fun p node acc => (weightAt dir p node + acc)%nat) 0%nat fs.

(** *** Directories, entry by entry *)

Definition IsDir (d : Inode) : bool :=
  match d with IDir => true | IFile _ => false end.

(** The order of two entries of a directory: that of their names. *)
Definition entryLe (a b : list string * Inode) : Prop := Path.le a.1 b.1.

#[global] Instance entryLe_dec : RelDecision entryLe.
Proof. intros a b. unfold entryLe. apply _. Defined.

(** [os.ReadDir(dir)]: what lies directly in a directory, sorted by
    name; it fails on anything but a directory. An entry is given by
    its path, the last element of which is its name. *)
Definition ReadDir (dir : list string) (fs : Disk)
  : Either (list (list string * Inode)) :=
  match stat fs dir with
  | Some IDir =>
      Right (merge_sort entryLe
               (map_to_list
                  (filter (fun kv => kv.1 <> [] /\ Path.Dir kv.1 = dir) fs)))
  | Some (IFile _) => Left "not a directory"
  | None => Left "no such file or directory"
  end.

(** The function that [findAllZipFilesRecursive] gives to
    [filepath.WalkDir], as it acts on the list collected so far. *)
Definition collectZip (path : list string) (d : Inode) (zipFiles : list (list string))
  : list (list string) :=
  if negb (IsDir d) && isZipName (Path.Base path)
  then (zipFiles ++ [path])%list else zipFiles.

(** The loop of [filepath.WalkDir] over the entries of the directory
    [path], [walk] being the walk from one entry. *)
Fixpoint walkEntries
    (walk : list string -> Inode -> list (list string) -> option (Either (list (list string))))
    (path : list string) (entries : list (list string * Inode))
    (zipFiles : list (list string)) : option (Either (list (list string))) :=
  match entries with
  | [] => Some (Right zipFiles)
  | d1 :: rest =>
      let path1 := Path.Join path (Path.Base d1.1) in
      match walk path1 d1.2 zipFiles with
      | Some (Right zipFiles1) => walkEntries walk path rest zipFiles1
      | other => other
      end
  end.

(** The recursion of [filepath.WalkDir]: the function is called on the
    path, and then, for a directory, on each of its entries in the order
    of [os.ReadDir], each with what is below it before the next. [fuel]
    bounds the depth of the walk; [None] is a walk that needs more. *)
Fixpoint walkDir (fuel : nat) (fs : Disk) (path : list string) (d : Inode)
    (zipFiles : list (list string)) : option (Either (list (list string))) :=
  match fuel with
  | O => None
  | S fuel' =>
      let zipFiles := collectZip path d zipFiles in
      match d with
      | IFile _ => Some (Right zipFiles)
      | IDir =>
          match ReadDir path fs with
          | Left err => Some (Left err)
          | Right entries => walkEntries (walkDir fuel' fs) path entries zipFiles
          end
      end
  end.

(** [findAllZipFilesRecursive], step by step: [filepath.WalkDir] looks
    at the root, and walks from it. *)
Definition WalkDirZip (fuel : nat) (dir : list string) (fs : Disk)
  : option (Either (list (list string))) :=
  match stat fs dir with
  | None => Some (Left "no such file or directory")
  | Some d => walkDir fuel fs dir d []
  end.

(** *** The top-level pass *)

(** [findZipFiles]: the entries of the directory that are no
    directories and whose name ends in [.zip] in any case, each joined
    to the directory. *)
Definition findZipFiles (dir : list string) (fs : Disk) : Either (list (list string)) :=
  match ReadDir dir fs with
  | Left err => Left err
  | Right entries =>
      Right (List.fold_left
               (fun zipFiles (entry : list string * Inode) =>
                  if negb (IsDir entry.2) && isZipName (Path.Base entry.1)
                  then (zipFiles ++ [Path.Join dir (Path.Base entry.1)])%list
                  else zipFiles)
               entries [])
  end.

Section Archive.

Variable locked : list string -> bool.
Variable DeleteAfter : bool.

(** [extractAllZipsInDir] once more, this time with the context as the
    polls that follow the loop see it, for the callers that go on. *)
Fixpoint unpackAll (fuel : nat) (dir : list string) (ctx : Context) (fs : Disk)
  : option (Context * Disk * Either unit) :=
  match fuel with
  | O => None
  | S fuel' =>
      let (done, ctx1) := poll ctx in
      if done then Some (ctx1, fs, Left Canceled)
      else
        match findAllZipFilesRecursive dir fs with
        | Left err => Some (ctx1, fs, Left err)
        | Right [] => Some (ctx1, fs, Right tt)
        | Right zipFiles =>
            match extractNested locked DeleteAfter zipFiles ctx1 fs with
            | (ctx2, fs1, Some err) => Some (ctx2, fs1, Left err)
            | (ctx2, fs1, None) => unpackAll fuel' dir ctx2 fs1
            end
        end
  end.

(** The directory that [processSingleZip] unpacks an archive into: the
    name of the archive without a final [.zip], in lower case only, next
    to the archive. *)
Definition destDirOf (zipPath : list string) : list string :=
  let baseName := Str.TrimSuffix (Path.Base zipPath) ".zip" in
  Path.Join (Path.Dir zipPath) baseName.

(** [processSingleZip], as [ExtractAll] runs it (with its progress bar
    in place): unpack the archive into its directory, unpack what is
    nested there, delete the archive when asked to. *)
Definition processSingleZip (fuel : nat) (zipPath : list string)
    (ctx : Context) (fs : Disk) : option (Disk * Either unit) :=
  let destDir := destDirOf zipPath in
  let (done0, ctx0) := poll ctx in
  if done0 then Some (fs, Left Canceled)
  else
    let (done1, ctx1) := poll ctx0 in
    if done1 then Some (fs, Left Canceled)
    else
      match extractZipToDir zipPath destDir fs with
      | (fs1, Some err) => Some (fs1, Left err)
      | (fs1, None) =>
          let (done2, ctx2) := poll ctx1 in
          if done2 then Some (fs1, Left Canceled)
          else
            match unpackAll fuel destDir ctx2 fs1 with
            | None => None
            | Some (_, fs2, Left err) => Some (fs2, Left err)
            | Some (ctx3, fs2, Right _) =>
                let (done3, _) := poll ctx3 in
                if done3 then Some (fs2, Left Canceled)
                else if DeleteAfter then
                  match Remove locked zipPath fs2 with
                  | Left _ => Some (fs2, Right tt)
                  | Right fs3 => Some (fs3, Right tt)
                  end
                else Some (fs2, Right tt)
            end
      end.

End Archive.

End Extract.

(* ===================================================================== *)
(** ** Vocabulary of the properties, and sample inputs *)
(* ===================================================================== *)

(** Strictly ascending in byte-wise order: sorted, and free of
    duplicates. *)
Definition strictlyAscending (l : list string) : Prop :=
  StronglySorted (fun a b => String.ltb a b = true) l.

(** The text of one citation as the CSV format describes it: the cited
    identifier, then the categories in parentheses, separated by commas. *)
Definition citationText (c : Parse.Citation) : string :=
  Parse.CitedID c ++ " (" ++ Str.Join (Parse.Categories c) "," ++ ")".

Definition hasCitedID (c : Parse.Citation) : bool :=
  negb (Str.isEmpty (Parse.CitedID c)).

(** The delay before retry number [k] (from 0): 5 ms, doubled [k] times. *)
Definition backoff (k : nat) : Z := 5 * Download.Millisecond * 2 ^ Z.of_nat k.

(** [n] tries in a row, numbered from [start], with the backoff delays
    between them. *)
Fixpoint schedule (start n : nat) : list Retry.Event :=
  match n with
  | O => []
  | S n' =>
      match n' with
      | O => [Retry.Attempt start]
      | S _ =>
          Retry.Attempt start :: Retry.Sleep (backoff start) :: schedule (S start) n'
      end
  end.

(** What a walk from [dir] takes for an archive: a path below [dir]
    whose last element ends in [.zip], in any case. *)
Definition foundBelow (dir z : list string) : Prop :=
  Extract.isZipName (Path.Base z) = true /\ dir `prefix_of` z.

(** Text made of ASCII bytes only, on which the functions of [Str]
    agree with those of [strings] also for capitals and blanks. *)
Definition isASCII (s : string) : bool :=
  Str.forallb (fun c => Nat.ltb (Str.code c) 128) s.

(** The units that [getUnitMultiplier] knows, as its [switch] lists
    them. *)
Definition knownUnits : list string :=
  ["TB"; "TIB"; "T"; "GB"; "GIB"; "G"; "MB"; "MIB"; "M"; "KB"; "KIB"; "K";
   "B"; "BYTES"; "BYTE"; ""].

(** The time a run spends asleep between its tries. *)
Definition totalSleep (events : list Retry.Event) : Z :=
  List.fold_right Z.add 0 (Retry.sleeps events).

(** There is a regular file at [p]. *)
Definition isFileAt (fs : gmap (list string) Extract.Inode) (p : list string) : Prop :=
  exists c, fs !! p = Some (Extract.IFile c).

(** No walk from [dir] would find an archive. *)
Definition noArchiveBelow (dir : list string) (fs : gmap (list string) Extract.Inode) : Prop :=
  forall z, foundBelow dir z -> ~ isFileAt fs z.

(** An entry for which [extractZipToDir] writes a file. *)
Definition isFileEntry (f : Extract.Entry) : bool :=
  match f with
  | Extract.Regular _ _ | Extract.Blank _ | Extract.Damaged _ _ => true
  | Extract.Directory _ | Extract.Unreadable _ => false
  end.

(** The bytes that a file entry leaves at its path once it is let
    through. *)
Definition bodyOf (f : Extract.Entry) : option Extract.Content :=
  match f with
  | Extract.Regular _ body => Some body
  | Extract.Blank _ => Some (Extract.Data "")
  | Extract.Directory _ | Extract.Unreadable _ | Extract.Damaged _ _ => None
  end.

(** A regular file lies at [p] or on the way to it from the root. *)
Definition fileOnTheWay (fs : gmap (list string) Extract.Inode) (p : list string) : Prop :=
  exists q, q <> [] /\ q `prefix_of` p /\ isFileAt fs q.

(** What lets an entry through that is handled at the path [p] while
    the archive at [zipPath] is read: for a directory, that no file is
    in its way; for a file, that no file is in the way of its
    directory, that [p] is not a directory, that the archive can still
    be read, and, when [p] is the archive itself, that the entry has
    nothing to read from it. Nothing here asks where [p] lies. *)
Definition fileSystemTakes (zipPath p : list string) (f : Extract.Entry)
    (fs : gmap (list string) Extract.Inode) : Prop :=
  match f with
  | Extract.Directory _ => ~ fileOnTheWay fs p
  | Extract.Regular _ _ | Extract.Blank _ =>
      ~ fileOnTheWay fs (Path.Dir p)
      /\ Extract.stat fs p <> Some Extract.IDir
      /\ (exists files, fs !! zipPath = Some (Extract.IFile (Extract.Zip files)))
      /\ (p = zipPath -> exists n, f = Extract.Blank n)
  | Extract.Unreadable _ | Extract.Damaged _ _ => False
  end.

(** The bytes that a writer has been given and has not lost: those in
    the file, then those in its buffer. *)
Definition stream (w : Parse.Writer) : list ascii :=
  (Parse.Output w ++ Parse.Buffer w)%list.

(** The state of a writer apart from the list of its records. *)
Definition held (w : Parse.Writer)
  : list ascii * list ascii * option string * option nat :=
  (Parse.Output w, Parse.Buffer w, Parse.Failed w, Parse.Room w).

(** [w'] is [w] after the bytes [s] have been written to it: what the
    file holds has only grown; the bytes given so far are those given
    before, followed by [s], all of them when there has been no error
    and their beginning otherwise; a writer that has failed stays as it
    is; one whose file takes everything goes on doing so. *)
Definition writes (s : list ascii) (w w' : Parse.Writer) : Prop :=
  Parse.Output w `prefix_of` Parse.Output w'
  /\ stream w' `prefix_of` (stream w ++ s)%list
  /\ (Parse.Failed w' = None ->
      stream w' = (stream w ++ s)%list /\ Parse.Failed w = None)
  /\ (Parse.Failed w <> None -> held w' = held w)
  /\ (Parse.Budget w = None -> Parse.Budget w' = None).

(** The line that [encoding/csv] writes for a record: the fields
    between commas, a field that needs them in quotes with its own
    quotes doubled, and a line feed. *)
Definition csvField (field : string) : list ascii :=
  if Parse.fieldNeedsQuotes field
  then (Parse.quote
          :: List.flat_map
               (fun c => if decide (c = Parse.quote) then [c; c] else [c])
               (Parse.bytes field)
          ++ [Parse.quote])%list
  else Parse.bytes field.

Fixpoint csvFields (first : bool) (record : list string) : list ascii :=
  match record with
  | [] => []
  | field :: rest =>
      ((if first then [] else [","%char]) ++ csvField field ++ csvFields false rest)%list
  end.

Definition csvLine (record : list string) : list ascii :=
  (csvFields true record ++ [Parse.LF])%list.

(** The length of the longest path on the disk. *)
Definition depth (fs : gmap (list string) Extract.Inode) : nat :=
  max_list ((fun kv : list string * Extract.Inode => length kv.1) <$> map_to_list fs).

(** A path whose elements are plain names: not empty, not dot or
    dot-dot, and without a slash. *)
Definition plainPath (p : list string) : Prop :=
  Forall (fun e => e <> "" /\ e <> "." /\ e <> ".." /\ Path.split e = [e]) p.

(** A disk that is a tree: every path on it is made of plain names and
    lies in a directory, which is on the disk as well or is the root. *)
Definition treeShaped (fs : gmap (list string) Extract.Inode) : Prop :=
  forall p node, fs !! p = Some node ->
    plainPath p /\ p <> [] /\ Extract.stat fs (Path.Dir p) = Some Extract.IDir.

(** The four attributes that [exchangeDocumentFromNode] requires. *)
Definition hasRequiredAttributes (node : Xml.Node) : bool :=
  negb (Str.isEmpty (Xml.SelectAttr node "country"))
  && negb (Str.isEmpty (Xml.SelectAttr node "doc-number"))
  && negb (Str.isEmpty (Xml.SelectAttr node "kind"))
  && negb (Str.isEmpty (Xml.SelectAttr node "status")).

(** A [patent-classification] node that has no [classification-scheme]
    child, or whose first such child has no (or an empty) [scheme]
    attribute, or that has no [classification-symbol] child. *)
Definition lacksSchemeOrSymbol (n : Xml.Node) : bool :=
  match Xml.childrenNamed "classification-scheme" n with
  | [] => true
  | schemeNode :: _ => Str.isEmpty (Xml.SelectAttr schemeNode "scheme")
  end
  || match Xml.childrenNamed "classification-symbol" n with
     | [] => true
     | _ :: _ => false
     end.

(** A [publication-reference] node without a (non-empty) [data-format]
    attribute, or without a [document-id] child. *)
Definition lacksFormatOrDocumentId (pr : Xml.Node) : bool :=
  Str.isEmpty (Xml.SelectAttr pr "data-format")
  || match Xml.childrenNamed "document-id" pr with
     | [] => true
     | _ :: _ => false
     end.

(** The [family-member] nodes and the [citation] nodes that
    [exchangeDocumentFromNode] reads. *)
Definition familyMemberNodes (node : Xml.Node) : list Xml.Node :=
  List.flat_map (Xml.childrenNamed "family-member")
    (Xml.descendantsNamed "patent-family" node).

Definition citationNodes (node : Xml.Node) : list Xml.Node :=
  List.flat_map (Xml.childrenNamed "citation")
    (Xml.descendantsNamed "references-cited" node).

Module Sample.

Import Xml.

Definition elem (name : string) (attrs : list Attr) (cs : list Node) : Node :=
  ElementNode "" name attrs cs.

Definition attr (name value : string) : Attr :=
  {| Space := ""; Local := name; Value := value |}.

Definition text (name value : string) : Node :=
  elem name [] [TextNode value].

Definition documentId (country number kind : string) : Node :=
  elem "document-id" []
    [text "country" country; text "doc-number" number; text "kind" kind].

(** An [exchange-document] with two citations: one whose document
    identifier is empty, one to US1234A1 with the categories X and Y. *)
Definition twoCitations : Node :=
  elem "exchange-document"
    [attr "country" "EP"; attr "doc-number" "100"; attr "kind" "A1"; attr "status" "n"]
    [elem "bibliographic-data" []
       [elem "references-cited" []
          [elem "citation" []
             [elem "patcit" [] [documentId "" "" ""]; text "category" "A"];
           elem "citation" []
             [elem "patcit" [] [documentId "US" "1234" "A1"];
              text "category" "X"; text "category" "Y"]]]].

(** A document that cites the same publication twice. *)
Definition citedTwice : Parse.ExchangeDocument :=
  let c := {| Parse.CitedID := "US1A"; Parse.Categories := ["X"] |} in
  {| Parse.docCountry := "EP"; Parse.docDocNumber := "1"; Parse.docKind := "A1";
     Parse.Status := "n"; Parse.PatentClassifications := [];
     Parse.Citations := [c; c]; Parse.FamilyMembers := [] |}.

(** A [patent-classification] with a symbol but no scheme. *)
Definition noScheme : Node :=
  elem "patent-classification" [] [text "classification-symbol" "H04L 9/00"].

Definition cpci (symbol : string) : Node :=
  elem "patent-classification" []
    [elem "classification-scheme" [attr "scheme" "CPCI"] [];
     text "classification-symbol" symbol].

(** A valid document, one of whose two classifications has no scheme. *)
Definition withNoScheme : Node :=
  elem "exchange-document"
    [attr "country" "EP"; attr "doc-number" "100"; attr "kind" "A1"; attr "status" "n"]
    [elem "bibliographic-data" [] [cpci "A01B 1/00"; noScheme]].

(** A valid document, and one without its [status] attribute. *)
Definition valid : Node :=
  elem "exchange-document"
    [attr "country" "EP"; attr "doc-number" "200"; attr "kind" "B1"; attr "status" "n"]
    [elem "bibliographic-data" [] [cpci "A01B 1/00"]].

Definition noStatus : Node :=
  elem "exchange-document"
    [attr "country" "EP"; attr "doc-number" "300"; attr "kind" "B1"] [].

Definition fileOf (docs : list Node) : Parse.File :=
  {| Parse.OpenErr := None; Parse.StatErr := None; Parse.Size := 1000;
     Parse.Parsed := Right (DocumentNode [elem "exchange-documents" [] docs]) |}.

(** The default server block, a server that answers every request with
    status 500, and some file of the catalog. *)
Definition server : Download.Server := Download.defaultServer "https://example.org".

Definition alwaysFails : nat -> Either Z := fun _ => Left "bad status: 500".

Definition item : Download.DownloadFile :=
  {| Download.filename := "a.zip"; Download.filePath := "data/a.zip";
     Download.expectedSize := 100;
     Download.checksum := "da39a3ee5e6b4b0d3255bfef95601890afd80709";
     Download.url := "https://example.org/products/3/delivery/1/item/1/download" |}.

(** A download directory [/d] with the archive [/d/a.zip], one entry of
    which is named with a dot-dot element. *)
Definition slipDisk : gmap (list string) Extract.Inode :=
  {[ ["d"] := Extract.IDir;
     ["d"; "a.zip"] :=
       Extract.IFile
         (Extract.Zip [Extract.Regular "ok.xml" (Extract.Data "<a/>");
                       Extract.Regular "../evil.txt" (Extract.Data "x")]) ]}.

(** The directory [/d/out] of an unpacked archive, with one inner
    archive that holds one XML file, and the same after one pass of the
    unpacker that does not delete. *)
Definition inner : Extract.Content :=
  Extract.Zip [Extract.Regular "x.xml" (Extract.Data "<a/>")].

Definition nestedDisk : gmap (list string) Extract.Inode :=
  {[ ["d"] := Extract.IDir;
     ["d"; "out"] := Extract.IDir;
     ["d"; "out"; "in.zip"] := Extract.IFile inner ]}.

Definition unpackedDisk : gmap (list string) Extract.Inode :=
  <[ ["d"; "out"; "x.xml"] := Extract.IFile (Extract.Data "<a/>") ]> nestedDisk.

(** A valid document whose family has one reference in docdb format and
    one without a [data-format]. *)
Definition noFormat : Node := elem "publication-reference" [] [documentId "US" "9" "B"].

Definition family : Node :=
  elem "family-member" []
    [elem "publication-reference" [attr "data-format" "docdb"] [documentId "DE" "9" "B"];
     noFormat].

Definition withNoFormat : Node :=
  elem "exchange-document"
    [attr "country" "EP"; attr "doc-number" "100"; attr "kind" "A1"; attr "status" "n"]
    [elem "patent-family" [] [family]].

(** A directory [/d] with one XML file and no archive. *)
Definition plainDisk : gmap (list string) Extract.Inode :=
  {[ ["d"] := Extract.IDir;
     ["d"; "x.xml"] := Extract.IFile (Extract.Data "<a/>") ]}.

(** A directory [/d] with an archive whose name ends in capitals. *)
Definition upperDisk : gmap (list string) Extract.Inode :=
  {[ ["d"] := Extract.IDir;
     ["d"; "A.ZIP"] :=
       Extract.IFile (Extract.Zip [Extract.Regular "x.xml" (Extract.Data "<a/>")]) ]}.

(** A session whose output holds the header row only. *)
Definition freshSession : Parse.Session :=
  Parse.newSession (Parse.newWriter None).1.

End Sample.

(* ===================================================================== *)
(** * Properties *)
(* ===================================================================== *)

(** ** Machine integers *)

Lemma wrap_in_range (z : Z) :
  Int64.min <= z <= Int64.max -> Int64.wrap z = z.
Proof.
  unfold Int64.wrap, Int64.min, Int64.max. intros Hz.
  rewrite Z.mod_small; lia.
Qed.

Lemma mul_zero_r (a : Z) : Int64.mul a 0 = 0.
Proof. unfold Int64.mul. rewrite Z.mul_0_r. reflexivity. Qed.

Lemma quo_zero_l (b : Z) : Int64.quo 0 b = 0.
Proof. destruct b; reflexivity. Qed.

(** ** The file-size parser *)

(** The scale of the fractional part is never zero, so the division in
    [parseFileSize] cannot panic. *)
Lemma Pow10_int64_nonzero (n : nat) : Download.Pow10_int64 n <> 0.
Proof.
  unfold Download.Pow10_int64. destruct (n <=? 18)%nat.
  - apply Z.pow_nonzero; lia.
  - discriminate.
Qed.

(** The documented values that the parser does give. *)
Lemma parseFileSize_examples :
  Download.parseFileSize "1.5 GB" = 1610612736
  /\ Download.parseFileSize "2,5 kb" = 2560
  /\ Download.parseFileSize "xyz" = 0
  /\ Download.parseFileSize "" = 0.
Proof. split; [|split; [|split]]; vm_compute; reflexivity. Qed.

(** A size without a fractional part has an empty second group, which
    [parseInt] turns into [None]; [Sequence2] then has nothing to add. *)
Lemma parseFileSize_no_fraction (s int unit : string) :
  Download.fileSizeRe (Str.TrimSpace s) = Some (int, "", unit) ->
  Download.parseFileSize s = 0.
Proof.
  intros Hre. unfold Download.parseFileSize.
  destruct (Str.isEmpty (Str.TrimSpace s)); [reflexivity|].
  rewrite Hre. simpl.
  destruct (if Str.isEmpty int then None else Str.ParseInt int); reflexivity.
Qed.

(** C9. The file-size parser is documented to give 1024 for the input
    "1024"; the code gives 0, because the absent fractional part makes
    the sum [None]. *)
Theorem parseFileSize_bare_number :
  Download.parseFileSize "1024" = 0 /\ Download.parseFileSize "1024" <> 1024.
Proof. split; vm_compute; [reflexivity | discriminate]. Qed.

(** ** The timeout of the HTTP client *)

Lemma clientTimeout_not_positive (cfg : Download.Server) :
  Download.Timeout cfg <= 0 ->
  Download.clientTimeout cfg = 30 * Download.Second.
Proof.
  intros H. unfold Download.clientTimeout, F.Ternary, F.Constant1.
  destruct (0 <? Download.Timeout cfg) eqn:E; [apply Z.ltb_lt in E; lia|].
  reflexivity.
Qed.

(** When the number held by [Timeout] is small enough, the client gets
    that many seconds. *)
Lemma clientTimeout_seconds (cfg : Download.Server) :
  0 < Download.Timeout cfg <= 9223372036 ->
  Download.clientTimeout cfg = Download.Timeout cfg * Download.Second.
Proof.
  intros H. unfold Download.clientTimeout, F.Ternary, F.Constant1.
  destruct (0 <? Download.Timeout cfg) eqn:E; [|apply Z.ltb_ge in E; lia].
  unfold Int64.mul. apply wrap_in_range.
  unfold Int64.min, Int64.max, Download.Second. lia.
Qed.

(** C5. With the timeout that [config.Load] installs by default, 30
    seconds held as a [time.Duration], the product with [time.Second]
    leaves [int64]: the client does not get 30 seconds but a negative
    duration. *)
Theorem clientTimeout_default_overflows (baseURL : string) :
  Download.Timeout (Download.defaultServer baseURL) = 30 * Download.Second
  /\ Download.clientTimeout (Download.defaultServer baseURL) = -6893488147419103232
  /\ Download.clientTimeout (Download.defaultServer baseURL) <> 30 * Download.Second.
Proof. split; [|split]; vm_compute; [reflexivity | reflexivity | discriminate]. Qed.

(** ** Rows: sorted sets of strings *)

Lemma le_ne_ltb (a b : string) : String.le a b -> a <> b -> String.ltb a b = true.
Proof.
  unfold String.le, String.leb, String.ltb. intros Hle Hne.
  destruct (String.compare a b) eqn:E; [|reflexivity|destruct Hle].
  apply String.compare_eq_iff in E. contradiction.
Qed.

Lemma ltb_irrefl (a : string) : String.ltb a a = true -> False.
Proof.
  unfold String.ltb. intros H.
  assert (E : String.compare a a = CompOpp (String.compare a a))
    by apply String.compare_antisym.
  destruct (String.compare a a); simpl in E; discriminate.
Qed.

Lemma strictlyAscending_NoDup (l : list string) : strictlyAscending l -> NoDup l.
Proof.
  unfold strictlyAscending. induction 1 as [|a l Hs IH Hall]; constructor; [|exact IH].
  intros Hin. rewrite Forall_forall in Hall.
  apply (ltb_irrefl a), Hall, Hin.
Qed.

(** What [sort.Strings] makes of the keys of a set. *)
Lemma sortStrings_elements (X : gset string) :
  strictlyAscending (Parse.sortStrings (elements X))
  /\ forall s, s ∈ Parse.sortStrings (elements X) <-> s ∈ X.
Proof.
  unfold Parse.sortStrings. split.
  - assert (Hnd : NoDup (merge_sort String.le (elements X))).
    { rewrite merge_sort_Permutation. apply NoDup_elements. }
    assert (Hs : StronglySorted String.le (merge_sort String.le (elements X))).
    { apply StronglySorted_merge_sort; apply _. }
    revert Hnd Hs. generalize (merge_sort String.le (elements X)) as l.
    unfold strictlyAscending.
    induction l as [|a l IH]; intros Hnd Hs; [constructor|].
    apply NoDup_cons in Hnd as [Hnotin Hnd].
    apply StronglySorted_inv in Hs as [Hs Hall].
    constructor; [apply IH; assumption|].
    rewrite Forall_forall in Hall |- *. intros b Hb.
    apply le_ne_ltb; [apply Hall, Hb|]. intros ->. exact (Hnotin Hb).
  - intros s. rewrite merge_sort_Permutation. apply elem_of_elements.
Qed.

Lemma elem_of_cpcSet_fold (pcs : list Parse.PatentClassification) (acc : gset string) (s : string) :
  s ∈ List.fold_left
        (fun (set : gset string) pc =>
           if decide (Parse.Scheme pc = "CPCI")
           then {[ Parse.ClassificationSymbol pc ]} ∪ set else set) pcs acc
  <-> s ∈ acc \/ exists pc, pc ∈ pcs /\ Parse.Scheme pc = "CPCI"
                            /\ Parse.ClassificationSymbol pc = s.
Proof.
  revert acc. induction pcs as [|pc pcs IH]; intros acc; simpl.
  - split; [auto|]. intros [H|(pc & Hin & _)]; [exact H|]. inversion Hin.
  - rewrite IH. destruct (decide (Parse.Scheme pc = "CPCI")) as [Hs|Hs].
    + split.
      * intros [H|(pc' & Hin & H1 & H2)].
        -- apply elem_of_union in H as [H|H]; [|auto].
           apply elem_of_singleton in H. right. exists pc.
           split; [left|]. auto.
        -- right. exists pc'. split; [right; exact Hin|auto].
      * intros [H|(pc' & Hin & H1 & H2)].
        -- left. apply elem_of_union. auto.
        -- apply elem_of_cons in Hin as [->|Hin].
           ++ left. apply elem_of_union. left. apply elem_of_singleton. auto.
           ++ right. exists pc'. auto.
    + split.
      * intros [H|(pc' & Hin & H1 & H2)]; [auto|].
        right. exists pc'. split; [right; exact Hin|auto].
      * intros [H|(pc' & Hin & H1 & H2)]; [auto|].
        apply elem_of_cons in Hin as [->|Hin]; [contradiction|].
        right. exists pc'. auto.
Qed.

(** C7. For every row, the [cpc_list] field is the join by semicolons of
    a strictly ascending (hence duplicate-free) list that holds exactly
    the symbols of the classifications whose scheme is CPCI. *)
Theorem cpc_list_sorted_unique_cpci (doc : Parse.ExchangeDocument) :
  exists l : list string,
    Parse.cpc_list (Parse.rowOfDocument doc) = Str.Join l ";"
    /\ strictlyAscending l
    /\ NoDup l
    /\ forall s, s ∈ l <->
         exists pc, pc ∈ Parse.PatentClassifications doc
                    /\ Parse.Scheme pc = "CPCI"
                    /\ Parse.ClassificationSymbol pc = s.
Proof.
  exists (Parse.cpcList doc).
  destruct (sortStrings_elements (Parse.cpcSet doc)) as [Hsorted Hmem].
  split; [reflexivity|]. split; [exact Hsorted|].
  split; [apply strictlyAscending_NoDup, Hsorted|].
  intros s. unfold Parse.cpcList. rewrite Hmem.
  unfold Parse.cpcSet. rewrite elem_of_cpcSet_fold.
  split; [intros [H|H]; [|exact H]|auto].
  apply not_elem_of_empty in H. destruct H.
Qed.

Section FamilySet.

Variable pid : string.

Let addReference (set : gset string) (pr : Parse.PublicationReference) : gset string :=
  if decide (Parse.DataFormat pr = "docdb") then
    let fid := Parse.familyID pr in
    if decide (fid <> pid) then {[ fid ]} ∪ set else set
  else set.

Lemma elem_of_references_fold (prs : list Parse.PublicationReference)
    (acc : gset string) (s : string) :
  s ∈ List.fold_left addReference prs acc
  <-> s ∈ acc \/ exists pr, pr ∈ prs /\ Parse.DataFormat pr = "docdb"
                            /\ Parse.familyID pr = s /\ s <> pid.
Proof.
  revert acc. induction prs as [|pr prs IH]; intros acc; simpl.
  - split; [auto|]. intros [H|(pr & Hin & _)]; [exact H|]. inversion Hin.
  - rewrite IH. unfold addReference.
    destruct (decide (Parse.DataFormat pr = "docdb")) as [Hf|Hf]; simpl;
      [destruct (decide (Parse.familyID pr <> pid)) as [Hp|Hp]|].
    + split.
      * intros [H|(pr' & Hin & H')].
        -- apply elem_of_union in H as [H|H]; [|auto].
           apply elem_of_singleton in H. subst s. right. exists pr.
           split; [left|]. auto.
        -- right. exists pr'. split; [right; exact Hin|exact H'].
      * intros [H|(pr' & Hin & H1 & H2 & H3)].
        -- left. apply elem_of_union. auto.
        -- apply elem_of_cons in Hin as [->|Hin].
           ++ left. apply elem_of_union. left. apply elem_of_singleton. auto.
           ++ right. exists pr'. auto.
    + split.
      * intros [H|(pr' & Hin & H')]; [auto|].
        right. exists pr'. split; [right; exact Hin|exact H'].
      * intros [H|(pr' & Hin & H1 & H2 & H3)]; [auto|].
        apply elem_of_cons in Hin as [->|Hin].
        -- exfalso. apply Hp. rewrite H2. exact H3.
        -- right. exists pr'. auto.
    + split.
      * intros [H|(pr' & Hin & H')]; [auto|].
        right. exists pr'. split; [right; exact Hin|exact H'].
      * intros [H|(pr' & Hin & H1 & H2 & H3)]; [auto|].
        apply elem_of_cons in Hin as [->|Hin]; [contradiction|].
        right. exists pr'. auto.
Qed.

Lemma elem_of_members_fold (fms : list Parse.FamilyMember)
    (acc : gset string) (s : string) :
  s ∈ List.fold_left
        (fun set fm => List.fold_left addReference (Parse.PublicationReferences fm) set)
        fms acc
  <-> s ∈ acc \/ exists fm pr, fm ∈ fms /\ pr ∈ Parse.PublicationReferences fm
                               /\ Parse.DataFormat pr = "docdb"
                               /\ Parse.familyID pr = s /\ s <> pid.
Proof.
  revert acc. induction fms as [|fm fms IH]; intros acc; simpl.
  - split; [auto|]. intros [H|(fm & pr & Hin & _)]; [exact H|]. inversion Hin.
  - rewrite IH, elem_of_references_fold. split.
    + intros [[H|(pr & Hin & H')]|(fm' & pr & Hin & H')].
      * auto.
      * right. exists fm, pr. split; [left|]. auto.
      * right. exists fm', pr. split; [right; exact Hin|exact H'].
    + intros [H|(fm' & pr & Hin & Hpr & H')]; [auto|].
      apply elem_of_cons in Hin as [->|Hin].
      * left. right. exists pr. auto.
      * right. exists fm', pr. auto.
Qed.

End FamilySet.

(** C6. For every row, the [family_patents] field is the join by
    semicolons of a strictly ascending (hence duplicate-free) list that
    holds exactly the identifiers country+docNumber+kind of the
    publication references in docdb format, the row's own [patent_id]
    left out; so it never holds the row's own [patent_id]. *)
Theorem family_patents_sorted_unique_docdb (doc : Parse.ExchangeDocument) :
  let row := Parse.rowOfDocument doc in
  exists l : list string,
    Parse.family_patents row = Str.Join l ";"
    /\ strictlyAscending l
    /\ NoDup l
    /\ (forall s, s ∈ l <->
          s <> Parse.patent_id row
          /\ exists fm pr, fm ∈ Parse.FamilyMembers doc
               /\ pr ∈ Parse.PublicationReferences fm
               /\ Parse.DataFormat pr = "docdb"
               /\ (Parse.Country (Parse.DocumentID_ pr)
                     ++ Parse.DocNumber (Parse.DocumentID_ pr)
                     ++ Parse.Kind (Parse.DocumentID_ pr)) = s)
    /\ Parse.patent_id row ∉ l.
Proof.
  intros row. exists (Parse.familyList doc).
  destruct (sortStrings_elements (Parse.familySet doc)) as [Hsorted Hmem].
  assert (Hchar : forall s, s ∈ Parse.familyList doc <->
            s <> Parse.patentID doc
            /\ exists fm pr, fm ∈ Parse.FamilyMembers doc
                 /\ pr ∈ Parse.PublicationReferences fm
                 /\ Parse.DataFormat pr = "docdb"
                 /\ Parse.familyID pr = s).
  { intros s. unfold Parse.familyList. rewrite Hmem.
    unfold Parse.familySet. rewrite (elem_of_members_fold (Parse.patentID doc)).
    split.
    - intros [H|(fm & pr & H1 & H2 & H3 & H4 & H5)].
      + apply not_elem_of_empty in H. destruct H.
      + split; [exact H5|]. exists fm, pr. auto.
    - intros (H5 & fm & pr & H1 & H2 & H3 & H4).
      right. exists fm, pr. auto. }
  split; [reflexivity|]. split; [exact Hsorted|].
  split; [apply strictlyAscending_NoDup, Hsorted|].
  split; [exact Hchar|].
  intros Hin. apply Hchar in Hin as [Hne _]. apply Hne. reflexivity.
Qed.

(** Every row that [exchangeDocumentFromNode] gives is the row of the
    document read from the node. *)
Lemma emitted_row_of_document (node : Xml.Node) (row : Parse.CsvRow) :
  Parse.exchangeDocumentFromNode node = Right row ->
  exists doc, Parse.documentOfNode node = Right doc /\ row = Parse.rowOfDocument doc.
Proof.
  unfold Parse.exchangeDocumentFromNode.
  destruct (Parse.documentOfNode node) as [e|doc]; simpl; [discriminate|].
  intros [= <-]. eauto.
Qed.

(** ** Rows: citations *)

Lemma citationList_filter_map (cs : list Parse.Citation) :
  List.flat_map Parse.formatCitation cs
  = List.map citationText (List.filter hasCitedID cs).
Proof.
  induction cs as [|c cs IH]; simpl; [reflexivity|].
  unfold Parse.formatCitation at 1. unfold hasCitedID at 1.
  destruct (negb (Str.isEmpty (Parse.CitedID c))); simpl; rewrite IH; reflexivity.
Qed.

(** C8. For every row, the [citations] field is the join by semicolons
    of the texts "citedID (cat1,cat2,...)" of the document's citations
    whose [citedID] is not empty, in the order of the document and with
    repetitions kept; a citation with an empty [citedID] leaves nothing.
    The document with one empty citation and one citation of US1234A1
    with the categories X and Y gives "US1234A1 (X,Y)". *)
Theorem citations_nonempty_in_order :
  (forall doc : Parse.ExchangeDocument,
      Parse.citations (Parse.rowOfDocument doc)
      = Str.Join (List.map citationText (List.filter hasCitedID (Parse.Citations doc))) ";")
  /\ (exists row, Parse.exchangeDocumentFromNode Sample.twoCitations = Right row
                  /\ Parse.citations row = "US1234A1 (X,Y)")
  /\ Parse.citations (Parse.rowOfDocument Sample.citedTwice) = "US1A (X);US1A (X)".
Proof.
  split; [|split].
  - intros doc. simpl. unfold Parse.citationList.
    rewrite citationList_filter_map. reflexivity.
  - eexists. split; vm_compute; reflexivity.
  - vm_compute. reflexivity.
Qed.

(** ** Records: what a malformed classification does *)

Lemma TraverseArray_Left {A B} (f : A -> Either B) (l : list A) (x : A) (err : string) :
  In x l -> f x = Left err -> exists e, ET.TraverseArray f l = Left e.
Proof.
  induction l as [|a l IH]; intros Hin Hx; [destruct Hin|].
  simpl. destruct (f a) as [e|b] eqn:Ea; [eauto|].
  destruct Hin as [->|Hin]; [congruence|].
  destruct (IH Hin Hx) as [e ->]. eauto.
Qed.

Lemma classificationFromNode_Left (n : Xml.Node) :
  lacksSchemeOrSymbol n = true ->
  exists err, Parse.classificationFromNode n = Left err.
Proof.
  unfold lacksSchemeOrSymbol, Parse.classificationFromNode, Xml.FindOne.
  destruct (Xml.childrenNamed "classification-scheme" n) as [|schemeNode ?]; simpl;
    [eauto|].
  destruct (Str.isEmpty (Xml.SelectAttr schemeNode "scheme")); simpl; [eauto|].
  destruct (Xml.childrenNamed "classification-symbol" n); simpl; [eauto|].
  discriminate.
Qed.

Lemma classificationsFromNode_dropped (node pc : Xml.Node) :
  In pc (Xml.descendantsNamed "patent-classification" node) ->
  lacksSchemeOrSymbol pc = true ->
  Parse.classificationsFromNode node = [].
Proof.
  intros Hin Hpc. unfold Parse.classificationsFromNode. simpl.
  destruct (classificationFromNode_Left pc Hpc) as [err Herr].
  destruct (TraverseArray_Left _ _ _ _ Hin Herr) as [e ->]. reflexivity.
Qed.

(** C2, as the code has it. For every [exchange-document] with its four
    required attributes, a [patent-classification] node inside it that
    lacks its scheme or its symbol makes the document lose all its
    classifications: the document still gives a row, and the [cpc_list]
    of that row is empty. The document is not rejected. *)
Theorem malformed_classification_empties_cpc_list (node pc : Xml.Node) :
  hasRequiredAttributes node = true ->
  In pc (Xml.descendantsNamed "patent-classification" node) ->
  lacksSchemeOrSymbol pc = true ->
  exists row, Parse.exchangeDocumentFromNode node = Right row
              /\ Parse.cpc_list row = "".
Proof.
  intros Hattrs Hin Hpc.
  unfold Parse.exchangeDocumentFromNode, Parse.documentOfNode.
  unfold hasRequiredAttributes in Hattrs.
  destruct (Str.isEmpty (Xml.SelectAttr node "country")); [discriminate|].
  destruct (Str.isEmpty (Xml.SelectAttr node "doc-number")); [discriminate|].
  destruct (Str.isEmpty (Xml.SelectAttr node "kind")); [discriminate|].
  destruct (Str.isEmpty (Xml.SelectAttr node "status")); [discriminate|].
  simpl. eexists. split; [reflexivity|]. simpl.
  unfold Parse.cpcList, Parse.cpcSet. simpl.
  rewrite (classificationsFromNode_dropped node pc Hin Hpc). reflexivity.
Qed.

Lemma malformed_classification_witness :
  exists row, Parse.exchangeDocumentFromNode Sample.withNoScheme = Right row
              /\ Parse.cpc_list row = "".
Proof.
  apply (malformed_classification_empties_cpc_list Sample.withNoScheme Sample.noScheme).
  - vm_compute. reflexivity.
  - vm_compute. right. left. reflexivity.
  - vm_compute. reflexivity.
Defined.

(** C2, as stated, fails: a file whose only document has a
    classification without a scheme is processed without error, its row
    is written, and the file is counted as a success. *)
Lemma missing_scheme_not_rejected :
  let file := Sample.fileOf [Sample.withNoScheme] in
  let row := {| Parse.patent_id := "EP100A1"; Parse.status := "n";
                Parse.cpc_list := ""; Parse.citations := "";
                Parse.family_patents := "" |} in
  let after := Parse.fileWorker background "a.xml" file Sample.freshSession in
  In Sample.noScheme (Xml.descendantsNamed "patent-classification" Sample.withNoScheme)
  /\ lacksSchemeOrSymbol Sample.noScheme = true
  /\ Parse.processSingleXML background file = Right [row]
  /\ Parse.Rows (Parse.writer after) = [Parse.header; Parse.fields row]
  /\ Parse.xmlFilesFailed after = 0
  /\ Parse.xmlFilesSuccess after = 1
  /\ Parse.errChan after = None.
Proof.
  cbv zeta. split; [vm_compute; right; left; reflexivity|].
  split; [|split; [|split; [|split; [|split]]]]; vm_compute; reflexivity.
Qed.

(** ** Rows of a file: all or nothing *)

Lemma traverseDocuments_rejects (nodes : list Xml.Node) (ctx : Context)
    (node : Xml.Node) (err : string) :
  In node nodes ->
  Parse.exchangeDocumentFromNode node = Left err ->
  exists e, Parse.traverseDocuments ctx nodes = Left e.
Proof.
  revert ctx. induction nodes as [|a nodes IH]; intros ctx Hin Hnode; [destruct Hin|].
  simpl. destruct (poll ctx) as [done ctx'].
  destruct done; [eauto|].
  destruct (Parse.exchangeDocumentFromNode a) as [e|row] eqn:Ea; [eauto|].
  destruct Hin as [->|Hin]; [congruence|].
  destruct (IH ctx' Hin Hnode) as [e ->]. eauto.
Qed.

Lemma processSingleXML_rejects (ctx : Context) (file : Parse.File)
    (doc node : Xml.Node) (err : string) :
  Parse.Parsed file = Right doc ->
  In node (Parse.exchangeDocuments doc) ->
  Parse.exchangeDocumentFromNode node = Left err ->
  exists e, Parse.processSingleXML ctx file = Left e.
Proof.
  intros Hdoc Hin Hnode. unfold Parse.processSingleXML.
  destruct (Parse.OpenErr file); [eauto|].
  destruct (poll ctx) as [[] ctx0]; [eauto|].
  destruct (Parse.StatErr file); [eauto|].
  destruct (poll ctx0) as [[] ctx1]; [eauto|].
  rewrite Hdoc.
  destruct (poll ctx1) as [[] ctx2]; [eauto|].
  eapply traverseDocuments_rejects; eassumption.
Qed.

(** A file whose processing fails touches the counters and the error
    channel, never the writer. *)
Lemma fileWorker_failed (ctx : Context) (path : string) (file : Parse.File)
    (s : Parse.Session) (e : string) :
  Parse.processSingleXML ctx file = Left e ->
  Parse.writer (Parse.fileWorker ctx path file s) = Parse.writer s
  /\ Parse.xmlFilesFailed (Parse.fileWorker ctx path file s) = Parse.xmlFilesFailed s + 1
  /\ Parse.xmlFilesSuccess (Parse.fileWorker ctx path file s) = Parse.xmlFilesSuccess s.
Proof.
  intros H. unfold Parse.fileWorker. rewrite H. simpl. auto.
Qed.

(** C10. The rows of a file are all computed before the first of them
    is written: when any [exchange-document] of the file is rejected,
    the processing of the file fails as a whole, no row of it reaches the
    output, and the file is counted as failed and not as a success. *)
Theorem rejected_document_writes_no_row (ctx : Context) (path : string)
    (file : Parse.File) (s : Parse.Session) (doc node : Xml.Node) (err : string) :
  Parse.Parsed file = Right doc ->
  In node (Parse.exchangeDocuments doc) ->
  Parse.exchangeDocumentFromNode node = Left err ->
  let after := Parse.fileWorker ctx path file s in
  (exists e, Parse.processSingleXML ctx file = Left e)
  /\ Parse.Rows (Parse.writer after) = Parse.Rows (Parse.writer s)
  /\ Parse.xmlFilesFailed after = Parse.xmlFilesFailed s + 1
  /\ Parse.xmlFilesSuccess after = Parse.xmlFilesSuccess s.
Proof.
  intros Hdoc Hin Hnode after.
  destruct (processSingleXML_rejects ctx file doc node err Hdoc Hin Hnode) as [e He].
  destruct (fileWorker_failed ctx path file s e He) as (Hw & Hf & Hs).
  split; [eauto|]. subst after. rewrite Hw. auto.
Qed.

Lemma rejected_document_witness :
  let file := Sample.fileOf [Sample.valid; Sample.noStatus] in
  let after := Parse.fileWorker background "a.xml" file Sample.freshSession in
  (exists e, Parse.processSingleXML background file = Left e)
  /\ Parse.Rows (Parse.writer after) = Parse.Rows (Parse.writer Sample.freshSession)
  /\ Parse.xmlFilesFailed after = Parse.xmlFilesFailed Sample.freshSession + 1
  /\ Parse.xmlFilesSuccess after = Parse.xmlFilesSuccess Sample.freshSession.
Proof.
  apply (rejected_document_writes_no_row background "a.xml"
           (Sample.fileOf [Sample.valid; Sample.noStatus]) Sample.freshSession
           (Xml.DocumentNode
              [Sample.elem "exchange-documents" [] [Sample.valid; Sample.noStatus]])
           Sample.noStatus "missing required attributes").
  - reflexivity.
  - vm_compute. right. left. reflexivity.
  - vm_compute. reflexivity.
Defined.

(** ** The retry policy of a download *)

Lemma backoff_delay (k : nat) :
  (k <= 10)%nat ->
  Z.max 0 (Int64.mul (Int64.mul 5 Download.Millisecond) (Retry.Pow2_int64 k)) = backoff k.
Proof.
  intros Hk.
  do 11 (destruct k as [|k]; [vm_compute; reflexivity|]). lia.
Qed.

Lemma policy_grants (cfg : Download.Server) (status : Retry.RetryStatus) :
  0 <= Download.MaxRetries cfg <= 10 ->
  Download.policy cfg status
  = if (Retry.IterNumber status <? Z.to_nat (Download.MaxRetries cfg))%nat
    then Some (backoff (Retry.IterNumber status)) else None.
Proof.
  intros Hr. unfold Download.policy, Retry.Concat, Retry.LimitRetries,
    Retry.ExponentialBackoff, uint_of_int.
  rewrite (Z.mod_small (Download.MaxRetries cfg)) by lia.
  destruct (Nat.ltb_spec (Retry.IterNumber status) (Z.to_nat (Download.MaxRetries cfg)))
    as [Hlt|Hge].
  - assert (E : (Z.of_nat (Retry.IterNumber status) <? Download.MaxRetries cfg) = true)
      by (apply Z.ltb_lt; lia).
    rewrite E. f_equal. apply backoff_delay. lia.
  - assert (E : (Z.of_nat (Retry.IterNumber status) <? Download.MaxRetries cfg) = false)
      by (apply Z.ltb_ge; lia).
    rewrite E. reflexivity.
Qed.

Lemma attempts_Attempt (k : nat) (events : list Retry.Event) :
  Retry.attempts (Retry.Attempt k :: events) = S (Retry.attempts events).
Proof. reflexivity. Qed.

Lemma attempts_nil : Retry.attempts [] = 0%nat.
Proof. reflexivity. Qed.

Lemma attempts_Sleep (d : Z) (events : list Retry.Event) :
  Retry.attempts (Retry.Sleep d :: events) = Retry.attempts events.
Proof. reflexivity. Qed.

Lemma Retrying_step {A} (fuel : nat) (policy : Retry.RetryPolicy)
    (action : Retry.RetryStatus -> Context -> Either A * Context)
    (check : Either A -> bool) (status : Retry.RetryStatus) (ctx : Context) :
  Retry.Retrying (S fuel) policy action check status ctx
  = let (a, ctx') := action status ctx in
    if check a then
      match policy status with
      | None => Some ([Retry.Attempt (Retry.IterNumber status)], a)
      | Some delay =>
          match Retry.Retrying fuel policy action check
                  (Retry.ApplyPolicy policy status) ctx' with
          | Some (events, r) =>
              Some (Retry.Attempt (Retry.IterNumber status)
                      :: Retry.Sleep delay :: events, r)
          | None => None
          end
      end
    else Some ([Retry.Attempt (Retry.IterNumber status)], a).
Proof. reflexivity. Qed.

Lemma schedule_more (start n : nat) :
  schedule start (S (S n))
  = Retry.Attempt start :: Retry.Sleep (backoff start) :: schedule (S start) (S n).
Proof. reflexivity. Qed.

Lemma check_Right (a : Either Z) : Download.check a = false -> ET.IsLeft a = false.
Proof. destruct a; simpl; congruence. Qed.

Section Retrying.

Variable cfg : Download.Server.
Variable http : nat -> Either Z.
Hypothesis valid_retries : 0 <= Download.MaxRetries cfg <= 10.

Let limit : nat := Z.to_nat (Download.MaxRetries cfg).

(** From try number [IterNumber status], with [m] retries left, [S m]
    units of fuel give a result; the run is a schedule of at most [S m]
    tries, and a failed run has made all of them. *)
Lemma Retrying_schedule (m : nat) (status : Retry.RetryStatus) (ctx : Context) :
  (Retry.IterNumber status + m = limit)%nat ->
  exists events result,
    Retry.Retrying (S m) (Download.policy cfg) (Download.action http) Download.check
      status ctx = Some (events, result)
    /\ (1 <= Retry.attempts events <= S m)%nat
    /\ events = schedule (Retry.IterNumber status) (Retry.attempts events)
    /\ (ET.IsLeft result = true -> Retry.attempts events = S m).
Proof.
  revert status ctx. induction m as [|m IH]; intros status ctx Hk;
    rewrite Retrying_step;
    destruct (Download.action http status ctx) as [a ctx'];
    (destruct (Download.check a) eqn:Ec;
     [ rewrite policy_grants by exact valid_retries; fold limit
     | do 2 eexists; (split; [reflexivity|]);
       rewrite attempts_Attempt, attempts_nil; simpl;
       (split; [lia|]); (split; [reflexivity|]);
       rewrite (check_Right a Ec); discriminate ]).
  - assert (E : (Retry.IterNumber status <? limit)%nat = false)
      by (apply Nat.ltb_ge; lia).
    rewrite E. do 2 eexists. split; [reflexivity|].
    rewrite attempts_Attempt, attempts_nil. simpl. auto.
  - assert (E : (Retry.IterNumber status <? limit)%nat = true)
      by (apply Nat.ltb_lt; lia).
    rewrite E.
    destruct (IH (Retry.ApplyPolicy (Download.policy cfg) status) ctx')
      as (events & result & Hrun & Hn & Hev & Hleft); [simpl; lia|].
    rewrite Hrun. do 2 eexists. split; [reflexivity|].
    rewrite attempts_Attempt, attempts_Sleep.
    split; [lia|]. split.
    + simpl in Hev. destruct (Retry.attempts events) as [|n] eqn:En; [lia|].
      rewrite schedule_more, <- Hev. reflexivity.
    + intros Hl. rewrite (Hleft Hl). reflexivity.
Qed.

(** Every try of a cancelled context gives the cancellation error, and
    is retried like any other error. *)
Lemma Retrying_cancelled (m : nat) (status : Retry.RetryStatus) :
  (Retry.IterNumber status + m = limit)%nat ->
  exists events,
    Retry.Retrying (S m) (Download.policy cfg) (Download.action http) Download.check
      status (Some 0%nat) = Some (events, Left Canceled).
Proof.
  revert status. induction m as [|m IH]; intros status Hk;
    rewrite Retrying_step;
    change (Download.action http status (Some 0%nat)) with (@Left Z Canceled, Some 0%nat);
    cbn [Download.check];
    rewrite policy_grants by exact valid_retries; fold limit.
  - assert (E : (Retry.IterNumber status <? limit)%nat = false)
      by (apply Nat.ltb_ge; lia).
    rewrite E. eauto.
  - assert (E : (Retry.IterNumber status <? limit)%nat = true)
      by (apply Nat.ltb_lt; lia).
    rewrite E.
    destruct (IH (Retry.ApplyPolicy (Download.policy cfg) status)) as [events ->];
      [simpl; lia|].
    eauto.
Qed.

End Retrying.

(** C4, as the code has it. Under a validated configuration (at most 10
    retries), and for a file whose checksum has the 12 characters that
    the span attributes take from it, a download gives its result after
    at most maxRetries + 1 tries: the first one and up to maxRetries
    retries, retry number k (from 0) coming after a delay of 5 ms
    doubled k times. A download whose context is cancelled when it starts
    makes no try and gives the cancellation error. Once started, every
    error is retried, the cancellation error like the others: a download
    that ends in an error has made all its maxRetries + 1 tries, and one
    cancelled right after its start makes them all and ends in the
    cancellation error. *)
Theorem download_retry_budget (cfg : Download.Server) (skipExists existingValid : bool)
    (http : nat -> Either Z) (f : Download.DownloadFile) (ctx : Context) :
  0 <= Download.MaxRetries cfg <= 10 ->
  (12 <= String.length (Download.checksum f))%nat ->
  let limit := Z.to_nat (Download.MaxRetries cfg) in
  exists events result,
    Download.downloadFile (S limit) cfg skipExists existingValid http f ctx
      = Some (Download.Returns (events, result))
    /\ (Retry.attempts events <= S limit)%nat
    /\ events = schedule 0 (Retry.attempts events)
    /\ ((poll ctx).1 = true -> events = [] /\ result = Left Canceled)
    /\ ((poll ctx).1 = false -> skipExists && existingValid = false ->
        ET.IsLeft result = true -> Retry.attempts events = S limit)
    /\ (ctx = Some 1%nat -> skipExists && existingValid = false ->
        result = Left Canceled /\ Retry.attempts events = S limit).
Proof.
  intros Hvalid Hsum limit. unfold Download.downloadFile.
  assert (E : (String.length (Download.checksum f) <? 12)%nat = false)
    by (apply Nat.ltb_ge; exact Hsum).
  rewrite E.
  destruct (poll ctx) as [done ctx'] eqn:Epoll. destruct done.
  - do 2 eexists. split; [reflexivity|]. rewrite attempts_nil. simpl.
    split; [lia|]. split; [reflexivity|]. split; [auto|].
    split; [discriminate|]. intros ->. discriminate.
  - destruct (skipExists && existingValid) eqn:Eskip.
    + do 2 eexists. split; [reflexivity|]. rewrite attempts_nil. simpl.
      split; [lia|]. split; [reflexivity|]. split; [discriminate|].
      split; discriminate.
    + destruct (Retrying_schedule cfg http Hvalid limit Retry.DefaultRetryStatus ctx')
        as (events & result & Hrun & Hn & Hev & Hleft); [reflexivity|].
      exists events, result. rewrite Hrun. split; [reflexivity|].
      split; [lia|]. split; [exact Hev|]. split; [discriminate|].
      split; [auto|]. intros -> _. simpl in Epoll. injection Epoll as <-.
      destruct (Retrying_cancelled cfg http Hvalid limit Retry.DefaultRetryStatus)
        as [events' Hrun']; [reflexivity|].
      rewrite Hrun in Hrun'. injection Hrun' as <- ->.
      split; [reflexivity|]. apply Hleft. reflexivity.
Qed.

Lemma download_retry_budget_witness :
  0 <= Download.MaxRetries Sample.server <= 10
  /\ (12 <= String.length (Download.checksum Sample.item))%nat
  /\ exists events result,
      Download.downloadFile 4 Sample.server false false Sample.alwaysFails
        Sample.item (Some 2%nat) = Some (Download.Returns (events, result))
      /\ (Retry.attempts events <= 4)%nat
      /\ events = schedule 0 (Retry.attempts events)
      /\ ((poll (Some 2%nat)).1 = true -> events = [] /\ result = Left Canceled)
      /\ ((poll (Some 2%nat)).1 = false -> false && false = false ->
          ET.IsLeft result = true -> Retry.attempts events = 4%nat)
      /\ (Some 2%nat = Some 1%nat -> false && false = false ->
          result = Left Canceled /\ Retry.attempts events = 4%nat).
Proof.
  split; [cbn; lia|]. split; [cbn; lia|].
  apply (download_retry_budget Sample.server false false Sample.alwaysFails
           Sample.item (Some 2%nat)).
  - cbn. lia.
  - cbn. lia.
Defined.

(** C4, as stated, fails. With 3 retries configured, a download whose
    first request fails and whose context is cancelled before the second
    try does not return at once: the second try gives the cancellation
    error, and two more tries follow, each after its backoff delay. The
    tries are 4, not min(3, 10). *)
Lemma cancelled_download_still_retries :
  Download.MaxRetries Sample.server = 3
  /\ Download.downloadFile 4 Sample.server false false Sample.alwaysFails
       Sample.item (Some 2%nat)
     = Some (Download.Returns
               ([Retry.Attempt 0; Retry.Sleep 5000000;
                 Retry.Attempt 1; Retry.Sleep 10000000;
                 Retry.Attempt 2; Retry.Sleep 20000000;
                 Retry.Attempt 3], Left Canceled))
  /\ Download.action Sample.alwaysFails
       {| Retry.IterNumber := 1; Retry.CumulativeDelay := 5000000;
          Retry.PreviousDelay := Some 5000000 |} (Some 0%nat)
     = (Left Canceled, Some 0%nat).
Proof. split; [|split]; vm_compute; reflexivity. Qed.

(** ** Paths *)

Lemma cleanStep_grows (stack : list string) (elem : string) :
  elem <> ".." ->
  exists more, Path.cleanStep true stack elem = (more ++ stack)%list.
Proof.
  intros Hne. unfold Path.cleanStep.
  destruct (decide (elem = "" \/ elem = ".")); [exists []; reflexivity|].
  destruct (decide (elem = "..")); [contradiction|].
  exists [elem]. reflexivity.
Qed.

Lemma clean_fold_grows (elems stack : list string) :
  ~ In ".." elems ->
  exists more, List.fold_left (Path.cleanStep true) elems stack = (more ++ stack)%list.
Proof.
  revert stack. induction elems as [|e elems IH]; intros stack Hno; simpl.
  - exists []. reflexivity.
  - destruct (cleanStep_grows stack e) as [m1 ->].
    { intros ->. apply Hno. left. reflexivity. }
    destruct (IH (m1 ++ stack)%list) as [m2 ->].
    { intros Hin. apply Hno. right. exact Hin. }
    exists (m2 ++ m1)%list. rewrite app_assoc. reflexivity.
Qed.

Lemma clean_fold_clean (dir stack : list string) :
  Path.isClean dir ->
  List.fold_left (Path.cleanStep true) dir stack = (List.rev dir ++ stack)%list.
Proof.
  revert stack. induction dir as [|e dir IH]; intros stack Hclean; simpl; [reflexivity|].
  apply Forall_cons in Hclean as [(H1 & H2 & H3) Hclean].
  unfold Path.cleanStep at 2.
  destruct (decide (e = "" \/ e = ".")) as [[?|?]|_]; [contradiction..|].
  destruct (decide (e = "..")); [contradiction|].
  rewrite IH by exact Hclean. rewrite <- app_assoc. reflexivity.
Qed.

(** A name without dot-dot elements, joined to a clean directory, stays
    below that directory. *)
Lemma Join_stays_below (dir : list string) (name : string) :
  Path.isClean dir ->
  ~ In ".." (Path.split name) ->
  dir `prefix_of` Path.Join dir name.
Proof.
  intros Hclean Hno. unfold Path.Join, Path.Clean.
  rewrite fold_left_app. rewrite (clean_fold_clean dir) by exact Hclean.
  destruct (clean_fold_grows (Path.split name) (List.rev dir ++ [])%list Hno) as [more ->].
  rewrite app_nil_r, rev_app_distr, rev_involutive.
  exists (List.rev more). reflexivity.
Qed.

(** ** Extraction of one archive *)

Lemma mkdirAllFrom_keeps (rest base : list string)
    (fs fs' : gmap (list string) Extract.Inode) (p : list string) (node : Extract.Inode) :
  Extract.mkdirAllFrom base rest fs = Right fs' ->
  fs !! p = Some node -> fs' !! p = Some node.
Proof.
  revert base fs. induction rest as [|e rest IH]; intros base fs Hmk Hp; simpl in Hmk.
  - injection Hmk as <-. exact Hp.
  - destruct (fs !! (base ++ [e])%list) as [[|c']|] eqn:E; [|discriminate|].
    + eapply IH; eassumption.
    + eapply IH; [exact Hmk|].
      rewrite lookup_insert_ne; [exact Hp|]. intros <-. congruence.
Qed.

Lemma mkdirAllFrom_keeps_files (rest base : list string)
    (fs fs' : gmap (list string) Extract.Inode) (p : list string) (c : Extract.Content) :
  Extract.mkdirAllFrom base rest fs = Right fs' ->
  fs' !! p = Some (Extract.IFile c) ->
  fs !! p = Some (Extract.IFile c).
Proof.
  revert base fs. induction rest as [|e rest IH]; intros base fs Hmk Hp; simpl in Hmk.
  - injection Hmk as <-. exact Hp.
  - destruct (fs !! (base ++ [e])%list) as [[|c']|] eqn:E; [|discriminate|].
    + eapply IH; eassumption.
    + specialize (IH _ _ Hmk Hp).
      destruct (decide ((base ++ [e])%list = p)) as [<-|Hne].
      * rewrite lookup_insert_eq in IH. discriminate.
      * rewrite lookup_insert_ne in IH by exact Hne. exact IH.
Qed.

Lemma Create_inserts (p : list string)
    (fs fs' : gmap (list string) Extract.Inode) :
  Extract.Create p fs = Right fs' ->
  fs' = <[p := Extract.IFile (Extract.Data "")]> fs.
Proof.
  unfold Extract.Create. intros H.
  destruct (Extract.stat fs p) as [[|?]|];
    destruct (Extract.stat fs (Path.Dir p)) as [[|?]|]; congruence.
Qed.

(** What one turn of the loop does to the disk: it makes directories,
    and then at most writes one file, at the joined path of a file
    entry, with no more archives in it than the entry holds. *)
Lemma extractEntry_disk (zipPath destDir : list string) (f : Extract.Entry)
    (fs fs' : gmap (list string) Extract.Inode) (r : option string) :
  Extract.extractEntry zipPath destDir f fs = (fs', r) ->
  exists fs1 : gmap (list string) Extract.Inode,
    (fs1 = fs \/ exists q, Extract.MkdirAll q fs = Right fs1)
    /\ (fs' = fs1
        \/ exists c, isFileEntry f = true
                     /\ (Extract.weight c <= Extract.entryWeight f)%nat
                     /\ fs' = <[Path.Join destDir (Extract.Name f) := Extract.IFile c]> fs1).
Proof.
  unfold Extract.extractEntry. intros H.
  destruct f as [n|n body|n|n|n body]; cbn [Extract.Name] in H.
  1: { destruct (Extract.MkdirAll (Path.Join destDir n) fs) as [e|fs1] eqn:Emk;
         injection H as <- _; [exists fs; auto|exists fs1; eauto]. }
  all: destruct (Extract.MkdirAll (Path.Dir (Path.Join destDir n)) fs) as [e|fs1] eqn:Emk;
    [injection H as <- _; exists fs; auto|];
    exists fs1; (split; [eauto|]);
    unfold Extract.Open in H;
    destruct (fs1 !! zipPath) as [[|[bytes|files]]|];
    try (injection H as <- _; left; reflexivity);
    destruct (Extract.Create (Path.Join destDir n) fs1) as [e|fs2] eqn:Ecr;
    try (injection H as <- _; left; reflexivity);
    apply Create_inserts in Ecr as ->;
    unfold Extract.Copy in H;
    destruct (decide (Path.Join destDir n = zipPath)) as [E|E];
    injection H as <- _; right;
    rewrite ?insert_insert_eq; eexists; (split; [reflexivity|]);
    (split; [|reflexivity]); simpl; lia.
Qed.

Lemma MkdirAll_keeps (q : list string) (fs fs' : gmap (list string) Extract.Inode)
    (p : list string) (node : Extract.Inode) :
  Extract.MkdirAll q fs = Right fs' -> fs !! p = Some node -> fs' !! p = Some node.
Proof. apply mkdirAllFrom_keeps. Qed.

Lemma MkdirAll_keeps_files (q : list string) (fs fs' : gmap (list string) Extract.Inode)
    (p : list string) (c : Extract.Content) :
  Extract.MkdirAll q fs = Right fs' ->
  fs' !! p = Some (Extract.IFile c) -> fs !! p = Some (Extract.IFile c).
Proof. apply mkdirAllFrom_keeps_files. Qed.

(** A turn of the loop writes a file nowhere but at the joined path of
    its entry. *)
Lemma extractEntry_writes (zipPath destDir : list string) (f : Extract.Entry)
    (fs fs' : gmap (list string) Extract.Inode) (r : option string)
    (p : list string) (c : Extract.Content) :
  Extract.extractEntry zipPath destDir f fs = (fs', r) ->
  fs' !! p = Some (Extract.IFile c) ->
  fs !! p = Some (Extract.IFile c)
  \/ (isFileEntry f = true /\ p = Path.Join destDir (Extract.Name f)).
Proof.
  intros H Hp. destruct (extractEntry_disk _ _ _ _ _ _ H) as (fs1 & Hmk & Hw).
  assert (Hback : fs1 !! p = Some (Extract.IFile c) -> fs !! p = Some (Extract.IFile c)).
  { destruct Hmk as [->|[q Hq]]; [auto|]. apply (MkdirAll_keeps_files q). exact Hq. }
  destruct Hw as [->|(c' & Hf & _ & ->)]; [left; auto|].
  destruct (decide (Path.Join destDir (Extract.Name f) = p)) as [E|E]; [right; auto|].
  rewrite lookup_insert_ne in Hp by exact E. left. auto.
Qed.

Lemma extractEntries_writes (zipPath destDir : list string) (files : list Extract.Entry)
    (fs fs' : gmap (list string) Extract.Inode) (r : option string)
    (p : list string) (c : Extract.Content) :
  Extract.extractEntries zipPath destDir files fs = (fs', r) ->
  fs' !! p = Some (Extract.IFile c) ->
  fs !! p = Some (Extract.IFile c)
  \/ exists f, In f files /\ isFileEntry f = true
               /\ p = Path.Join destDir (Extract.Name f).
Proof.
  revert fs. induction files as [|f files IH]; intros fs Hex Hp;
    cbn [Extract.extractEntries] in Hex.
  - injection Hex as <- _. left. exact Hp.
  - destruct (Extract.extractEntry zipPath destDir f fs) as [fs1 r1] eqn:E1.
    assert (Hhere : fs1 !! p = Some (Extract.IFile c) ->
              fs !! p = Some (Extract.IFile c)
              \/ exists f', In f' (f :: files) /\ isFileEntry f' = true
                            /\ p = Path.Join destDir (Extract.Name f')).
    { intros H1. destruct (extractEntry_writes _ _ _ _ _ _ _ _ E1 H1) as [H|[Hf Hj]];
        [left; exact H|]. right. exists f. split; [left; reflexivity|auto]. }
    destruct r1 as [err|]; [injection Hex as <- _; auto|].
    destruct (IH fs1 Hex Hp) as [H|(f' & Hin & Hf & Hj)]; [auto|].
    right. exists f'. split; [right; exact Hin|auto].
Qed.

(** A turn of the loop leaves alone what is not at the joined path of
    its entry, and leaves every file a file. *)
Lemma extractEntry_keeps_other (zipPath destDir : list string) (f : Extract.Entry)
    (fs fs' : gmap (list string) Extract.Inode) (r : option string)
    (p : list string) (node : Extract.Inode) :
  Extract.extractEntry zipPath destDir f fs = (fs', r) ->
  Path.Join destDir (Extract.Name f) <> p ->
  fs !! p = Some node -> fs' !! p = Some node.
Proof.
  intros H Hne Hp. destruct (extractEntry_disk _ _ _ _ _ _ H) as (fs1 & Hmk & Hw).
  assert (H1 : fs1 !! p = Some node).
  { destruct Hmk as [->|[q Hq]]; [exact Hp|]. apply (MkdirAll_keeps q fs); assumption. }
  destruct Hw as [->|(c' & _ & _ & ->)]; [exact H1|].
  rewrite lookup_insert_ne by exact Hne. exact H1.
Qed.

Lemma extractEntry_keeps_files (zipPath destDir : list string) (f : Extract.Entry)
    (fs fs' : gmap (list string) Extract.Inode) (r : option string) (p : list string) :
  Extract.extractEntry zipPath destDir f fs = (fs', r) ->
  isFileAt fs p -> isFileAt fs' p.
Proof.
  intros H [c Hp]. destruct (extractEntry_disk _ _ _ _ _ _ H) as (fs1 & Hmk & Hw).
  assert (H1 : fs1 !! p = Some (Extract.IFile c)).
  { destruct Hmk as [->|[q Hq]]; [exact Hp|]. apply (MkdirAll_keeps q fs); assumption. }
  destruct Hw as [->|(c' & _ & _ & ->)]; [exists c; exact H1|].
  destruct (decide (Path.Join destDir (Extract.Name f) = p)) as [<-|Hne].
  - exists c'. apply lookup_insert_eq.
  - exists c. rewrite lookup_insert_ne by exact Hne. exact H1.
Qed.

Lemma extractEntries_keeps_other (zipPath destDir : list string)
    (files : list Extract.Entry)
    (fs fs' : gmap (list string) Extract.Inode) (r : option string)
    (p : list string) (node : Extract.Inode) :
  Extract.extractEntries zipPath destDir files fs = (fs', r) ->
  (forall f, In f files -> Path.Join destDir (Extract.Name f) <> p) ->
  fs !! p = Some node -> fs' !! p = Some node.
Proof.
  revert fs. induction files as [|f files IH]; intros fs Hex Hother Hp;
    cbn [Extract.extractEntries] in Hex.
  - injection Hex as <- _. exact Hp.
  - destruct (Extract.extractEntry zipPath destDir f fs) as [fs1 r1] eqn:E1.
    assert (H1 : fs1 !! p = Some node).
    { eapply extractEntry_keeps_other; [exact E1| |exact Hp].
      apply Hother. left. reflexivity. }
    destruct r1 as [err|]; [injection Hex as <- _; exact H1|].
    eapply IH; [exact Hex| |exact H1].
    intros f' Hin. apply Hother. right. exact Hin.
Qed.

Lemma extractEntries_keeps_files (zipPath destDir : list string)
    (files : list Extract.Entry)
    (fs fs' : gmap (list string) Extract.Inode) (r : option string) (p : list string) :
  Extract.extractEntries zipPath destDir files fs = (fs', r) ->
  isFileAt fs p -> isFileAt fs' p.
Proof.
  revert fs. induction files as [|f files IH]; intros fs Hex Hp;
    cbn [Extract.extractEntries] in Hex.
  - injection Hex as <- _. exact Hp.
  - destruct (Extract.extractEntry zipPath destDir f fs) as [fs1 r1] eqn:E1.
    pose proof (extractEntry_keeps_files _ _ _ _ _ _ _ E1 Hp) as H1.
    destruct r1 as [err|]; [injection Hex as <- _; exact H1|].
    eapply IH; eassumption.
Qed.

Lemma extractEntries_app (zipPath destDir : list string)
    (before after : list Extract.Entry) (fs : gmap (list string) Extract.Inode) :
  Extract.extractEntries zipPath destDir (before ++ after)%list fs
  = match Extract.extractEntries zipPath destDir before fs with
    | (fs1, Some err) => (fs1, Some err)
    | (fs1, None) => Extract.extractEntries zipPath destDir after fs1
    end.
Proof.
  revert fs. induction before as [|f before IH]; intros fs; [reflexivity|].
  change ((f :: before) ++ after)%list with (f :: (before ++ after))%list.
  cbn [Extract.extractEntries].
  destruct (Extract.extractEntry zipPath destDir f fs) as [fs1 [err|]]; [reflexivity|].
  apply IH.
Qed.

(** A file entry that a turn of the loop lets through is on the disk,
    whole, at its joined path. *)
Lemma extractEntry_puts (zipPath destDir : list string) (f : Extract.Entry)
    (body : Extract.Content) (fs fs' : gmap (list string) Extract.Inode) :
  bodyOf f = Some body ->
  Extract.extractEntry zipPath destDir f fs = (fs', None) ->
  fs' !! Path.Join destDir (Extract.Name f) = Some (Extract.IFile body).
Proof.
  intros Hbody. unfold Extract.extractEntry.
  destruct f as [n|n b|n|n|n b]; try discriminate;
    injection Hbody as <-; cbn [Extract.Name]; intros H;
    (destruct (Extract.MkdirAll (Path.Dir (Path.Join destDir n)) fs) as [e|fs1];
     [discriminate|]);
    unfold Extract.Open in H;
    (destruct (fs1 !! zipPath) as [[|[bytes|files]]|]; try discriminate);
    unfold Extract.Create in H;
    (destruct (Extract.stat fs1 (Path.Join destDir n)) as [[|c]|]; try discriminate);
    (destruct (Extract.stat fs1 (Path.Dir (Path.Join destDir n))) as [[|c']|];
     try discriminate);
    unfold Extract.Copy in H;
    (destruct (decide (Path.Join destDir n = zipPath)); try discriminate);
    injection H as <-; apply lookup_insert_eq.
Qed.

Lemma extractEntries_puts (zipPath destDir : list string)
    (before after : list Extract.Entry)
    (f : Extract.Entry) (body : Extract.Content)
    (fs fs' : gmap (list string) Extract.Inode) :
  bodyOf f = Some body ->
  Extract.extractEntries zipPath destDir (before ++ f :: after)%list fs = (fs', None) ->
  (forall g, In g after ->
     Path.Join destDir (Extract.Name g) <> Path.Join destDir (Extract.Name f)) ->
  fs' !! Path.Join destDir (Extract.Name f) = Some (Extract.IFile body).
Proof.
  intros Hbody Hex Hlater. rewrite extractEntries_app in Hex.
  destruct (Extract.extractEntries zipPath destDir before fs) as [fs0 [err|]];
    [discriminate|].
  cbn [Extract.extractEntries] in Hex.
  destruct (Extract.extractEntry zipPath destDir f fs0)
    as [fs1 [err|]] eqn:E1; [discriminate|].
  eapply extractEntries_keeps_other; [exact Hex|exact Hlater|].
  eapply extractEntry_puts; [exact Hbody|exact E1].
Qed.

(** *** What [os.MkdirAll] asks *)

Lemma mkdirAllFrom_through_file (more base : list string) (e : string)
    (rest : list string) (c : Extract.Content) (fs : gmap (list string) Extract.Inode) :
  fs !! (base ++ e :: more)%list = Some (Extract.IFile c) ->
  Extract.mkdirAllFrom base (e :: more ++ rest)%list fs = Left "not a directory".
Proof.
  revert base e fs. induction more as [|e' more IH]; intros base e fs Hfile.
  - cbn [app Extract.mkdirAllFrom]. rewrite Hfile. reflexivity.
  - cbn [app Extract.mkdirAllFrom].
    assert (Hnext : forall fs1 : gmap (list string) Extract.Inode,
              fs1 !! ((base ++ [e]) ++ e' :: more)%list = Some (Extract.IFile c) ->
              Extract.mkdirAllFrom (base ++ [e]) (e' :: more ++ rest)%list fs1
              = Left "not a directory")
      by (intros fs1 H1; apply IH; exact H1).
    assert (Hsame : ((base ++ [e]) ++ e' :: more)%list = (base ++ e :: e' :: more)%list)
      by (rewrite <- app_assoc; reflexivity).
    destruct (fs !! (base ++ [e])%list) as [[|c']|] eqn:E; [|reflexivity|].
    + apply Hnext. rewrite Hsame. exact Hfile.
    + apply Hnext. rewrite lookup_insert_ne; [rewrite Hsame; exact Hfile|].
      intros Heq. rewrite Hsame in Heq. apply (f_equal (@length string)) in Heq.
      rewrite !length_app in Heq. simpl in Heq. lia.
Qed.

Lemma MkdirAll_through_file (z rest : list string) (c : Extract.Content)
    (fs : gmap (list string) Extract.Inode) :
  z <> [] ->
  fs !! z = Some (Extract.IFile c) ->
  Extract.MkdirAll (z ++ rest)%list fs = Left "not a directory".
Proof.
  intros Hne Hfile. unfold Extract.MkdirAll. destruct z as [|e more]; [contradiction|].
  apply (mkdirAllFrom_through_file more [] e rest c fs). exact Hfile.
Qed.

Lemma mkdirAllFrom_Right (rest base : list string)
    (fs : gmap (list string) Extract.Inode) :
  (forall more, more <> [] -> more `prefix_of` rest ->
     ~ isFileAt fs (base ++ more)%list) ->
  exists fs', Extract.mkdirAllFrom base rest fs = Right fs'.
Proof.
  revert base fs. induction rest as [|e rest IH]; intros base fs Hno;
    cbn [Extract.mkdirAllFrom]; [eauto|].
  assert (Hnext : forall fs1 : gmap (list string) Extract.Inode,
            (forall p, isFileAt fs1 p -> isFileAt fs p) ->
            exists fs', Extract.mkdirAllFrom (base ++ [e]) rest fs1 = Right fs').
  { intros fs1 Hsub. apply IH. intros more Hne Hpre Hfile.
    apply (Hno (e :: more)); [discriminate|apply prefix_cons; exact Hpre|].
    apply Hsub. rewrite <- app_assoc in Hfile. exact Hfile. }
  destruct (fs !! (base ++ [e])%list) as [[|c]|] eqn:E.
  - apply Hnext. auto.
  - exfalso. apply (Hno [e]); [discriminate|apply prefix_cons, prefix_nil|].
    exists c. exact E.
  - apply Hnext. intros p [c Hc].
    destruct (decide ((base ++ [e])%list = p)) as [<-|Hne].
    + rewrite lookup_insert_eq in Hc. discriminate.
    + rewrite lookup_insert_ne in Hc by exact Hne. exists c. exact Hc.
Qed.

(** [os.MkdirAll] succeeds exactly when no regular file is in the way. *)
Lemma MkdirAll_iff (p : list string) (fs : gmap (list string) Extract.Inode) :
  (exists fs', Extract.MkdirAll p fs = Right fs') <-> ~ fileOnTheWay fs p.
Proof.
  split.
  - intros [fs' Hmk] (q & Hne & [rest ->] & [c Hc]).
    rewrite (MkdirAll_through_file q rest c fs Hne Hc) in Hmk. discriminate.
  - intros Hno. apply mkdirAllFrom_Right. intros more Hne Hpre Hfile.
    apply Hno. exists more. auto.
Qed.

Lemma mkdirAllFrom_adds (rest base : list string)
    (fs fs' : gmap (list string) Extract.Inode) (p : list string) (node : Extract.Inode) :
  Extract.mkdirAllFrom base rest fs = Right fs' ->
  fs' !! p = Some node ->
  fs !! p = Some node
  \/ (node = Extract.IDir /\ p `prefix_of` (base ++ rest)%list
      /\ (length base < length p)%nat).
Proof.
  revert base fs. induction rest as [|e rest IH]; intros base fs Hmk Hp;
    cbn [Extract.mkdirAllFrom] in Hmk.
  - injection Hmk as <-. left. exact Hp.
  - assert (Hup : forall fs1 : gmap (list string) Extract.Inode,
              Extract.mkdirAllFrom (base ++ [e]) rest fs1 = Right fs' ->
              fs1 !! p = Some node
              \/ (node = Extract.IDir /\ p `prefix_of` (base ++ e :: rest)%list
                  /\ (length base < length p)%nat)).
    { intros fs1 H1. destruct (IH _ _ H1 Hp) as [H|(Hn & Hpre & Hlen)]; [left; exact H|].
      right. rewrite <- app_assoc in Hpre. rewrite length_app in Hlen. simpl in Hlen.
      split; [exact Hn|]. split; [exact Hpre|lia]. }
    destruct (fs !! (base ++ [e])%list) as [[|c]|] eqn:E; [|discriminate|].
    + apply Hup. exact Hmk.
    + destruct (Hup _ Hmk) as [H|H]; [|right; exact H].
      destruct (decide ((base ++ [e])%list = p)) as [<-|Hne].
      * rewrite lookup_insert_eq in H. injection H as <-. right.
        split; [reflexivity|]. split.
        -- exists rest. rewrite <- app_assoc. reflexivity.
        -- rewrite length_app. simpl. lia.
      * rewrite lookup_insert_ne in H by exact Hne. left. exact H.
Qed.

Lemma mkdirAllFrom_makes (rest base : list string)
    (fs fs' : gmap (list string) Extract.Inode) :
  Extract.mkdirAllFrom base rest fs = Right fs' ->
  Extract.stat fs base = Some Extract.IDir ->
  Extract.stat fs' (base ++ rest)%list = Some Extract.IDir.
Proof.
  revert base fs. induction rest as [|e rest IH]; intros base fs Hmk Hbase;
    cbn [Extract.mkdirAllFrom] in Hmk.
  - injection Hmk as <-. rewrite app_nil_r. exact Hbase.
  - assert (Hcons : (base ++ e :: rest)%list = ((base ++ [e]) ++ rest)%list)
      by (rewrite <- app_assoc; reflexivity).
    assert (Hstat : forall fs1 : gmap (list string) Extract.Inode,
              Extract.stat fs1 (base ++ [e])%list = fs1 !! (base ++ [e])%list).
    { intros fs1. unfold Extract.stat. destruct (base ++ [e])%list eqn:Eb; [|reflexivity].
      destruct base; discriminate. }
    rewrite Hcons.
    destruct (fs !! (base ++ [e])%list) as [[|c]|] eqn:E; [|discriminate|].
    + eapply IH; [exact Hmk|]. rewrite Hstat. exact E.
    + eapply IH; [exact Hmk|]. rewrite Hstat. apply lookup_insert_eq.
Qed.

Lemma MkdirAll_makes (p : list string) (fs fs' : gmap (list string) Extract.Inode) :
  Extract.MkdirAll p fs = Right fs' -> Extract.stat fs' p = Some Extract.IDir.
Proof. intros H. apply (mkdirAllFrom_makes p [] fs fs' H). reflexivity. Qed.

Lemma Dir_shorter (p : list string) : p <> [] -> ~ p `prefix_of` Path.Dir p.
Proof.
  intros Hne [k Hk]. apply (f_equal (@length string)) in Hk.
  unfold Path.Dir in Hk. rewrite length_app in Hk.
  destruct (exists_last Hne) as (p' & e & ->).
  rewrite removelast_last, length_app in Hk. simpl in Hk. lia.
Qed.

(** Making the directory of [p] does not change what is at [p]. *)
Lemma MkdirAll_Dir_stat (p : list string) (fs fs1 : gmap (list string) Extract.Inode) :
  Extract.MkdirAll (Path.Dir p) fs = Right fs1 ->
  Extract.stat fs1 p = Extract.stat fs p.
Proof.
  intros Hmk. destruct p as [|e p]; [reflexivity|]. cbn [Extract.stat].
  destruct (fs !! (e :: p)) as [node|] eqn:E.
  - apply (MkdirAll_keeps _ _ _ _ _ Hmk E).
  - destruct (fs1 !! (e :: p)) as [node|] eqn:E1; [|reflexivity].
    destruct (mkdirAllFrom_adds _ _ _ _ _ _ Hmk E1) as [H|(_ & Hpre & _)];
      [congruence|].
    exfalso. apply (Dir_shorter (e :: p)); [discriminate|exact Hpre].
Qed.

(** *** What lets an entry through *)

Lemma extractEntry_through (zipPath destDir : list string) (f : Extract.Entry)
    (fs : gmap (list string) Extract.Inode) :
  (Extract.extractEntry zipPath destDir f fs).2 = None
  <-> fileSystemTakes zipPath (Path.Join destDir (Extract.Name f)) f fs.
Proof.
  unfold Extract.extractEntry.
  set (p := Path.Join destDir (Extract.Name f)).
  destruct f as [n|n body|n|n|n body]; cbn [fileSystemTakes].
  - rewrite <- MkdirAll_iff.
    destruct (Extract.MkdirAll p fs) as [e|fs1]; cbn [snd]; split;
      [discriminate|intros [fs' H]; discriminate|eauto|reflexivity].
  - rewrite <- MkdirAll_iff.
    destruct (Extract.MkdirAll (Path.Dir p) fs) as [e|fs1] eqn:Emk; cbn [snd].
    { split; [discriminate|]. intros ([fs' H] & _). discriminate. }
    rewrite <- (MkdirAll_Dir_stat p fs fs1 Emk).
    assert (Hdir : Extract.stat fs1 (Path.Dir p) = Some Extract.IDir)
      by (apply MkdirAll_makes in Emk; exact Emk).
    assert (Hzip : forall files,
              fs1 !! zipPath = Some (Extract.IFile (Extract.Zip files))
              <-> fs !! zipPath = Some (Extract.IFile (Extract.Zip files))).
    { intros files. split; [apply (MkdirAll_keeps_files _ _ _ _ _ Emk)
                           |apply (MkdirAll_keeps _ _ _ _ _ Emk)]. }
    unfold Extract.Open, Extract.Create, Extract.Copy. rewrite Hdir.
    destruct (fs1 !! zipPath) as [[|[bytes|files]]|] eqn:Ez; cbn [snd];
      try (split; [discriminate|];
           intros (_ & _ & [files' Hf] & _); apply Hzip in Hf; congruence).
    destruct (Extract.stat fs1 p) as [[|c]|] eqn:Ep; cbn [snd];
      try (split; [discriminate|]; intros (_ & Hnd & _); congruence);
      (destruct (decide (p = zipPath)) as [E|E]; cbn [snd];
       [ split; [discriminate|]; intros (_ & _ & _ & Hb);
         destruct (Hb E) as [n' Hn']; discriminate
       | split; [intros _|reflexivity];
         split; [eauto|]; split; [discriminate|];
         split; [exists files; apply Hzip; reflexivity|intros; contradiction] ]).
  - rewrite <- MkdirAll_iff.
    destruct (Extract.MkdirAll (Path.Dir p) fs) as [e|fs1] eqn:Emk; cbn [snd].
    { split; [discriminate|]. intros ([fs' H] & _). discriminate. }
    rewrite <- (MkdirAll_Dir_stat p fs fs1 Emk).
    assert (Hdir : Extract.stat fs1 (Path.Dir p) = Some Extract.IDir)
      by (apply MkdirAll_makes in Emk; exact Emk).
    assert (Hzip : forall files,
              fs1 !! zipPath = Some (Extract.IFile (Extract.Zip files))
              <-> fs !! zipPath = Some (Extract.IFile (Extract.Zip files))).
    { intros files. split; [apply (MkdirAll_keeps_files _ _ _ _ _ Emk)
                           |apply (MkdirAll_keeps _ _ _ _ _ Emk)]. }
    unfold Extract.Open, Extract.Create, Extract.Copy. rewrite Hdir.
    destruct (fs1 !! zipPath) as [[|[bytes|files]]|] eqn:Ez; cbn [snd];
      try (split; [discriminate|];
           intros (_ & _ & [files' Hf] & _); apply Hzip in Hf; congruence).
    destruct (Extract.stat fs1 p) as [[|c]|] eqn:Ep; cbn [snd];
      try (split; [discriminate|]; intros (_ & Hnd & _); congruence);
      (destruct (decide (p = zipPath)) as [E|E]; cbn [snd];
       (split; [intros _|reflexivity];
        split; [eauto|]; split; [discriminate|];
        split; [exists files; apply Hzip; reflexivity|intros; eauto])).
  - destruct (Extract.MkdirAll (Path.Dir p) fs) as [e|fs1]; cbn [snd];
      [split; [discriminate|contradiction]|].
    unfold Extract.Open. destruct (fs1 !! zipPath) as [[|[bytes|files]]|]; cbn [snd];
      split; try discriminate; contradiction.
  - destruct (Extract.MkdirAll (Path.Dir p) fs) as [e|fs1]; cbn [snd];
      [split; [discriminate|contradiction]|].
    unfold Extract.Open, Extract.Copy.
    destruct (fs1 !! zipPath) as [[|[bytes|files]]|]; cbn [snd];
      try (split; [discriminate|contradiction]).
    destruct (Extract.Create p fs1) as [e|fs2]; cbn [snd];
      [split; [discriminate|contradiction]|].
    destruct (decide (p = zipPath)); cbn [snd]; split; try discriminate; contradiction.
Qed.

(** C3, as the code has it. [extractZipToDir] does not ask where an
    entry lands. Each entry is handled, at its turn, at the cleaned
    join of [destDir] and its name, whatever that path is, and it is
    let through exactly when the file system has nothing against it; a
    file entry that is let through is then on the disk at that path.
    After an extraction without error every file entry is at its joined
    path, whole, unless a later entry has the same path. A file is
    written or changed nowhere but at the joined path of a file entry.
    An entry whose name has no dot-dot element lands below a clean
    [destDir]. *)
Theorem extracted_files_at_joined_paths (zipPath destDir : list string)
    (files : list Extract.Entry)
    (fs fs' : gmap (list string) Extract.Inode) (r : option string) :
  Path.isClean destDir ->
  fs !! zipPath = Some (Extract.IFile (Extract.Zip files)) ->
  Extract.extractZipToDir zipPath destDir fs = (fs', r) ->
  (forall before f after (fs0 : gmap (list string) Extract.Inode),
      files = (before ++ f :: after)%list ->
      Extract.extractEntries zipPath destDir before fs = (fs0, None) ->
      ((Extract.extractEntry zipPath destDir f fs0).2 = None
       <-> fileSystemTakes zipPath (Path.Join destDir (Extract.Name f)) f fs0)
      /\ (forall body,
            bodyOf f = Some body ->
            (Extract.extractEntry zipPath destDir f fs0).2 = None ->
            (Extract.extractEntry zipPath destDir f fs0).1
              !! Path.Join destDir (Extract.Name f)
            = Some (Extract.IFile body)))
  /\ (r = None ->
      forall before f body after,
        files = (before ++ f :: after)%list ->
        bodyOf f = Some body ->
        (forall g, In g after ->
           Path.Join destDir (Extract.Name g) <> Path.Join destDir (Extract.Name f)) ->
        fs' !! Path.Join destDir (Extract.Name f) = Some (Extract.IFile body))
  /\ (forall p c,
        fs' !! p = Some (Extract.IFile c) -> fs !! p <> Some (Extract.IFile c) ->
        exists f, In f files /\ isFileEntry f = true
                  /\ p = Path.Join destDir (Extract.Name f))
  /\ (forall f, In f files -> ~ In ".." (Path.split (Extract.Name f)) ->
        destDir `prefix_of` Path.Join destDir (Extract.Name f)).
Proof.
  intros Hclean Hzip Hex. unfold Extract.extractZipToDir in Hex. rewrite Hzip in Hex.
  split; [|split; [|split]].
  - intros before f after fs0 _ _. split; [apply extractEntry_through|].
    intros body Hbody Hnone.
    destruct (Extract.extractEntry zipPath destDir f fs0) as [fs1 r1] eqn:E1.
    cbn [fst snd] in *. subst r1.
    eapply extractEntry_puts; [exact Hbody|exact E1].
  - intros -> before f body after -> Hbody Hlater.
    eapply extractEntries_puts; eassumption.
  - intros p c Hp Hnew.
    destruct (extractEntries_writes _ _ _ _ _ _ _ _ Hex Hp) as [H|H];
      [contradiction|exact H].
  - intros f _ Hno. apply Join_stays_below; assumption.
Qed.

Lemma extracted_files_witness :
  let files := [Extract.Regular "ok.xml" (Extract.Data "<a/>");
                Extract.Regular "../evil.txt" (Extract.Data "x")] in
  let after := Extract.extractZipToDir ["d"; "a.zip"] ["d"; "a"] Sample.slipDisk in
  (forall before f later (fs0 : gmap (list string) Extract.Inode),
      files = (before ++ f :: later)%list ->
      Extract.extractEntries ["d"; "a.zip"] ["d"; "a"] before Sample.slipDisk
      = (fs0, None) ->
      ((Extract.extractEntry ["d"; "a.zip"] ["d"; "a"] f fs0).2 = None
       <-> fileSystemTakes ["d"; "a.zip"] (Path.Join ["d"; "a"] (Extract.Name f)) f fs0)
      /\ (forall body,
            bodyOf f = Some body ->
            (Extract.extractEntry ["d"; "a.zip"] ["d"; "a"] f fs0).2 = None ->
            (Extract.extractEntry ["d"; "a.zip"] ["d"; "a"] f fs0).1
              !! Path.Join ["d"; "a"] (Extract.Name f)
            = Some (Extract.IFile body)))
  /\ (after.2 = None ->
      forall before f body later,
        files = (before ++ f :: later)%list ->
        bodyOf f = Some body ->
        (forall g, In g later ->
           Path.Join ["d"; "a"] (Extract.Name g)
           <> Path.Join ["d"; "a"] (Extract.Name f)) ->
        after.1 !! Path.Join ["d"; "a"] (Extract.Name f) = Some (Extract.IFile body))
  /\ (forall p c,
        after.1 !! p = Some (Extract.IFile c) ->
        Sample.slipDisk !! p <> Some (Extract.IFile c) ->
        exists f, In f files /\ isFileEntry f = true
                  /\ p = Path.Join ["d"; "a"] (Extract.Name f))
  /\ (forall f, In f files -> ~ In ".." (Path.split (Extract.Name f)) ->
        ["d"; "a"] `prefix_of` Path.Join ["d"; "a"] (Extract.Name f)).
Proof.
  cbv zeta.
  apply (extracted_files_at_joined_paths ["d"; "a.zip"] ["d"; "a"]
           [Extract.Regular "ok.xml" (Extract.Data "<a/>");
            Extract.Regular "../evil.txt" (Extract.Data "x")]
           Sample.slipDisk
           (Extract.extractZipToDir ["d"; "a.zip"] ["d"; "a"] Sample.slipDisk).1
           (Extract.extractZipToDir ["d"; "a.zip"] ["d"; "a"] Sample.slipDisk).2).
  - repeat constructor; discriminate.
  - vm_compute. reflexivity.
  - apply surjective_pairing.
Defined.

(** C3, as stated, fails. The entry named [../evil.txt] of the archive
    [/d/a.zip], extracted to [/d/a], is not rejected: extraction ends
    without error and has written the file [/d/evil.txt], which is not
    below [/d/a]. *)
Lemma dotdot_entry_escapes :
  let after := Extract.extractZipToDir ["d"; "a.zip"] ["d"; "a"] Sample.slipDisk in
  after.2 = None
  /\ Path.Join ["d"; "a"] "../evil.txt" = ["d"; "evil.txt"]
  /\ Sample.slipDisk !! ["d"; "evil.txt"] = None
  /\ after.1 !! ["d"; "evil.txt"] = Some (Extract.IFile (Extract.Data "x"))
  /\ ~ ["d"; "a"] `prefix_of` ["d"; "evil.txt"].
Proof.
  cbv zeta. split; [|split; [|split; [|split]]]; try (vm_compute; reflexivity).
  intros [k Hk]. discriminate.
Qed.

(** ** The unpacker: the work left *)

Section Pending.

Variable dir : list string.

Let add (p : list string) (node : Extract.Inode) (acc : nat) : nat :=
  (Extract.weightAt dir p node + acc)%nat.

Lemma add_comm (p1 p2 : list string) (n1 n2 : Extract.Inode) (acc : nat) :
  add p1 n1 (add p2 n2 acc) = add p2 n2 (add p1 n1 acc).
Proof. unfold add. lia. Qed.

Lemma pending_delete (fs : gmap (list string) Extract.Inode) (p : list string)
    (node : Extract.Inode) :
  fs !! p = Some node ->
  Extract.pending dir fs
  = (Extract.weightAt dir p node + Extract.pending dir (delete p fs))%nat.
Proof.
  intros Hp. unfold Extract.pending.
  apply (map_fold_delete_L add 0%nat p node fs); [|exact Hp].
  intros. apply add_comm.
Qed.

Lemma pending_delete_le (fs : gmap (list string) Extract.Inode) (p : list string) :
  (Extract.pending dir (delete p fs) <= Extract.pending dir fs)%nat.
Proof.
  destruct (fs !! p) as [node|] eqn:Hp.
  - rewrite (pending_delete fs p node Hp). lia.
  - rewrite delete_id by exact Hp. lia.
Qed.

Lemma pending_insert_le (fs : gmap (list string) Extract.Inode) (p : list string)
    (node : Extract.Inode) :
  (Extract.pending dir (<[p := node]> fs)
   <= Extract.weightAt dir p node + Extract.pending dir fs)%nat.
Proof.
  rewrite <- (insert_delete_eq fs p node).
  unfold Extract.pending at 1.
  rewrite (map_fold_insert_L add 0%nat p node (delete p fs)).
  - unfold add. pose proof (pending_delete_le fs p) as Hle.
    unfold Extract.pending in Hle |- *. lia.
  - intros. apply add_comm.
  - apply lookup_delete_eq.
Qed.

(** The work left apart from the archive [z] being unpacked. *)
Lemma rest_insert_le (z p : list string) (node : Extract.Inode)
    (fs : gmap (list string) Extract.Inode) :
  (Extract.pending dir (delete z (<[p := node]> fs))
   <= Extract.weightAt dir p node + Extract.pending dir (delete z fs))%nat.
Proof.
  destruct (decide (z = p)) as [->|Hne].
  - rewrite delete_insert_eq. lia.
  - rewrite delete_insert_ne by exact Hne. apply pending_insert_le.
Qed.

Lemma weightAt_le (p : list string) (c : Extract.Content) :
  (Extract.weightAt dir p (Extract.IFile c) <= Extract.weight c)%nat.
Proof.
  unfold Extract.weightAt. destruct (Extract.isZipUnder dir p (Extract.IFile c)); lia.
Qed.

Lemma rest_mkdirAllFrom (z : list string) (rest base : list string)
    (fs fs' : gmap (list string) Extract.Inode) :
  Extract.mkdirAllFrom base rest fs = Right fs' ->
  (Extract.pending dir (delete z fs') <= Extract.pending dir (delete z fs))%nat.
Proof.
  revert base fs. induction rest as [|e rest IH]; intros base fs Hmk; simpl in Hmk.
  - injection Hmk as <-. lia.
  - destruct (fs !! (base ++ [e])%list) as [[|c']|] eqn:E; [|discriminate|].
    + eapply IH; eassumption.
    + specialize (IH _ _ Hmk).
      pose proof (rest_insert_le z (base ++ [e])%list Extract.IDir fs) as Hle.
      simpl in Hle. lia.
Qed.

Lemma rest_extractEntry (z zipPath destDir : list string) (f : Extract.Entry)
    (fs fs' : gmap (list string) Extract.Inode) (r : option string) :
  Extract.extractEntry zipPath destDir f fs = (fs', r) ->
  (Extract.pending dir (delete z fs')
   <= Extract.entryWeight f + Extract.pending dir (delete z fs))%nat.
Proof.
  intros H. destruct (extractEntry_disk _ _ _ _ _ _ H) as (fs1 & Hmk & Hw).
  assert (H1 : (Extract.pending dir (delete z fs1)
                <= Extract.pending dir (delete z fs))%nat).
  { destruct Hmk as [->|[q Hq]]; [lia|]. apply (rest_mkdirAllFrom z) in Hq. exact Hq. }
  destruct Hw as [->|(c & _ & Hc & ->)]; [lia|].
  pose proof (rest_insert_le z (Path.Join destDir (Extract.Name f)) (Extract.IFile c) fs1).
  pose proof (weightAt_le (Path.Join destDir (Extract.Name f)) c). lia.
Qed.

Lemma entry_weights_cons (f : Extract.Entry) (files : list Extract.Entry) :
  list_sum (List.map Extract.entryWeight (f :: files))
  = (Extract.entryWeight f + list_sum (List.map Extract.entryWeight files))%nat.
Proof. reflexivity. Qed.

Lemma rest_extractEntries (z zipPath destDir : list string) (files : list Extract.Entry)
    (fs fs' : gmap (list string) Extract.Inode) (r : option string) :
  Extract.extractEntries zipPath destDir files fs = (fs', r) ->
  (Extract.pending dir (delete z fs')
   <= list_sum (List.map Extract.entryWeight files) + Extract.pending dir (delete z fs))%nat.
Proof.
  revert fs. induction files as [|f files IH]; intros fs Hex;
    cbn [Extract.extractEntries] in Hex.
  - injection Hex as <- _. simpl. lia.
  - rewrite entry_weights_cons.
    destruct (Extract.extractEntry zipPath destDir f fs) as [fs1 r1] eqn:E1.
    pose proof (rest_extractEntry z _ _ _ _ _ _ E1) as H1.
    destruct r1 as [err|]; [injection Hex as <- _; lia|].
    specialize (IH _ Hex). lia.
Qed.

Lemma findAllZipFilesRecursive_found (fs : gmap (list string) Extract.Inode)
    (zipFiles : list (list string)) :
  Extract.findAllZipFilesRecursive dir fs = Right zipFiles ->
  Forall (foundBelow dir) zipFiles.
Proof.
  unfold Extract.findAllZipFilesRecursive.
  destruct (Extract.stat fs dir); [|discriminate].
  intros [= <-]. apply Forall_forall. intros z Hz.
  rewrite merge_sort_Permutation in Hz.
  apply list_elem_of_fmap in Hz as ([z' node] & -> & Hz).
  apply elem_of_map_to_list in Hz.
  apply map_lookup_filter_Some in Hz as [_ Hzip]. simpl in *.
  unfold Extract.isZipUnder in Hzip. destruct node; [discriminate|].
  apply andb_true_iff in Hzip as [Hname Hunder].
  split; [exact Hname|]. apply bool_decide_eq_true in Hunder. exact Hunder.
Qed.

Section Deleting.

Variable locked : list string -> bool.
Hypothesis unlocked : forall p, locked p = false.

(** Unpacking one archive and deleting it leaves strictly less work. *)
Lemma unpack_and_delete (z : list string) (fs fs1 : gmap (list string) Extract.Inode) :
  foundBelow dir z ->
  Extract.extractZipToDir z (Path.Dir z) fs = (fs1, None) ->
  (Extract.pending dir
     (match Extract.Remove locked z fs1 with
      | Left _ => fs1
      | Right fs' => fs'
      end) < Extract.pending dir fs)%nat.
Proof.
  intros [Hname Hunder] Hex. unfold Extract.extractZipToDir in Hex.
  destruct (fs !! z) as [[|[bytes|files]]|] eqn:Ez; try discriminate.
  pose proof (rest_extractEntries z _ _ _ _ _ _ Hex) as Hrest.
  rewrite (pending_delete fs z _ Ez).
  assert (Hw : Extract.weightAt dir z (Extract.IFile (Extract.Zip files))
               = S (list_sum (List.map Extract.entryWeight files))).
  { unfold Extract.weightAt, Extract.isZipUnder. rewrite Hname.
    rewrite bool_decide_eq_true_2 by exact Hunder. reflexivity. }
  rewrite Hw.
  assert (Hafter : (Extract.pending dir
                      (match Extract.Remove locked z fs1 with
                       | Left _ => fs1
                       | Right fs' => fs'
                       end) <= Extract.pending dir (delete z fs1))%nat).
  { unfold Extract.Remove. rewrite unlocked.
    destruct (fs1 !! z) as [[|c]|] eqn:Ez1.
    - destruct (Extract.isEmptyDir z fs1); [lia|].
      rewrite (pending_delete fs1 z _ Ez1). simpl. lia.
    - lia.
    - rewrite delete_id by exact Ez1. lia. }
  lia.
Qed.

Lemma extractNested_progress (zipFiles : list (list string)) (ctx ctx' : Context)
    (fs fs' : gmap (list string) Extract.Inode) :
  Forall (foundBelow dir) zipFiles ->
  Extract.extractNested locked true zipFiles ctx fs = (ctx', fs', None) ->
  (Extract.pending dir fs' + length zipFiles <= Extract.pending dir fs)%nat.
Proof.
  revert ctx fs. induction zipFiles as [|z zipFiles IH]; intros ctx fs Hall Hrun;
    simpl in Hrun.
  - injection Hrun as _ <-. simpl. lia.
  - apply Forall_cons in Hall as [Hz Hall].
    destruct (poll ctx) as [[] ctx1]; [discriminate|].
    destruct (Extract.extractZipToDir z (Path.Dir z) fs) as [fs1 [err|]] eqn:Hex;
      [discriminate|].
    pose proof (unpack_and_delete z fs fs1 Hz Hex) as Hlt.
    specialize (IH _ _ Hall Hrun). simpl. lia.
Qed.

(** With as much fuel as there is work left, and one more, the loop
    returns. *)
Lemma extractAllZipsInDir_returns (n : nat) (ctx : Context)
    (fs : gmap (list string) Extract.Inode) :
  (Extract.pending dir fs <= n)%nat ->
  exists result, Extract.extractAllZipsInDir locked true (S n) dir ctx fs = Some result.
Proof.
  revert ctx fs. induction n as [|n IH]; intros ctx fs Hn;
    cbn [Extract.extractAllZipsInDir];
    destruct (poll ctx) as [[] ctx1]; eauto;
    destruct (Extract.findAllZipFilesRecursive dir fs) as [e|zipFiles] eqn:Ewalk; eauto;
    destruct zipFiles as [|z zipFiles]; eauto;
    apply findAllZipFilesRecursive_found in Ewalk;
    destruct (Extract.extractNested locked true (z :: zipFiles) ctx1 fs)
      as [[ctx2 fs1] [err|]] eqn:Erun; eauto;
    pose proof (extractNested_progress _ _ _ _ _ Ewalk Erun) as Hprog;
    simpl in Hprog.
  - lia.
  - apply IH. lia.
Qed.

End Deleting.

End Pending.

(** The recursive unpacker terminates when it deletes what it has
    unpacked and no deletion is refused: for every directory tree, some
    amount of fuel, bounded by the number of archives nested in the
    tree, gives a result. *)
Lemma unpacker_terminates_when_deleting (locked : list string -> bool)
    (dir : list string) (ctx : Context) (fs : gmap (list string) Extract.Inode) :
  (forall p, locked p = false) ->
  exists fuel result,
    Extract.extractAllZipsInDir locked true fuel dir ctx fs = Some result
    /\ (fuel <= S (Extract.pending dir fs))%nat.
Proof.
  intros Hunlocked.
  destruct (extractAllZipsInDir_returns dir locked Hunlocked
              (Extract.pending dir fs) ctx fs) as [result Hrun]; [lia|].
  exists (S (Extract.pending dir fs)), result. split; [exact Hrun|lia].
Qed.

(** ** The unpacker that does not delete *)

Lemma extractAllZipsInDir_step (locked : list string -> bool) (DeleteAfter : bool)
    (fuel : nat) (dir : list string) (ctx : Context)
    (fs : gmap (list string) Extract.Inode) :
  Extract.extractAllZipsInDir locked DeleteAfter (S fuel) dir ctx fs
  = let (done, ctx1) := poll ctx in
    if done then Some (fs, Left Canceled)
    else
      match Extract.findAllZipFilesRecursive dir fs with
      | Left err => Some (fs, Left err)
      | Right [] => Some (fs, Right tt)
      | Right zipFiles =>
          match Extract.extractNested locked DeleteAfter zipFiles ctx1 fs with
          | (_, fs1, Some err) => Some (fs1, Left err)
          | (ctx2, fs1, None) =>
              Extract.extractAllZipsInDir locked DeleteAfter fuel dir ctx2 fs1
          end
      end.
Proof. reflexivity. Qed.

(** One pass over the unpacked directory finds the inner archive again,
    unpacks it again, and leaves the directory as it was. *)
Lemma unpacked_pass (locked : list string -> bool) :
  Extract.findAllZipFilesRecursive ["d"; "out"] Sample.unpackedDisk
  = Right [["d"; "out"; "in.zip"]]
  /\ Extract.extractNested locked false [["d"; "out"; "in.zip"]] background
       Sample.unpackedDisk
     = (background, Sample.unpackedDisk, None).
Proof. split; vm_compute; reflexivity. Qed.

Lemma nested_pass (locked : list string -> bool) :
  Extract.findAllZipFilesRecursive ["d"; "out"] Sample.nestedDisk
  = Right [["d"; "out"; "in.zip"]]
  /\ Extract.extractNested locked false [["d"; "out"; "in.zip"]] background
       Sample.nestedDisk
     = (background, Sample.unpackedDisk, None).
Proof. split; vm_compute; reflexivity. Qed.

Lemma unpacked_forever (locked : list string -> bool) (fuel : nat) :
  Extract.extractAllZipsInDir locked false fuel ["d"; "out"] background
    Sample.unpackedDisk = None.
Proof.
  induction fuel as [|fuel IH]; [reflexivity|].
  rewrite extractAllZipsInDir_step.
  change (poll background) with (false, background). cbv iota beta.
  destruct (unpacked_pass locked) as [-> ->]. exact IH.
Qed.

(** C1. With [DeleteAfter] false the loop has no end as soon as the
    directory holds one inner archive: each walk finds the archive that
    the pass before has unpacked and left in place. On the directory
    [/d/out] with the archive [in.zip], under a context that is never
    cancelled, no amount of fuel gives a result; the same unpacker
    returns on that directory when it deletes. *)
Theorem nested_archive_unpacked_forever :
  (forall (locked : list string -> bool) (fuel : nat),
      Extract.extractAllZipsInDir locked false fuel ["d"; "out"] background
        Sample.nestedDisk = None)
  /\ (exists fuel result,
        Extract.extractAllZipsInDir (fun _ => false) true fuel ["d"; "out"] background
          Sample.nestedDisk = Some result).
Proof.
  split.
  - intros locked [|fuel]; [reflexivity|].
    rewrite extractAllZipsInDir_step.
    change (poll background) with (false, background). cbv iota beta.
    destruct (nested_pass locked) as [-> ->]. apply unpacked_forever.
  - destruct (unpacker_terminates_when_deleting (fun _ => false) ["d"; "out"]
                background Sample.nestedDisk) as (fuel & result & Hrun & _);
      [reflexivity|].
    eauto.
Qed.

(* ===================================================================== *)
(** * Further properties of the code *)
(* ===================================================================== *)

(** ** The pattern of the file-size parser *)

Lemma span_split (p : ascii -> bool) (s a b : string) :
  Str.span p s = (a, b) -> s = a ++ b /\ Str.forallb p a = true.
Proof.
  revert a b. induction s as [|c s IH]; intros a b H; simpl in H.
  - injection H as <- <-. auto.
  - destruct (p c) eqn:Ec.
    + destruct (Str.span p s) as [a' b'] eqn:Es. injection H as <- <-.
      destruct (IH a' b' eq_refl) as [-> Ha]. simpl. rewrite Ec, Ha. auto.
    + injection H as <- <-. auto.
Qed.

Lemma fileSizeRe_shape (s int dec unit : string) :
  Download.fileSizeRe s = Some (int, dec, unit) ->
  int <> ""
  /\ Str.forallb Str.isDigit int = true
  /\ Str.forallb Str.isDigit dec = true
  /\ Str.forallb Str.isLetter unit = true
  /\ exists sep blanks,
       s = int ++ sep ++ dec ++ blanks ++ unit
       /\ Str.forallb Str.isReSpace blanks = true
       /\ ((sep = "" /\ dec = "") \/ ((sep = "." \/ sep = ",") /\ dec <> "")).
Proof.
  unfold Download.fileSizeRe. intros H.
  destruct (Str.span Str.isDigit s) as [i r1] eqn:E1.
  apply span_split in E1 as [-> Hi].
  destruct (Str.isEmpty i) eqn:Ei; [discriminate|].
  assert (Hrest : forall d r2 sep,
            r1 = sep ++ d ++ r2 ->
            Str.forallb Str.isDigit d = true ->
            ((sep = "" /\ d = "") \/ ((sep = "." \/ sep = ",") /\ d <> "")) ->
            (let (_, r3) := Str.span Str.isReSpace r2 in
             let (unit0, r4) := Str.span Str.isLetter r3 in
             if Str.isEmpty r4 then Some (i, d, unit0) else None)
            = Some (int, dec, unit) ->
            int <> ""
            /\ Str.forallb Str.isDigit int = true
            /\ Str.forallb Str.isDigit dec = true
            /\ Str.forallb Str.isLetter unit = true
            /\ exists sep blanks,
                 i ++ r1 = int ++ sep ++ dec ++ blanks ++ unit
                 /\ Str.forallb Str.isReSpace blanks = true
                 /\ ((sep = "" /\ dec = "") \/ ((sep = "." \/ sep = ",") /\ dec <> ""))).
  { intros d r2 sep -> Hd Hsep Hm.
    destruct (Str.span Str.isReSpace r2) as [ws r3] eqn:E3.
    apply span_split in E3 as [-> Hws].
    destruct (Str.span Str.isLetter r3) as [u r4] eqn:E4.
    apply span_split in E4 as [-> Hu].
    destruct r4; [|discriminate]. injection Hm as <- <- <-.
    split; [destruct i; [discriminate|discriminate]|].
    split; [exact Hi|]. split; [exact Hd|]. split; [exact Hu|].
    exists sep, ws. split; [|auto].
    assert (E : u ++ "" = u).
    { clear. induction u as [|a u IH]; [reflexivity|].
      change (String a (u ++ "") = String a u). rewrite IH. reflexivity. }
    rewrite E. reflexivity. }
  destruct r1 as [|c r'].
  - apply (Hrest "" "" ""); auto.
  - destruct (decide (c = "."%char \/ c = ","%char)) as [Hc|Hc].
    + destruct (Str.span Str.isDigit r') as [d r''] eqn:E2.
      apply span_split in E2 as [-> Hd].
      destruct (Str.isEmpty d) eqn:Ed.
      * apply (Hrest "" (String c (d ++ r'')) ""); auto.
      * apply (Hrest d r'' (String c "")); auto.
        right. split; [destruct Hc as [-> | ->]; auto|].
        destruct d; discriminate.
    + apply (Hrest "" (String c r') ""); auto.
Qed.

(** When the pattern matches, the groups are what the pattern says: the
    first a non-empty run of digits, the second a run of digits that is
    there exactly when a dot or a comma comes before it, the third a run
    of letters; and the text is these, in order, with blanks only
    between the number and the unit. *)
Theorem fileSizeRe_groups (s int dec unit : string) :
  Download.fileSizeRe s = Some (int, dec, unit) ->
  int <> ""
  /\ Str.forallb Str.isDigit int = true
  /\ Str.forallb Str.isDigit dec = true
  /\ Str.forallb Str.isLetter unit = true
  /\ exists sep blanks,
       s = int ++ sep ++ dec ++ blanks ++ unit
       /\ Str.forallb Str.isReSpace blanks = true
       /\ ((sep = "" /\ dec = "") \/ ((sep = "." \/ sep = ",") /\ dec <> "")).
Proof. apply fileSizeRe_shape. Qed.

Lemma fileSizeRe_groups_witness :
  "1" <> ""
  /\ Str.forallb Str.isDigit "1" = true
  /\ Str.forallb Str.isDigit "5" = true
  /\ Str.forallb Str.isLetter "GB" = true
  /\ exists sep blanks,
       "1.5 GB" = "1" ++ sep ++ "5" ++ blanks ++ "GB"
       /\ Str.forallb Str.isReSpace blanks = true
       /\ ((sep = "" /\ "5" = "") \/ ((sep = "." \/ sep = ",") /\ "5" <> "")).
Proof.
  apply (fileSizeRe_groups "1.5 GB" "1" "5" "GB"). vm_compute. reflexivity.
Defined.

Lemma parseFileSize_no_fraction_witness :
  Download.parseFileSize "100 MB" = 0.
Proof.
  apply (parseFileSize_no_fraction "100 MB" "100" "MB"). vm_compute. reflexivity.
Defined.

(** ** The file-size parser and the case of letters *)

Ltac each_byte c := destruct c as [[] [] [] [] [] [] [] []]; vm_compute; reflexivity.

Lemma isSpace_upper (c : ascii) : Str.isSpace (Str.upper c) = Str.isSpace c.
Proof. each_byte c. Qed.

Lemma isReSpace_upper (c : ascii) : Str.isReSpace (Str.upper c) = Str.isReSpace c.
Proof. each_byte c. Qed.

Lemma isDigit_upper (c : ascii) : Str.isDigit (Str.upper c) = Str.isDigit c.
Proof. each_byte c. Qed.

Lemma isLetter_upper (c : ascii) : Str.isLetter (Str.upper c) = Str.isLetter c.
Proof. each_byte c. Qed.

Lemma upper_upper (c : ascii) : Str.upper (Str.upper c) = Str.upper c.
Proof. each_byte c. Qed.

Lemma upper_point (c : ascii) :
  bool_decide (Str.upper c = "."%char \/ Str.upper c = ","%char)
  = bool_decide (c = "."%char \/ c = ","%char).
Proof. each_byte c. Qed.

Lemma upper_digit (c : ascii) : Str.isDigit c = true -> Str.upper c = c.
Proof. destruct c as [[] [] [] [] [] [] [] []]; vm_compute; congruence. Qed.

Lemma map_digits (s : string) :
  Str.forallb Str.isDigit s = true -> Str.map Str.upper s = s.
Proof.
  induction s as [|c s IH]; simpl; [reflexivity|].
  intros H. apply andb_true_iff in H as [Hc Hs].
  rewrite (upper_digit c Hc), (IH Hs). reflexivity.
Qed.

Lemma map_map_upper (s : string) :
  Str.map Str.upper (Str.map Str.upper s) = Str.map Str.upper s.
Proof.
  induction s as [|c s IH]; simpl; [reflexivity|]. rewrite upper_upper, IH. reflexivity.
Qed.

Lemma length_map_bytes (f : ascii -> ascii) (s : string) :
  String.length (Str.map f s) = String.length s.
Proof. induction s as [|c s IH]; simpl; [reflexivity|]. rewrite IH. reflexivity. Qed.

Lemma isEmpty_map (f : ascii -> ascii) (s : string) :
  Str.isEmpty (Str.map f s) = Str.isEmpty s.
Proof. destruct s; reflexivity. Qed.

Lemma span_map (p : ascii -> bool) (f : ascii -> ascii) (s : string) :
  (forall c, p (f c) = p c) ->
  Str.span p (Str.map f s)
  = (Str.map f (Str.span p s).1, Str.map f (Str.span p s).2).
Proof.
  intros Hp. induction s as [|c s IH]; simpl; [reflexivity|].
  rewrite Hp. destruct (p c); [|reflexivity].
  rewrite IH. destruct (Str.span p s) as [a b]. reflexivity.
Qed.

Lemma lower_is_low (c : ascii) :
  Str.isLower c = true ->
  (Str.code c <? 128)%nat = true /\ (Str.code (Str.upper c) <? 128)%nat = true.
Proof.
  destruct c as [[] [] [] [] [] [] [] []]; vm_compute; intros H;
    first [discriminate H | split; reflexivity].
Qed.

Lemma eqb_upper (c : ascii) (k : nat) :
  (128 <= k)%nat -> Nat.eqb (Str.code (Str.upper c)) k = Nat.eqb (Str.code c) k.
Proof.
  intros Hk. destruct (Str.isLower c) eqn:E.
  - destruct (lower_is_low c E) as [H1 H2].
    apply Nat.ltb_lt in H1, H2.
    rewrite (proj2 (Nat.eqb_neq _ _)) by lia.
    rewrite (proj2 (Nat.eqb_neq _ _)) by lia. reflexivity.
  - unfold Str.upper. rewrite E. reflexivity.
Qed.

Lemma between_upper (c : ascii) (lo hi : nat) :
  (128 <= lo)%nat -> Str.between lo hi (Str.upper c) = Str.between lo hi c.
Proof.
  intros Hlo. destruct (Str.isLower c) eqn:E.
  - destruct (lower_is_low c E) as [H1 H2].
    apply Nat.ltb_lt in H1, H2. unfold Str.between.
    rewrite (proj2 (Nat.leb_gt lo _)) by lia.
    rewrite (proj2 (Nat.leb_gt lo _)) by lia. reflexivity.
  - unfold Str.upper. rewrite E. reflexivity.
Qed.

Lemma isSpace2_upper (a b : ascii) :
  Str.isSpace2 (Str.upper a) (Str.upper b) = Str.isSpace2 a b.
Proof. unfold Str.isSpace2. rewrite !eqb_upper by lia. reflexivity. Qed.

Lemma isSpace3_upper (a b c : ascii) :
  Str.isSpace3 (Str.upper a) (Str.upper b) (Str.upper c) = Str.isSpace3 a b c.
Proof.
  unfold Str.isSpace3. rewrite !eqb_upper, !between_upper by lia. reflexivity.
Qed.

Lemma trimLeft_map_bounded (n : nat) (s : string) :
  (String.length s <= n)%nat ->
  Str.trimLeft (Str.map Str.upper s) = Str.map Str.upper (Str.trimLeft s).
Proof.
  revert s. induction n as [|n IH]; intros s Hn.
  - destruct s; [reflexivity|simpl in Hn; lia].
  - destruct s as [|a s1]; [reflexivity|]. simpl in Hn.
    cbn [Str.map Str.trimLeft]. rewrite isSpace_upper.
    destruct (Str.isSpace a); [apply IH; lia|].
    destruct s1 as [|b s2]; [reflexivity|]. simpl in Hn.
    cbn [Str.map]. rewrite isSpace2_upper.
    destruct (Str.isSpace2 a b); [apply IH; lia|].
    destruct s2 as [|c s3]; [reflexivity|]. simpl in Hn.
    cbn [Str.map]. rewrite isSpace3_upper.
    destruct (Str.isSpace3 a b c); [apply IH; lia|reflexivity].
Qed.

Lemma trimLeft_map (s : string) :
  Str.trimLeft (Str.map Str.upper s) = Str.map Str.upper (Str.trimLeft s).
Proof. apply (trimLeft_map_bounded (String.length s)). lia. Qed.

Lemma isSpaceRune_map (t : string) :
  Str.isSpaceRune (Str.map Str.upper t) = Str.isSpaceRune t.
Proof.
  destruct t as [|a [|b [|c [|d t]]]]; cbn [Str.map Str.isSpaceRune];
    [reflexivity|apply isSpace_upper|apply isSpace2_upper|apply isSpace3_upper
    |reflexivity].
Qed.

Lemma trimRight_map (s : string) :
  Str.trimRight (Str.map Str.upper s) = Str.map Str.upper (Str.trimRight s).
Proof.
  induction s as [|c s IH]; [reflexivity|].
  cbn [Str.map Str.trimRight]. cbv zeta. rewrite IH.
  change (String (Str.upper c) (Str.map Str.upper (Str.trimRight s)))
    with (Str.map Str.upper (String c (Str.trimRight s))).
  rewrite isSpaceRune_map.
  destruct (Str.isSpaceRune (String c (Str.trimRight s))); reflexivity.
Qed.

Lemma TrimSpace_map (s : string) :
  Str.TrimSpace (Str.map Str.upper s) = Str.map Str.upper (Str.TrimSpace s).
Proof. unfold Str.TrimSpace. rewrite trimLeft_map, trimRight_map. reflexivity. Qed.

(** On ASCII text the capitals are those of the bytes. *)
Lemma ToUpper_ASCII (s : string) :
  isASCII s = true -> Str.ToUpper s = Str.map Str.upper s.
Proof.
  unfold isASCII. induction s as [|a s1 IH]; [reflexivity|].
  cbn [Str.forallb]. intros H. apply andb_true_iff in H as [Ha Hs].
  specialize (IH Hs). cbn [Str.ToUpper Str.map].
  destruct s1 as [|b s2]; [reflexivity|].
  apply Nat.ltb_lt in Ha. unfold Str.isRune2.
  rewrite (proj2 (Nat.eqb_neq (Str.code a) 196)) by lia.
  rewrite (proj2 (Nat.eqb_neq (Str.code a) 197)) by lia.
  cbn [andb]. rewrite IH. reflexivity.
Qed.

Lemma letter_is_low (c : ascii) :
  Str.isLetter c = true ->
  (Str.code c <? 128)%nat = true /\ Str.isSpace c = false /\ Str.upper (Str.upper c) = Str.upper c.
Proof.
  destruct c as [[] [] [] [] [] [] [] []]; vm_compute; intros H;
    first [discriminate H | repeat split; reflexivity].
Qed.

Lemma letters_ASCII (u : string) :
  Str.forallb Str.isLetter u = true -> isASCII u = true.
Proof.
  unfold isASCII. induction u as [|c u IH]; [reflexivity|].
  cbn [Str.forallb]. intros H. apply andb_true_iff in H as [Hc Hu].
  rewrite (proj1 (letter_is_low c Hc)), (IH Hu). reflexivity.
Qed.

Lemma letters_map (u : string) :
  Str.forallb Str.isLetter (Str.map Str.upper u) = Str.forallb Str.isLetter u.
Proof.
  induction u as [|c u IH]; [reflexivity|].
  cbn [Str.map Str.forallb]. rewrite isLetter_upper, IH. reflexivity.
Qed.

(** A white-space rune outside ASCII starts with a byte outside ASCII. *)
Lemma ASCII_not_space2 (a b : ascii) :
  (Str.code a <? 128)%nat = true -> Str.isSpace2 a b = false.
Proof.
  intros H. apply Nat.ltb_lt in H. unfold Str.isSpace2.
  rewrite (proj2 (Nat.eqb_neq (Str.code a) 194)) by lia. reflexivity.
Qed.

Lemma ASCII_not_space3 (a b c : ascii) :
  (Str.code a <? 128)%nat = true -> Str.isSpace3 a b c = false.
Proof.
  intros H. apply Nat.ltb_lt in H. unfold Str.isSpace3.
  rewrite (proj2 (Nat.eqb_neq (Str.code a) 225)) by lia.
  rewrite (proj2 (Nat.eqb_neq (Str.code a) 226)) by lia.
  rewrite (proj2 (Nat.eqb_neq (Str.code a) 227)) by lia. reflexivity.
Qed.

(** A run of letters has nothing to trim. *)
Lemma TrimSpace_letters (u : string) :
  Str.forallb Str.isLetter u = true -> Str.TrimSpace u = u.
Proof.
  intros Hu. unfold Str.TrimSpace.
  assert (Hleft : Str.trimLeft u = u).
  { destruct u as [|a u1]; [reflexivity|].
    cbn [Str.forallb] in Hu. apply andb_true_iff in Hu as [Ha _].
    destruct (letter_is_low a Ha) as (Hlow & Hsp & _).
    cbn [Str.trimLeft]. rewrite Hsp.
    destruct u1 as [|b u2]; [reflexivity|]. rewrite (ASCII_not_space2 a b Hlow).
    destruct u2 as [|c u3]; [reflexivity|]. rewrite (ASCII_not_space3 a b c Hlow).
    reflexivity. }
  rewrite Hleft. clear Hleft.
  induction u as [|a u IH]; [reflexivity|].
  cbn [Str.forallb] in Hu. apply andb_true_iff in Hu as [Ha Hu].
  destruct (letter_is_low a Ha) as (Hlow & Hsp & _).
  cbn [Str.trimRight]. cbv zeta. rewrite (IH Hu).
  destruct u as [|b [|c [|d u]]]; cbn [Str.isSpaceRune];
    rewrite ?Hsp, ?(ASCII_not_space2 a _ Hlow), ?(ASCII_not_space3 a _ _ Hlow);
    reflexivity.
Qed.

Lemma fileSizeRe_map (s : string) :
  Download.fileSizeRe (Str.map Str.upper s)
  = match Download.fileSizeRe s with
    | Some (int, dec, unit) => Some (int, dec, Str.map Str.upper unit)
    | None => None
    end.
Proof.
  unfold Download.fileSizeRe.
  rewrite (span_map Str.isDigit Str.upper s isDigit_upper).
  destruct (Str.span Str.isDigit s) as [i r1] eqn:E1. cbn [fst snd].
  apply span_split in E1 as [_ Hi]. rewrite (map_digits i Hi).
  destruct (Str.isEmpty i); [reflexivity|].
  assert (Htail : forall d r2,
            Str.forallb Str.isDigit d = true ->
            (let (_, r3) := Str.span Str.isReSpace (Str.map Str.upper r2) in
             let (unit0, r4) := Str.span Str.isLetter r3 in
             if Str.isEmpty r4 then Some (i, d, unit0) else None)
            = match (let (_, r3) := Str.span Str.isReSpace r2 in
                     let (unit0, r4) := Str.span Str.isLetter r3 in
                     if Str.isEmpty r4 then Some (i, d, unit0) else None) with
              | Some (int, dec, unit) => Some (int, dec, Str.map Str.upper unit)
              | None => None
              end).
  { intros d r2 Hd.
    rewrite (span_map Str.isReSpace Str.upper r2 isReSpace_upper).
    destruct (Str.span Str.isReSpace r2) as [ws r3]. cbn [fst snd].
    rewrite (span_map Str.isLetter Str.upper r3 isLetter_upper).
    destruct (Str.span Str.isLetter r3) as [u r4]. cbn [fst snd].
    rewrite isEmpty_map. destruct (Str.isEmpty r4); reflexivity. }
  destruct r1 as [|c r']; cbn [Str.map].
  - apply (Htail "" ""). reflexivity.
  - pose proof (upper_point c) as Hpt.
    destruct (decide (Str.upper c = "."%char \/ Str.upper c = ","%char)) as [Hu|Hu];
      destruct (decide (c = "."%char \/ c = ","%char)) as [Hc|Hc];
      try (rewrite bool_decide_eq_true_2, bool_decide_eq_false_2 in Hpt by assumption;
           discriminate);
      try (rewrite bool_decide_eq_false_2, bool_decide_eq_true_2 in Hpt by assumption;
           discriminate).
    + rewrite (span_map Str.isDigit Str.upper r' isDigit_upper).
      destruct (Str.span Str.isDigit r') as [d r''] eqn:E2. cbn [fst snd].
      apply span_split in E2 as [_ Hd]. rewrite (map_digits d Hd).
      destruct (Str.isEmpty d).
      * apply (Htail "" (String c r')). reflexivity.
      * apply (Htail d r''). exact Hd.
    + apply (Htail "" (String c r')). reflexivity.
Qed.

(** The unit that the pattern gives is a run of ASCII letters: its
    capitals are those of its bytes, and [getUnitMultiplier] looks it
    up as it is. *)
Lemma unit_capitals (s int dec unit : string) :
  Download.fileSizeRe s = Some (int, dec, unit) ->
  Str.ToUpper unit = Str.map Str.upper unit
  /\ Str.ToUpper (Str.TrimSpace (Str.ToUpper unit)) = Str.ToUpper unit.
Proof.
  intros Hre. apply fileSizeRe_shape in Hre as (_ & _ & _ & Hu & _).
  assert (Hup : Str.ToUpper unit = Str.map Str.upper unit)
    by (apply ToUpper_ASCII, letters_ASCII, Hu).
  split; [exact Hup|]. rewrite Hup.
  assert (Hu' : Str.forallb Str.isLetter (Str.map Str.upper unit) = true)
    by (rewrite letters_map; exact Hu).
  rewrite (TrimSpace_letters _ Hu').
  rewrite (ToUpper_ASCII _ (letters_ASCII _ Hu')). apply map_map_upper.
Qed.

(** The file-size parser does not tell upper case from lower case: an
    ASCII text and the same text in capitals give the same size. *)
Theorem parseFileSize_ToUpper (s : string) :
  isASCII s = true ->
  Download.parseFileSize (Str.ToUpper s) = Download.parseFileSize s.
Proof.
  intros Hs. rewrite (ToUpper_ASCII s Hs). unfold Download.parseFileSize.
  rewrite TrimSpace_map, isEmpty_map.
  destruct (Str.isEmpty (Str.TrimSpace s)); [reflexivity|].
  rewrite fileSizeRe_map.
  destruct (Download.fileSizeRe (Str.TrimSpace s)) as [[[int dec] unit]|] eqn:Hre;
    [|reflexivity].
  destruct (unit_capitals _ _ _ _ Hre) as [Hup _].
  assert (Hu : Str.forallb Str.isLetter unit = true)
    by (apply fileSizeRe_shape in Hre as (_ & _ & _ & Hu & _); exact Hu).
  assert (Hup' : Str.ToUpper (Str.map Str.upper unit) = Str.map Str.upper unit).
  { rewrite ToUpper_ASCII by (apply letters_ASCII; rewrite letters_map; exact Hu).
    apply map_map_upper. }
  rewrite Hup', Hup. reflexivity.
Qed.

Lemma parseFileSize_ToUpper_witness :
  Download.parseFileSize (Str.ToUpper "2,5 kb") = Download.parseFileSize "2,5 kb".
Proof. apply (parseFileSize_ToUpper "2,5 kb"). vm_compute. reflexivity. Defined.

(** ** A unit that the parser does not know *)

(** Whatever the digits, fraction included, a unit that is not one of
    those that [getUnitMultiplier] lists has the multiplier 0, and the
    size is 0. *)
Theorem parseFileSize_unknown_unit (s int dec unit : string) :
  Download.fileSizeRe (Str.TrimSpace s) = Some (int, dec, unit) ->
  ~ In (Str.ToUpper unit) knownUnits ->
  Download.getUnitMultiplier (Str.ToUpper unit) = 0
  /\ Download.parseFileSize s = 0.
Proof.
  intros Hre Hunknown.
  assert (Hmul : Download.getUnitMultiplier (Str.ToUpper unit) = 0).
  { unfold Download.getUnitMultiplier.
    rewrite (proj2 (unit_capitals _ _ _ _ Hre)).
    unfold knownUnits in Hunknown. cbn [In] in Hunknown.
    repeat (destruct (decide _) as [H|_];
            [exfalso; apply Hunknown; clear Hunknown; intuition (subst; auto 20)|]).
    reflexivity. }
  split; [exact Hmul|]. unfold Download.parseFileSize.
  destruct (Str.isEmpty (Str.TrimSpace s)); [reflexivity|].
  rewrite Hre, Hmul.
  destruct (Str.isEmpty int), (Str.isEmpty dec),
    (Str.ParseInt int), (Str.ParseInt dec); simpl;
    rewrite ?mul_zero_r, ?quo_zero_l; reflexivity.
Qed.

Lemma parseFileSize_unknown_unit_witness :
  Download.getUnitMultiplier (Str.ToUpper "XB") = 0
  /\ Download.parseFileSize "1.5 XB" = 0.
Proof.
  apply (parseFileSize_unknown_unit "1.5 XB" "1" "5" "XB").
  - vm_compute. reflexivity.
  - vm_compute. intuition discriminate.
Defined.

(** ** The timeout of the HTTP client, exactly *)

(** For a positive [Timeout] the client gets that many seconds exactly
    when the number is at most 9223372036; above, the product with
    [time.Second] wraps and the client gets something else. *)
Theorem clientTimeout_seconds_iff (cfg : Download.Server) :
  0 < Download.Timeout cfg <= Int64.max ->
  (Download.clientTimeout cfg = Download.Timeout cfg * Download.Second
   <-> Download.Timeout cfg <= 9223372036).
Proof.
  intros [Hpos Hmax]. split.
  - intros Heq. unfold Download.clientTimeout, F.Ternary, F.Constant1 in Heq.
    destruct (0 <? Download.Timeout cfg) eqn:E; [|apply Z.ltb_ge in E; lia].
    unfold Int64.mul, Int64.wrap in Heq.
    pose proof (Z.mod_pos_bound (Download.Timeout cfg * Download.Second + 2 ^ 63) (2 ^ 64)
                  ltac:(lia)) as Hb.
    unfold Download.Second in *. lia.
  - intros Hsmall. apply clientTimeout_seconds. lia.
Qed.

Lemma clientTimeout_seconds_iff_witness :
  Download.clientTimeout (Download.defaultServer "u")
    = Download.Timeout (Download.defaultServer "u") * Download.Second
  <-> Download.Timeout (Download.defaultServer "u") <= 9223372036.
Proof.
  apply (clientTimeout_seconds_iff (Download.defaultServer "u")).
  vm_compute. split; [reflexivity|discriminate].
Defined.

(** ** Downloads: the first success, and the time asleep *)

Lemma action_background (http : nat -> Either Z) (status : Retry.RetryStatus) :
  Download.action http status background = (http (Retry.IterNumber status), background).
Proof. reflexivity. Qed.

Lemma Retrying_first_success (cfg : Download.Server) (http : nat -> Either Z)
    (k : nat) (n : Z) :
  0 <= Download.MaxRetries cfg <= 10 ->
  (k <= Z.to_nat (Download.MaxRetries cfg))%nat ->
  http k = Right n ->
  (forall j, (j < k)%nat -> ET.IsLeft (http j) = true) ->
  forall (m : nat) (status : Retry.RetryStatus) (fuel : nat),
    (Retry.IterNumber status + m = k)%nat ->
    (m < fuel)%nat ->
    Retry.Retrying fuel (Download.policy cfg) (Download.action http) Download.check
      status background
    = Some (schedule (Retry.IterNumber status) (S m), Right n).
Proof.
  intros Hvalid Hk Hok Hfail. induction m as [|m IH]; intros status fuel Hi Hfuel;
    (destruct fuel as [|fuel]; [lia|]);
    rewrite Retrying_step, action_background.
  - replace (Retry.IterNumber status) with k by lia. rewrite Hok. reflexivity.
  - assert (Hleft : ET.IsLeft (http (Retry.IterNumber status)) = true)
      by (apply Hfail; lia).
    destruct (http (Retry.IterNumber status)) as [e|?]; [|discriminate].
    cbn [Download.check]. rewrite policy_grants by exact Hvalid.
    assert (E : (Retry.IterNumber status <? Z.to_nat (Download.MaxRetries cfg))%nat = true)
      by (apply Nat.ltb_lt; lia).
    rewrite E.
    rewrite (IH (Retry.ApplyPolicy (Download.policy cfg) status) fuel)
      by (simpl; lia).
    rewrite schedule_more. reflexivity.
Qed.

(** Under a context that is not cancelled, a download that is not
    skipped stops at the first request that succeeds: it has made that
    many tries, with the backoff delays between them, and gives the size
    that this request copied. *)
Theorem download_first_success (cfg : Download.Server) (http : nat -> Either Z)
    (f : Download.DownloadFile) (k : nat) (n : Z) :
  0 <= Download.MaxRetries cfg <= 10 ->
  (12 <= String.length (Download.checksum f))%nat ->
  (k <= Z.to_nat (Download.MaxRetries cfg))%nat ->
  http k = Right n ->
  (forall j, (j < k)%nat -> ET.IsLeft (http j) = true) ->
  Download.downloadFile (S (Z.to_nat (Download.MaxRetries cfg))) cfg false false http f
    background
  = Some (Download.Returns (schedule 0 (S k), Right n)).
Proof.
  intros Hvalid Hsum Hk Hok Hfail. unfold Download.downloadFile.
  assert (E : (String.length (Download.checksum f) <? 12)%nat = false)
    by (apply Nat.ltb_ge; exact Hsum).
  rewrite E. cbn [poll background andb].
  rewrite (Retrying_first_success cfg http k n Hvalid Hk Hok Hfail k
             Retry.DefaultRetryStatus) by (simpl; lia).
  reflexivity.
Qed.

Lemma download_first_success_witness :
  Download.downloadFile 4 Sample.server false false
    (fun k => if (k <? 2)%nat then Left "bad status: 500" else Right 100)
    Sample.item background
  = Some (Download.Returns (schedule 0 3, Right 100)).
Proof.
  apply (download_first_success Sample.server
           (fun k => if (k <? 2)%nat then Left "bad status: 500" else Right 100)
           Sample.item 2 100).
  - cbn. lia.
  - cbn. lia.
  - cbn. lia.
  - reflexivity.
  - intros j Hj. destruct j as [|[|j]]; [reflexivity|reflexivity|lia].
Defined.

Lemma totalSleep_schedule (start n : nat) :
  totalSleep (schedule start (S n)) = backoff start * (2 ^ Z.of_nat n - 1).
Proof.
  revert start. induction n as [|n IH]; intros start.
  - change (totalSleep (schedule start 1)) with 0.
    change (Z.of_nat 0) with 0. rewrite Z.pow_0_r. lia.
  - rewrite schedule_more. unfold totalSleep in *.
    cbn [Retry.sleeps List.flat_map app List.fold_right].
    change (List.flat_map
              (fun e => match e with Retry.Sleep d => [d] | _ => [] end)
              (schedule (S start) (S n)))
      with (Retry.sleeps (schedule (S start) (S n))).
    rewrite IH. unfold backoff.
    rewrite !Nat2Z.inj_succ, !Z.pow_succ_r by lia. lia.
Qed.

(** Whatever the fuel, a run of the retrying combinator that ends is a
    schedule of tries, no more of them than the policy grants. *)
Lemma Retrying_run (cfg : Download.Server) (http : nat -> Either Z) :
  0 <= Download.MaxRetries cfg <= 10 ->
  forall (fuel : nat) (status : Retry.RetryStatus) (ctx : Context)
         (events : list Retry.Event) (result : Either Z),
    (Retry.IterNumber status <= Z.to_nat (Download.MaxRetries cfg))%nat ->
    Retry.Retrying fuel (Download.policy cfg) (Download.action http) Download.check
      status ctx = Some (events, result) ->
    events = schedule (Retry.IterNumber status) (Retry.attempts events)
    /\ (1 <= Retry.attempts events)%nat
    /\ (Retry.IterNumber status + Retry.attempts events
        <= S (Z.to_nat (Download.MaxRetries cfg)))%nat.
Proof.
  intros Hvalid. induction fuel as [|fuel IH]; intros status ctx events result Hi Hrun;
    [discriminate|].
  rewrite Retrying_step in Hrun.
  destruct (Download.action http status ctx) as [a ctx'].
  assert (Hone : forall ev : list Retry.Event,
            ev = [Retry.Attempt (Retry.IterNumber status)] ->
            ev = schedule (Retry.IterNumber status) (Retry.attempts ev)
            /\ (1 <= Retry.attempts ev)%nat
            /\ (Retry.IterNumber status + Retry.attempts ev
                <= S (Z.to_nat (Download.MaxRetries cfg)))%nat).
  { intros ev ->. rewrite attempts_Attempt, attempts_nil. simpl.
    split; [reflexivity|lia]. }
  destruct (Download.check a); [|injection Hrun as <- _; apply Hone; reflexivity].
  rewrite policy_grants in Hrun by exact Hvalid.
  destruct (Nat.ltb_spec (Retry.IterNumber status) (Z.to_nat (Download.MaxRetries cfg)))
    as [Hlt|Hge]; [|injection Hrun as <- _; apply Hone; reflexivity].
  destruct (Retry.Retrying fuel (Download.policy cfg) (Download.action http)
              Download.check (Retry.ApplyPolicy (Download.policy cfg) status) ctx')
    as [[ev r]|] eqn:Erun; [|discriminate].
  injection Hrun as <- _.
  assert (Hnext : (Retry.IterNumber (Retry.ApplyPolicy (Download.policy cfg) status)
                   <= Z.to_nat (Download.MaxRetries cfg))%nat) by (simpl; lia).
  destruct (IH _ _ _ _ Hnext Erun) as (Hev & Hn & Hle). simpl in Hev, Hle.
  rewrite attempts_Attempt, attempts_Sleep.
  split; [|lia].
  destruct (Retry.attempts ev) as [|n] eqn:En; [lia|].
  rewrite schedule_more, <- Hev. reflexivity.
Qed.

(** Under a validated configuration a download whose requests all end
    comes to an end itself, within one try and the retries allowed: with
    the run-time panic when the checksum is shorter than the 12
    characters sliced off it, by returning otherwise. Whenever it
    returns, it has made no more tries than one and the retries
    allowed, and the time it has spent asleep between them depends on
    their number only: 5 ms times (2^(tries - 1) - 1), which is at most
    5115 ms. *)
Theorem download_total_backoff (cfg : Download.Server) (skipExists existingValid : bool)
    (http : nat -> Either Z) (f : Download.DownloadFile) (ctx : Context) :
  0 <= Download.MaxRetries cfg <= 10 ->
  (exists run,
     Download.downloadFile (S (Z.to_nat (Download.MaxRetries cfg))) cfg
       skipExists existingValid http f ctx = Some run
     /\ ((String.length (Download.checksum f) < 12)%nat ->
         run = Download.Panics "slice bounds out of range [:12]")
     /\ ((12 <= String.length (Download.checksum f))%nat ->
         exists events result, run = Download.Returns (events, result)))
  /\ forall (fuel : nat) (events : list Retry.Event) (result : Either Z),
       Download.downloadFile fuel cfg skipExists existingValid http f ctx
         = Some (Download.Returns (events, result)) ->
       (Retry.attempts events <= S (Z.to_nat (Download.MaxRetries cfg)))%nat
       /\ totalSleep events
          = 5 * Download.Millisecond * (2 ^ Z.of_nat (Retry.attempts events - 1) - 1)
       /\ totalSleep events <= 5115 * Download.Millisecond.
Proof.
  intros Hvalid. split.
  - unfold Download.downloadFile.
    destruct (Nat.ltb_spec (String.length (Download.checksum f)) 12) as [Hshort|Hlong].
    { eexists. split; [reflexivity|]. split; [reflexivity|lia]. }
    assert (Hreturns : forall r : list Retry.Event * Either Z,
              exists run, Some (Download.Returns r) = Some run
              /\ ((String.length (Download.checksum f) < 12)%nat ->
                  run = Download.Panics "slice bounds out of range [:12]")
              /\ ((12 <= String.length (Download.checksum f))%nat ->
                  exists events result, run = Download.Returns (events, result))).
    { intros [events result]. eexists. split; [reflexivity|].
      split; [lia|]. intros _. eauto. }
    destruct (poll ctx) as [[] ctx']; [apply Hreturns|].
    destruct (skipExists && existingValid); [apply Hreturns|].
    destruct (Retrying_schedule cfg http Hvalid (Z.to_nat (Download.MaxRetries cfg))
                Retry.DefaultRetryStatus ctx')
      as (events & result & Hrun & _); [reflexivity|].
    rewrite Hrun. apply Hreturns.
  - intros fuel events result Hrun. unfold Download.downloadFile in Hrun.
    destruct (String.length (Download.checksum f) <? 12)%nat; [discriminate|].
    assert (Hnone : (Retry.attempts [] <= S (Z.to_nat (Download.MaxRetries cfg)))%nat
                    /\ totalSleep []
                       = 5 * Download.Millisecond
                         * (2 ^ Z.of_nat (Retry.attempts [] - 1) - 1)
                    /\ totalSleep [] <= 5115 * Download.Millisecond).
    { split; [rewrite attempts_nil; lia|].
      split; vm_compute; [reflexivity|discriminate]. }
    destruct (poll ctx) as [[] ctx']; [injection Hrun as <- _; exact Hnone|].
    destruct (skipExists && existingValid); [injection Hrun as <- _; exact Hnone|].
    destruct (Retry.Retrying fuel (Download.policy cfg) (Download.action http)
                Download.check Retry.DefaultRetryStatus ctx') as [[ev r]|] eqn:Erun;
      [|discriminate].
    injection Hrun as <- _.
    assert (Hfirst : (Retry.IterNumber Retry.DefaultRetryStatus
                      <= Z.to_nat (Download.MaxRetries cfg))%nat) by (simpl; lia).
    destruct (Retrying_run cfg http Hvalid fuel _ _ _ _ Hfirst Erun)
      as (Hev & Hn & Hle).
    simpl in Hev, Hle. split; [lia|].
    destruct (Retry.attempts ev) as [|a] eqn:Ea; [lia|].
    rewrite Hev, totalSleep_schedule. unfold backoff.
    replace (S a - 1)%nat with a by lia. rewrite Z.pow_0_r, Z.mul_1_r.
    split; [reflexivity|].
    assert (Ha : (a <= 10)%nat) by lia.
    assert (Hp : 2 ^ Z.of_nat a <= 2 ^ 10) by (apply Z.pow_le_mono_r; lia).
    unfold Download.Millisecond. lia.
Qed.

Lemma download_total_backoff_witness :
  let events :=
    [Retry.Attempt 0; Retry.Sleep 5000000; Retry.Attempt 1; Retry.Sleep 10000000;
     Retry.Attempt 2; Retry.Sleep 20000000; Retry.Attempt 3] in
  Download.downloadFile 4 Sample.server false false Sample.alwaysFails Sample.item
    background = Some (Download.Returns (events, Left "bad status: 500"))
  /\ (Retry.attempts events <= S (Z.to_nat (Download.MaxRetries Sample.server)))%nat
  /\ totalSleep events
     = 5 * Download.Millisecond * (2 ^ Z.of_nat (Retry.attempts events - 1) - 1)
  /\ totalSleep events <= 5115 * Download.Millisecond.
Proof.
  cbv zeta.
  assert (Hvalid : 0 <= Download.MaxRetries Sample.server <= 10) by (cbn; lia).
  assert (Hrun : Download.downloadFile 4 Sample.server false false Sample.alwaysFails
                   Sample.item background
                 = Some (Download.Returns
                     ([Retry.Attempt 0; Retry.Sleep 5000000; Retry.Attempt 1;
                       Retry.Sleep 10000000; Retry.Attempt 2; Retry.Sleep 20000000;
                       Retry.Attempt 3], Left "bad status: 500")))
    by (vm_compute; reflexivity).
  split; [exact Hrun|].
  exact (proj2 (download_total_backoff Sample.server false false Sample.alwaysFails
                  Sample.item background Hvalid) 4%nat _ _ Hrun).
Defined.

(** ** Records: what a document gives *)

(** A document gives a row exactly when its four attributes are there:
    the row then carries country+doc-number+kind as its [patent_id] and
    the status, neither of them empty; a document without one of the
    attributes gives the error "missing required attributes", and
    nothing else makes a document fail. *)
Theorem exchangeDocumentFromNode_outcome (node : Xml.Node) :
  match Parse.exchangeDocumentFromNode node with
  | Right row =>
      hasRequiredAttributes node = true
      /\ Parse.patent_id row
         = Xml.SelectAttr node "country" ++ Xml.SelectAttr node "doc-number"
             ++ Xml.SelectAttr node "kind"
      /\ Parse.patent_id row <> ""
      /\ Parse.status row = Xml.SelectAttr node "status"
      /\ Parse.status row <> ""
  | Left err =>
      hasRequiredAttributes node = false /\ err = "missing required attributes"
  end.
Proof.
  unfold Parse.exchangeDocumentFromNode, Parse.documentOfNode, hasRequiredAttributes.
  destruct (Xml.SelectAttr node "country") as [|c0 country] eqn:Ec; [simpl; auto|].
  destruct (Xml.SelectAttr node "doc-number") as [|d0 number] eqn:Ed; [simpl; auto|].
  destruct (Xml.SelectAttr node "kind") as [|k0 kind] eqn:Ek; [simpl; auto|].
  destruct (Xml.SelectAttr node "status") as [|s0 status] eqn:Es; [simpl; auto|].
  simpl. repeat split; discriminate.
Qed.

Lemma publicationReferenceFromNode_Left (pr : Xml.Node) :
  lacksFormatOrDocumentId pr = true ->
  exists err, Parse.publicationReferenceFromNode pr = Left err.
Proof.
  unfold lacksFormatOrDocumentId, Parse.publicationReferenceFromNode, Xml.FindOne.
  destruct (Str.isEmpty (Xml.SelectAttr pr "data-format")); simpl; [eauto|].
  destruct (Xml.childrenNamed "document-id" pr); simpl; [eauto|discriminate].
Qed.

Lemma familyMembersFromNode_dropped (node fam pr : Xml.Node) :
  In fam (familyMemberNodes node) ->
  In pr (Xml.childrenNamed "publication-reference" fam) ->
  lacksFormatOrDocumentId pr = true ->
  Parse.familyMembersFromNode node = [].
Proof.
  intros Hfam Hpr Hlacks. unfold Parse.familyMembersFromNode. simpl.
  destruct (publicationReferenceFromNode_Left pr Hlacks) as [err Herr].
  destruct (TraverseArray_Left _ _ _ _ Hpr Herr) as [e He].
  assert (Hmember : Parse.familyMemberFromNode fam = Left e).
  { unfold Parse.familyMemberFromNode. simpl. rewrite He. reflexivity. }
  fold (familyMemberNodes node).
  destruct (TraverseArray_Left _ _ _ _ Hfam Hmember) as [e' ->]. reflexivity.
Qed.

(** One publication reference without its [data-format] or its
    [document-id], anywhere in the family of a document, makes the
    document lose its whole family: the row is still given, with an
    empty [family_patents]. *)
Theorem malformed_reference_empties_family_patents (node fam pr : Xml.Node) :
  hasRequiredAttributes node = true ->
  In fam (familyMemberNodes node) ->
  In pr (Xml.childrenNamed "publication-reference" fam) ->
  lacksFormatOrDocumentId pr = true ->
  exists row, Parse.exchangeDocumentFromNode node = Right row
              /\ Parse.family_patents row = "".
Proof.
  intros Hattrs Hfam Hpr Hlacks.
  unfold Parse.exchangeDocumentFromNode, Parse.documentOfNode.
  unfold hasRequiredAttributes in Hattrs.
  destruct (Str.isEmpty (Xml.SelectAttr node "country")); [discriminate|].
  destruct (Str.isEmpty (Xml.SelectAttr node "doc-number")); [discriminate|].
  destruct (Str.isEmpty (Xml.SelectAttr node "kind")); [discriminate|].
  destruct (Str.isEmpty (Xml.SelectAttr node "status")); [discriminate|].
  simpl. eexists. split; [reflexivity|]. simpl.
  unfold Parse.familyList, Parse.familySet. simpl.
  rewrite (familyMembersFromNode_dropped node fam pr Hfam Hpr Hlacks). reflexivity.
Qed.

Lemma malformed_reference_witness :
  exists row, Parse.exchangeDocumentFromNode Sample.withNoFormat = Right row
              /\ Parse.family_patents row = "".
Proof.
  apply (malformed_reference_empties_family_patents Sample.withNoFormat
           Sample.family Sample.noFormat).
  - vm_compute. reflexivity.
  - vm_compute. left. reflexivity.
  - vm_compute. right. left. reflexivity.
  - vm_compute. reflexivity.
Defined.

Lemma TraverseArray_citations (nodes : list Xml.Node) :
  exists cits,
    ET.TraverseArray Parse.citationFromNode nodes = Right cits
    /\ Forall2 (fun n c => Parse.citationFromNode n = Right c) nodes cits.
Proof.
  induction nodes as [|n nodes (cits & Hrun & Hall)].
  - exists []. split; [reflexivity|constructor].
  - destruct (Parse.citationFromNode n) as [e|c] eqn:En;
      [unfold Parse.citationFromNode in En; discriminate|].
    exists (c :: cits). split.
    + cbn [ET.TraverseArray]. rewrite En, Hrun. reflexivity.
    + constructor; assumption.
Qed.

(** No citation is ever dropped when a document is read: the citations
    of the document are, one for one and in order, what each [citation]
    node gives, and no category of a citation is empty. *)
Theorem citations_one_per_node (node : Xml.Node) :
  Forall2 (fun n c => Parse.citationFromNode n = Right c)
    (citationNodes node) (Parse.citationsFromNode node)
  /\ length (Parse.citationsFromNode node) = length (citationNodes node)
  /\ Forall (fun c => Forall (fun s => s <> "") (Parse.Categories c))
       (Parse.citationsFromNode node).
Proof.
  unfold Parse.citationsFromNode. fold (citationNodes node). simpl.
  destruct (TraverseArray_citations (citationNodes node)) as (cits & -> & Hall).
  simpl. split; [exact Hall|]. split.
  - symmetry. eapply Forall2_length. exact Hall.
  - clear -Hall. induction Hall as [|n c nodes cits Hc _ IH]; constructor; [|exact IH].
    unfold Parse.citationFromNode in Hc. injection Hc as <-. simpl.
    apply Forall_forall. intros s Hs.
    apply list_elem_of_In, filter_In in Hs as [_ Hs].
    intros ->. discriminate.
Qed.

(** ** One XML file: its rows, and what the worker does with them *)

Lemma traverseDocuments_rows (nodes : list Xml.Node) (ctx : Context)
    (rows : list Parse.CsvRow) :
  Parse.traverseDocuments ctx nodes = Right rows ->
  Forall2 (fun node row => Parse.exchangeDocumentFromNode node = Right row) nodes rows.
Proof.
  revert ctx rows. induction nodes as [|node nodes IH]; intros ctx rows H; simpl in H.
  - injection H as <-. constructor.
  - destruct (poll ctx) as [[] ctx']; [discriminate|].
    destruct (Parse.exchangeDocumentFromNode node) as [e|row] eqn:En; [discriminate|].
    destruct (Parse.traverseDocuments ctx' nodes) as [e|rows'] eqn:Er; [discriminate|].
    injection H as <-. constructor; [exact En|]. eapply IH. exact Er.
Qed.

(** When a file is processed without error, it was opened and parsed,
    and its rows are those of its [exchange-document] elements, one for
    one and in the order of the document. *)
Theorem processSingleXML_rows_in_order (ctx : Context) (file : Parse.File)
    (rows : list Parse.CsvRow) :
  Parse.processSingleXML ctx file = Right rows ->
  Parse.OpenErr file = None
  /\ Parse.StatErr file = None
  /\ exists doc,
       Parse.Parsed file = Right doc
       /\ Forall2 (fun node row => Parse.exchangeDocumentFromNode node = Right row)
            (Parse.exchangeDocuments doc) rows
       /\ length rows = length (Parse.exchangeDocuments doc).
Proof.
  unfold Parse.processSingleXML. intros H.
  destruct (Parse.OpenErr file); [discriminate|].
  destruct (poll ctx) as [[] ctx0]; [discriminate|].
  destruct (Parse.StatErr file); [discriminate|].
  destruct (poll ctx0) as [[] ctx1]; [discriminate|].
  destruct (Parse.Parsed file) as [e|doc]; [discriminate|].
  destruct (poll ctx1) as [[] ctx2]; [discriminate|].
  apply traverseDocuments_rows in H.
  split; [reflexivity|]. split; [reflexivity|]. exists doc.
  split; [reflexivity|]. split; [exact H|].
  symmetry. eapply Forall2_length. exact H.
Qed.

Lemma processSingleXML_rows_witness :
  Parse.OpenErr (Sample.fileOf [Sample.valid; Sample.withNoScheme]) = None
  /\ Parse.StatErr (Sample.fileOf [Sample.valid; Sample.withNoScheme]) = None
  /\ exists doc,
       Parse.Parsed (Sample.fileOf [Sample.valid; Sample.withNoScheme]) = Right doc
       /\ Forall2 (fun node row => Parse.exchangeDocumentFromNode node = Right row)
            (Parse.exchangeDocuments doc)
            (ET.GetOrElse (fun _ => [])
               (Parse.processSingleXML background
                  (Sample.fileOf [Sample.valid; Sample.withNoScheme])))
       /\ length (ET.GetOrElse (fun _ => [])
                    (Parse.processSingleXML background
                       (Sample.fileOf [Sample.valid; Sample.withNoScheme])))
          = length (Parse.exchangeDocuments doc).
Proof.
  apply (processSingleXML_rows_in_order background
           (Sample.fileOf [Sample.valid; Sample.withNoScheme])).
  vm_compute. reflexivity.
Defined.

(** ** The output: what a write does *)

Ltac fields := cbn [Parse.Output Parse.Buffer Parse.Failed Parse.Room Parse.Rows].

Lemma writes_refl (w : Parse.Writer) : writes [] w w.
Proof.
  unfold writes. rewrite app_nil_r. split; [reflexivity|]. split; [reflexivity|].
  split; [auto|]. split; auto.
Qed.

Lemma writes_trans (s1 s2 : list ascii) (w w1 w2 : Parse.Writer) :
  writes s1 w w1 -> writes s2 w1 w2 -> writes (s1 ++ s2) w w2.
Proof.
  intros (A1 & A2 & A3 & A4 & A5) (B1 & B2 & B3 & B4 & B5).
  unfold writes. split; [etransitivity; eassumption|]. split; [|split; [|split]].
  - destruct (Parse.Failed w1) as [e|] eqn:E1.
    + assert (Hsame : held w2 = held w1) by (apply B4; congruence).
      unfold held in Hsame. injection Hsame as H1 H2 _ _.
      unfold stream in *. rewrite H1, H2, app_assoc. apply prefix_app_r. exact A2.
    + destruct (A3 eq_refl) as [E _]. rewrite E, <- app_assoc in B2. exact B2.
  - intros H2. destruct (B3 H2) as [E2 H1]. destruct (A3 H1) as [E1 H0].
    rewrite E2, E1, <- app_assoc. auto.
  - intros H0. assert (H1 : held w1 = held w) by auto. rewrite <- H1. apply B4.
    unfold held in H1. injection H1 as _ _ H1 _. congruence.
  - auto.
Qed.

(** A write that has failed has written the beginning of any longer
    text as well. *)
Lemma writes_more (s s' : list ascii) (w w' : Parse.Writer) :
  writes s w w' -> Parse.Failed w' <> None -> s `prefix_of` s' -> writes s' w w'.
Proof.
  intros (A1 & A2 & A3 & A4 & A5) Hfailed [k ->]. unfold writes.
  split; [exact A1|]. split; [|split; [|split]]; auto.
  - rewrite app_assoc. apply prefix_app_r. exact A2.
  - intros H. contradiction.
Qed.

Lemma store_writes (s : list ascii) (w : Parse.Writer) :
  Parse.Failed w = None -> writes s w (Parse.store s w).
Proof.
  intros H0. unfold writes, stream, held, Parse.Budget, Parse.store. fields.
  rewrite app_assoc. split; [reflexivity|]. split; [reflexivity|].
  split; [auto|]. split; [congruence|auto].
Qed.

Lemma takes_le (w : Parse.Writer) (n : nat) : (Parse.takes w n <= n)%nat.
Proof. unfold Parse.takes. destruct (Parse.Room w); lia. Qed.

Lemma writeThrough_writes (s : list ascii) (w : Parse.Writer) :
  Parse.Failed w = None -> Parse.Buffer w = [] ->
  writes s w (Parse.writeThrough s w).
Proof.
  intros H0 Hb. unfold writes, stream, held, Parse.Budget, Parse.writeThrough. fields.
  rewrite Hb, H0, !app_nil_r.
  split; [apply prefix_app_r; reflexivity|].
  split; [apply prefix_app, prefix_take|].
  split; [|split; [congruence|]].
  - destruct (Nat.ltb_spec (Parse.takes w (length s)) (length s));
      [intros Hx; cbv iota in Hx; discriminate Hx|].
    intros _. rewrite take_ge by lia. auto.
  - intros Hroom. unfold Parse.takes. rewrite Hroom.
    rewrite Nat.ltb_irrefl. reflexivity.
Qed.

Lemma Flush_writes (w : Parse.Writer) : writes [] w (Parse.Flush w).
Proof.
  unfold Parse.Flush. destruct (Parse.Failed w) as [e|] eqn:H0; [apply writes_refl|].
  unfold writes, stream, held, Parse.Budget. fields.
  rewrite H0, <- !app_assoc, take_drop, app_nil_r.
  split; [apply prefix_app_r; reflexivity|]. split; [reflexivity|].
  split; [auto|]. split; [congruence|].
  intros Hroom. unfold Parse.takes. rewrite Hroom.
  rewrite Nat.ltb_irrefl. reflexivity.
Qed.

Lemma Flush_empties (w : Parse.Writer) :
  Parse.Failed (Parse.Flush w) = None -> Parse.Buffer (Parse.Flush w) = [].
Proof.
  unfold Parse.Flush. destruct (Parse.Failed w) as [e|] eqn:H0; [congruence|]. fields.
  destruct (Nat.ltb_spec (Parse.takes w (length (Parse.Buffer w)))
              (length (Parse.Buffer w))); [intros Hx; cbv iota in Hx; discriminate Hx|].
  intros _. apply drop_ge. lia.
Qed.

Lemma WriteString_writes (s : list ascii) (w : Parse.Writer) :
  writes s w (Parse.WriteString s w).
Proof.
  unfold Parse.WriteString.
  destruct (Parse.Failed w) as [e|] eqn:H0.
  { apply (writes_more [] s w w); [apply writes_refl|congruence|apply prefix_nil]. }
  destruct (length s <=? Parse.Available w)%nat; [apply store_writes; exact H0|].
  destruct (Nat.eqb_spec (length (Parse.Buffer w)) 0) as [Hb|Hb].
  { apply writeThrough_writes; [exact H0|]. apply nil_length_inv. exact Hb. }
  cbv zeta.
  set (n := Parse.Available w).
  set (w1 := Parse.Flush (Parse.store (take n s) w)).
  assert (H1 : writes (take n s) w w1).
  { rewrite <- (app_nil_r (take n s)).
    eapply writes_trans; [apply store_writes; exact H0|apply Flush_writes]. }
  destruct (Parse.Failed w1) as [e|] eqn:E1.
  { apply (writes_more (take n s)); [exact H1|congruence|apply prefix_take]. }
  rewrite <- (take_drop n s) at 1.
  eapply writes_trans; [exact H1|].
  destruct (length (drop n s) <=? Parse.Available w1)%nat;
    [apply store_writes; exact E1|].
  apply writeThrough_writes; [exact E1|]. apply Flush_empties. exact E1.
Qed.

Lemma WriteByte_writes (c : ascii) (w : Parse.Writer) :
  writes [c] w (Parse.WriteByte c w).
Proof.
  unfold Parse.WriteByte.
  destruct (Parse.Failed w) as [e|] eqn:H0.
  { apply (writes_more [] [c] w w); [apply writes_refl|congruence|apply prefix_nil]. }
  cbv zeta.
  set (w1 := if (Parse.Available w =? 0)%nat then Parse.Flush w else w).
  assert (H1 : writes [] w w1).
  { subst w1. destruct (Parse.Available w =? 0)%nat;
      [apply Flush_writes|apply writes_refl]. }
  destruct (Parse.Failed w1) as [e|] eqn:E1.
  { apply (writes_more []); [exact H1|congruence|apply prefix_nil]. }
  change [c] with ([] ++ [c])%list.
  eapply writes_trans; [exact H1|apply store_writes; exact E1].
Qed.

(** The bytes of a field between its quotes. *)
Lemma writeQuoted_writes (field : string) (seg : list ascii) (w : Parse.Writer) :
  writes (seg ++ List.flat_map
                   (fun c => if decide (c = Parse.quote) then [c; c] else [c])
                   (Parse.bytes field))
    w (Parse.writeQuoted seg field w).
Proof.
  revert seg w. induction field as [|c rest IH]; intros seg w;
    cbn [Parse.writeQuoted Parse.bytes list_ascii_of_string List.flat_map].
  - rewrite app_nil_r. destruct seg as [|a seg]; [apply writes_refl|].
    apply WriteString_writes.
  - fold (Parse.bytes rest).
    destruct (decide (c = Parse.quote)) as [->|Hq].
    + eapply writes_trans; [apply WriteString_writes|].
      change ([Parse.quote; Parse.quote] ++ ?l)%list
        with ([Parse.quote; Parse.quote] ++ ([] ++ l))%list.
      eapply writes_trans; [apply WriteString_writes|apply IH].
    + destruct (decide (c = Parse.CR \/ c = Parse.LF)).
      * eapply writes_trans; [apply WriteString_writes|].
        change ([c] ++ ?l)%list with ([c] ++ ([] ++ l))%list.
        eapply writes_trans; [apply WriteByte_writes|apply IH].
      * change ([c] ++ ?l)%list with ([c] ++ l)%list.
        rewrite (app_assoc seg [c]). apply IH.
Qed.

Lemma writeField_writes (field : string) (w : Parse.Writer) :
  writes (csvField field) w (Parse.writeField field w).
Proof.
  unfold csvField, Parse.writeField.
  destruct (Parse.fieldNeedsQuotes field); [|apply WriteString_writes].
  change (Parse.quote :: ?l ++ [Parse.quote])%list
    with ([Parse.quote] ++ (([] ++ l) ++ [Parse.quote]))%list.
  eapply writes_trans; [apply WriteByte_writes|].
  eapply writes_trans; [apply writeQuoted_writes|apply WriteByte_writes].
Qed.

Lemma writeFields_writes (record : list string) (first : bool) (w : Parse.Writer) :
  writes (csvFields first record) w (Parse.writeFields first record w).
Proof.
  revert first w. induction record as [|field rest IH]; intros first w;
    cbn [csvFields Parse.writeFields]; [apply writes_refl|].
  rewrite app_assoc. eapply writes_trans; [|apply IH].
  eapply writes_trans; [|apply writeField_writes].
  destruct first; [apply writes_refl|apply WriteByte_writes].
Qed.

Lemma writes_held (s : list ascii) (w w1 w2 : Parse.Writer) :
  writes s w w1 -> held w2 = held w1 -> writes s w w2.
Proof.
  intros (A1 & A2 & A3 & A4 & A5) Hsame. unfold held in Hsame.
  injection Hsame as H1 H2 H3 H4.
  unfold writes, stream, held, Parse.Budget in *. rewrite H1, H2, H3, H4.
  auto.
Qed.

(** The calls on the buffer leave the list of records alone. *)
Lemma Rows_Flush (w : Parse.Writer) : Parse.Rows (Parse.Flush w) = Parse.Rows w.
Proof. unfold Parse.Flush. destruct (Parse.Failed w); reflexivity. Qed.

Lemma Rows_WriteString (s : list ascii) (w : Parse.Writer) :
  Parse.Rows (Parse.WriteString s w) = Parse.Rows w.
Proof.
  unfold Parse.WriteString. destruct (Parse.Failed w); [reflexivity|].
  destruct (_ <=? _)%nat; [reflexivity|]. destruct (_ =? _)%nat; [reflexivity|].
  cbv zeta.
  destruct (Parse.Failed (Parse.Flush _)); [|destruct (_ <=? _)%nat];
    cbn [Parse.Rows Parse.store Parse.writeThrough];
    rewrite Rows_Flush; reflexivity.
Qed.

Lemma Rows_WriteByte (c : ascii) (w : Parse.Writer) :
  Parse.Rows (Parse.WriteByte c w) = Parse.Rows w.
Proof.
  unfold Parse.WriteByte. destruct (Parse.Failed w); [reflexivity|]. cbv zeta.
  destruct (_ =? _)%nat; [|destruct (Parse.Failed w); reflexivity].
  destruct (Parse.Failed (Parse.Flush w)); cbn [Parse.Rows Parse.store];
    apply Rows_Flush.
Qed.

Lemma Rows_writeQuoted (field : string) (seg : list ascii) (w : Parse.Writer) :
  Parse.Rows (Parse.writeQuoted seg field w) = Parse.Rows w.
Proof.
  revert seg w. induction field as [|c rest IH]; intros seg w; cbn [Parse.writeQuoted].
  - destruct seg; [reflexivity|apply Rows_WriteString].
  - destruct (decide _); [rewrite IH, !Rows_WriteString; reflexivity|].
    destruct (decide _); [rewrite IH, Rows_WriteByte, Rows_WriteString; reflexivity|].
    apply IH.
Qed.

Lemma Rows_writeFields (record : list string) (first : bool) (w : Parse.Writer) :
  Parse.Rows (Parse.writeFields first record w) = Parse.Rows w.
Proof.
  revert first w. induction record as [|field rest IH]; intros first w;
    cbn [Parse.writeFields]; [reflexivity|].
  rewrite IH. unfold Parse.writeField.
  assert (H : Parse.Rows (if first then w else Parse.WriteByte ","%char w)
              = Parse.Rows w)
    by (destruct first; [reflexivity|apply Rows_WriteByte]).
  destruct (Parse.fieldNeedsQuotes field).
  - rewrite Rows_WriteByte, Rows_writeQuoted, Rows_WriteByte. exact H.
  - rewrite Rows_WriteString. exact H.
Qed.

(** One record: its line goes to the writer, and the record is added to
    the list exactly when no call on the buffer has failed. *)
Lemma write_spec (w w' : Parse.Writer) (row : list string) (r : option string) :
  Parse.write w row = (w', r) ->
  writes (csvLine row) w w'
  /\ ((r = None /\ Parse.Failed w' = None
       /\ Parse.Rows w' = (Parse.Rows w ++ [row])%list)
      \/ (exists e, r = Some e /\ Parse.Failed w' = Some e
                    /\ Parse.Rows w' = Parse.Rows w)).
Proof.
  unfold Parse.write. cbv zeta.
  set (w1 := Parse.WriteByte Parse.LF (Parse.writeFields true row w)).
  assert (H1 : writes (csvLine row) w w1).
  { unfold csvLine. eapply writes_trans;
      [apply writeFields_writes|apply WriteByte_writes]. }
  assert (Hrows : Parse.Rows w1 = Parse.Rows w).
  { subst w1. rewrite Rows_WriteByte. apply Rows_writeFields. }
  destruct (Parse.Failed w1) as [e|] eqn:E1; intros [= <- <-].
  - split; [exact H1|]. right. exists e. auto.
  - split.
    + eapply writes_held; [exact H1|]. unfold held. fields. rewrite E1. reflexivity.
    + left. fields. rewrite Hrows. auto.
Qed.

(** The records of one file: their lines go to the writer in order, and
    the records taken are the first ones of the file. *)
Lemma writeRecords_spec (records : list Parse.CsvRow) (w w' : Parse.Writer)
    (res : Either (list (list string))) :
  Parse.writeRecords w records = (w', res) ->
  writes (concat (List.map csvLine (List.map Parse.fields records))) w w'
  /\ exists written,
       Parse.Rows w' = (Parse.Rows w ++ written)%list
       /\ written `prefix_of` List.map Parse.fields records
       /\ (forall all, res = Right all -> all = List.map Parse.fields records)
       /\ (Parse.Budget w = None ->
           written = List.map Parse.fields records
           /\ res = Right written /\ Parse.Budget w' = None).
Proof.
  revert w w' res. induction records as [|record records IH]; intros w w' res H;
    cbn [Parse.writeRecords] in H.
  - injection H as <- <-. split; [apply writes_refl|]. exists [].
    rewrite app_nil_r. split; [reflexivity|]. split; [reflexivity|].
    split; [intros all [= <-]; reflexivity|auto].
  - destruct (Parse.write w (Parse.fields record)) as [w1 r1] eqn:Ew.
    destruct (write_spec _ _ _ _ Ew) as [H1 Hr]. cbn [List.map concat].
    destruct Hr as [(-> & Hok & Hrows)|(e & -> & Hbad & Hrows)].
    + destruct (Parse.writeRecords w1 records) as [w2 res2] eqn:Er.
      destruct (IH _ _ _ Er) as (H2 & written & Hrows2 & Hpre & Hall & Hfull).
      assert (Hw : w' = w2) by (destruct res2; congruence). subst w'.
      split; [eapply writes_trans; eassumption|].
      exists (Parse.fields record :: written). split; [|split; [|split]].
      * rewrite Hrows2, Hrows, <- app_assoc. reflexivity.
      * apply prefix_cons. exact Hpre.
      * intros all Hres. destruct res2 as [e|rows]; [congruence|].
        injection H as <-. injection Hres as <-. rewrite (Hall rows eq_refl).
        reflexivity.
      * intros Hb. destruct H1 as (_ & _ & _ & _ & Hb1).
        destruct (Hfull (Hb1 Hb)) as (-> & -> & Hb2).
        injection H as <-. auto.
    + injection H as <- <-. split.
      * apply (writes_more (csvLine (Parse.fields record)));
          [exact H1|congruence|apply prefix_app_r; reflexivity].
      * exists []. rewrite app_nil_r. split; [exact Hrows|].
        split; [apply prefix_nil|]. split; [discriminate|].
        intros Hb. destruct H1 as (_ & _ & _ & _ & Hb1). specialize (Hb1 Hb).
        unfold Parse.Budget in Hb1. rewrite Hbad in Hb1. discriminate.
Qed.

Lemma flush_spec (w : Parse.Writer) :
  writes [] w (Parse.flush w).1
  /\ Parse.Rows (Parse.flush w).1 = Parse.Rows w
  /\ (Parse.flush w).2 = Parse.Failed (Parse.flush w).1.
Proof.
  unfold Parse.flush. cbn [fst snd]. split; [apply Flush_writes|].
  split; [apply Rows_Flush|reflexivity].
Qed.

Lemma Budget_not_failed (w : Parse.Writer) :
  Parse.Budget w = None -> Parse.Failed w = None.
Proof. unfold Parse.Budget. destruct (Parse.Failed w); [discriminate|reflexivity]. Qed.

(** A file processed without error, on an output that takes every
    write: the worker appends the rows of the file, all of them and in
    order, after what the output held; it counts the rows and one
    success, and leaves the failure count and the error channel alone. *)
Theorem fileWorker_appends_rows (ctx : Context) (path : string) (file : Parse.File)
    (s : Parse.Session) (records : list Parse.CsvRow) :
  Parse.processSingleXML ctx file = Right records ->
  Parse.Budget (Parse.writer s) = None ->
  let after := Parse.fileWorker ctx path file s in
  Parse.Rows (Parse.writer after)
    = (Parse.Rows (Parse.writer s) ++ List.map Parse.fields records)%list
  /\ Parse.recordsTotal after = Parse.recordsTotal s + Z.of_nat (length records)
  /\ Parse.xmlFilesSuccess after = Parse.xmlFilesSuccess s + 1
  /\ Parse.xmlFilesFailed after = Parse.xmlFilesFailed s
  /\ Parse.processedFiles after = Parse.processedFiles s + 1
  /\ Parse.errChan after = Parse.errChan s.
Proof.
  intros Hrun Hbudget after. subst after. unfold Parse.fileWorker. rewrite Hrun.
  destruct (Parse.writeRecords (Parse.writer s) records) as [w1 res] eqn:Ew.
  destruct (writeRecords_spec _ _ _ _ Ew) as (_ & written & Hrows & _ & _ & Hall).
  destruct (Hall Hbudget) as (-> & -> & Hb).
  cbn [Parse.writer Parse.countRecords Parse.setWriter].
  destruct (flush_spec w1) as ((_ & _ & _ & _ & Hb2) & Hrows2 & Hr2).
  destruct (Parse.flush w1) as [w2 r2]. cbn [fst snd] in *.
  rewrite (Budget_not_failed w2 (Hb2 Hb)) in Hr2. subst r2.
  cbn. rewrite Hrows2, Hrows, List.length_map. auto 10.
Qed.

Lemma fileWorker_appends_witness :
  let file := Sample.fileOf [Sample.valid] in
  let records := ET.GetOrElse (fun _ => []) (Parse.processSingleXML background file) in
  let after := Parse.fileWorker background "a.xml" file Sample.freshSession in
  Parse.Rows (Parse.writer after)
    = (Parse.Rows (Parse.writer Sample.freshSession) ++ List.map Parse.fields records)%list
  /\ Parse.recordsTotal after
     = Parse.recordsTotal Sample.freshSession + Z.of_nat (length records)
  /\ Parse.xmlFilesSuccess after = Parse.xmlFilesSuccess Sample.freshSession + 1
  /\ Parse.xmlFilesFailed after = Parse.xmlFilesFailed Sample.freshSession
  /\ Parse.processedFiles after = Parse.processedFiles Sample.freshSession + 1
  /\ Parse.errChan after = Parse.errChan Sample.freshSession.
Proof.
  apply (fileWorker_appends_rows background "a.xml" (Sample.fileOf [Sample.valid])
           Sample.freshSession).
  - vm_compute. reflexivity.
  - vm_compute. reflexivity.
Defined.



(** A file that takes 60 bytes: the header and the one row of the file
    fit in the buffer, [Write] takes them, and the row is counted; the
    flush then fails, the file holds the header and the first 9 bytes
    of the row, and the file of rows is counted as failed. *)
Example flush_cuts_a_row :
  let s := Parse.newSession (Parse.newWriter (Some 60%nat)).1 in
  let after := Parse.fileWorker background "a.xml" (Sample.fileOf [Sample.valid]) s in
  Parse.Output (Parse.writer s) = []
  /\ string_of_list_ascii (Parse.Output (Parse.writer after))
     = "patent_id,status,cpc_list,citations,family_patents" ++ String Parse.LF "EP200B1,n"
  /\ Parse.recordsTotal after = 1
  /\ Parse.xmlFilesFailed after = 1
  /\ Parse.xmlFilesSuccess after = 0
  /\ Parse.errChan after = Some Parse.WriteError.
Proof. cbv zeta. repeat split; vm_compute; reflexivity. Qed.

(** ** The walk for archives *)

Lemma Path_le_total : Total Path.le.
Proof.
  intros p. unfold Path.le. induction p as [|a p IH]; intros q; [left; reflexivity|].
  destruct q as [|b q]; [right; reflexivity|]. simpl.
  destruct (decide (a = b)) as [->|Hne].
  - rewrite decide_True by reflexivity. apply IH.
  - rewrite (decide_False (P := b = a)) by congruence. apply String.leb_total.
Qed.

Lemma isZipUnder_spec (dir p : list string) (node : Extract.Inode) :
  Extract.isZipUnder dir p node = true
  <-> (exists c, node = Extract.IFile c) /\ foundBelow dir p.
Proof.
  unfold Extract.isZipUnder, foundBelow. destruct node as [|c].
  - split; [discriminate|]. intros [[c Hc] _]. discriminate.
  - rewrite andb_true_iff, bool_decide_eq_true. split.
    + intros [H1 H2]. eauto.
    + intros [_ [H1 H2]]. auto.
Qed.

Lemma elem_of_walk (dir z : list string) (fs : gmap (list string) Extract.Inode) :
  z ∈ (map_to_list (filter (fun kv => Extract.isZipUnder dir kv.1 kv.2 = true) fs)).*1
  <-> isFileAt fs z /\ foundBelow dir z.
Proof.
  rewrite list_elem_of_fmap. split.
  - intros ([z' node] & -> & Hz). apply elem_of_map_to_list in Hz.
    apply map_lookup_filter_Some in Hz as [Hz Hzip]. simpl in *.
    apply isZipUnder_spec in Hzip as [[c ->] Hfound]. split; [exists c; exact Hz|exact Hfound].
  - intros [[c Hc] Hfound]. exists (z, Extract.IFile c). split; [reflexivity|].
    apply elem_of_map_to_list, map_lookup_filter_Some. split; [exact Hc|].
    apply (proj2 (isZipUnder_spec dir z (Extract.IFile c))). eauto.
Qed.

Lemma walk_exact (dir : list string)
    (fs : gmap (list string) Extract.Inode) (zipFiles : list (list string)) :
  Extract.findAllZipFilesRecursive dir fs = Right zipFiles ->
  NoDup zipFiles
  /\ Sorted Path.le zipFiles
  /\ forall z, z ∈ zipFiles <-> isFileAt fs z /\ foundBelow dir z.
Proof.
  unfold Extract.findAllZipFilesRecursive.
  destruct (Extract.stat fs dir); [|discriminate]. intros [= <-].
  split; [|split].
  - rewrite merge_sort_Permutation. apply NoDup_fst_map_to_list.
  - apply Sorted_merge_sort. exact Path_le_total.
  - intros z. rewrite merge_sort_Permutation. apply elem_of_walk.
Qed.

(** ** The walk, step by step *)

Lemma string_leb_trans (a b c : string) :
  String.leb a b = true -> String.leb b c = true -> String.leb a c = true.
Proof.
  intros H1 H2. apply Is_true_true. apply Is_true_true in H1, H2.
  change (String.le a c). transitivity b; assumption.
Qed.

Lemma Path_le_refl (p : list string) : Path.le p p.
Proof.
  unfold Path.le. induction p as [|a p IH]; [reflexivity|].
  cbn [Path.leb]. rewrite decide_True by reflexivity. exact IH.
Qed.

#[global] Instance Path_le_trans : Transitive Path.le.
Proof.
  unfold Path.le. intros p. induction p as [|a p IH]; intros q r Hpq Hqr; [reflexivity|].
  destruct q as [|b q]; [discriminate|]. destruct r as [|c r]; [discriminate|].
  cbn [Path.leb] in *.
  destruct (decide (a = b)) as [->|Hab]; destruct (decide (b = c)) as [->|Hbc].
  - eauto.
  - exact Hqr.
  - rewrite decide_False by exact Hab. exact Hpq.
  - destruct (decide (a = c)) as [->|Hac].
    + exfalso. apply Hab. apply String.leb_antisym; assumption.
    + eapply string_leb_trans; eassumption.
Qed.

#[global] Instance Path_le_antisym : AntiSymm (=) Path.le.
Proof.
  unfold Path.le. intros p. induction p as [|a p IH]; intros q Hpq Hqp.
  - destruct q; [reflexivity|discriminate].
  - destruct q as [|b q]; [discriminate|]. cbn [Path.leb] in *.
    destruct (decide (a = b)) as [->|Hab].
    + rewrite decide_True in Hqp by reflexivity. f_equal. apply IH; assumption.
    + rewrite decide_False in Hqp by congruence.
      exfalso. apply Hab. apply String.leb_antisym; assumption.
Qed.

#[global] Instance Path_le_total_inst : Total Path.le.
Proof. exact Path_le_total. Qed.

#[global] Instance entryLe_trans : Transitive Extract.entryLe.
Proof. intros a b c. unfold Extract.entryLe. apply Path_le_trans. Qed.

#[global] Instance entryLe_total : Total Extract.entryLe.
Proof. intros a b. unfold Extract.entryLe. apply Path_le_total. Qed.

(** Two paths of one length that differ are in the same order whatever
    is put after them. *)
Lemma Path_le_extend (p q r1 r2 : list string) :
  length p = length q -> p <> q -> Path.le p q ->
  Path.le (p ++ r1) (q ++ r2) /\ (p ++ r1)%list <> (q ++ r2)%list.
Proof.
  unfold Path.le. revert q. induction p as [|a p IH]; intros q Hlen Hne Hle;
    destruct q as [|b q]; try discriminate; [contradiction|].
  cbn [app Path.leb] in *. injection Hlen as Hlen.
  destruct (decide (a = b)) as [->|Hab].
  - destruct (IH q Hlen) as [H1 H2]; [congruence|exact Hle|].
    split; [exact H1|congruence].
  - split; [exact Hle|congruence].
Qed.

Lemma depth_bound (fs : gmap (list string) Extract.Inode) (p : list string)
    (node : Extract.Inode) :
  fs !! p = Some node -> (length p <= depth fs)%nat.
Proof.
  intros Hp. unfold depth. apply max_list_elem_of_le.
  apply list_elem_of_fmap. exists (p, node). split; [reflexivity|].
  apply elem_of_map_to_list. exact Hp.
Qed.

Lemma stat_lookup (fs : gmap (list string) Extract.Inode) (p : list string) :
  p <> [] -> Extract.stat fs p = fs !! p.
Proof. destruct p; [contradiction|reflexivity]. Qed.

(** On a tree, what lies on the way to a path of the disk is a
    directory. *)
Lemma tree_prefix (fs : gmap (list string) Extract.Inode) (q more : list string)
    (node : Extract.Inode) :
  treeShaped fs -> q <> [] -> more <> [] ->
  fs !! (q ++ more)%list = Some node -> fs !! q = Some Extract.IDir.
Proof.
  intros Htree Hq. revert node. induction more as [|e more IH] using rev_ind;
    intros node Hmore Hz; [contradiction|].
  destruct (Htree _ _ Hz) as (_ & _ & Hdir).
  unfold Path.Dir in Hdir. rewrite app_assoc, removelast_last in Hdir.
  destruct more as [|e' more'].
  - rewrite app_nil_r in Hdir. rewrite stat_lookup in Hdir by exact Hq. exact Hdir.
  - rewrite stat_lookup in Hdir by (destruct q; discriminate).
    eapply IH; [discriminate|exact Hdir].
Qed.

Lemma Clean_clean (p : list string) : Path.isClean p -> Path.Clean true p = p.
Proof.
  intros H. unfold Path.Clean. rewrite (clean_fold_clean p []) by exact H.
  rewrite app_nil_r. apply rev_involutive.
Qed.

Lemma plainPath_isClean (p : list string) : plainPath p -> Path.isClean p.
Proof.
  unfold plainPath, Path.isClean. intros H.
  eapply Forall_impl; [exact H|]. intros e (H1 & H2 & H3 & _). auto.
Qed.

Lemma Join_Dir_Base (z : list string) :
  plainPath z -> z <> [] -> Path.Join (Path.Dir z) (Path.Base z) = z.
Proof.
  intros Hplain Hne. unfold Path.Join, Path.Dir, Path.Base.
  assert (Hlast : Path.split (List.last z "/") = [List.last z "/"]).
  { destruct (exists_last Hne) as (z' & e & ->). rewrite last_last.
    unfold plainPath in Hplain. apply Forall_app in Hplain as [_ He].
    apply Forall_cons in He as [(_ & _ & _ & He) _]. exact He. }
  rewrite Hlast, <- (app_removelast_last "/" Hne).
  apply Clean_clean, plainPath_isClean, Hplain.
Qed.

(** What [os.ReadDir] gives: the paths of the disk that lie directly in
    the directory, each once, in the order of their names. *)
Lemma ReadDir_entries (dir : list string) (fs : gmap (list string) Extract.Inode)
    (entries : list (list string * Extract.Inode)) :
  Extract.ReadDir dir fs = Right entries ->
  Extract.stat fs dir = Some Extract.IDir
  /\ StronglySorted Extract.entryLe entries
  /\ NoDup entries.*1
  /\ forall p d, (p, d) ∈ entries <-> fs !! p = Some d /\ p <> [] /\ Path.Dir p = dir.
Proof.
  unfold Extract.ReadDir. destruct (Extract.stat fs dir) as [[|c]|]; try discriminate.
  intros [= <-]. split; [reflexivity|]. split; [|split].
  - apply StronglySorted_merge_sort; apply _.
  - rewrite merge_sort_Permutation. apply NoDup_fst_map_to_list.
  - intros p d. rewrite merge_sort_Permutation, elem_of_map_to_list.
    rewrite map_lookup_filter_Some. cbn [fst snd]. tauto.
Qed.

(** A list that is sorted, without repetition, and holds the archives
    at or below a path is the list of [findAllZipFilesRecursive]. *)
Lemma listing_unique (dir : list string) (fs : gmap (list string) Extract.Inode)
    (l : list (list string)) :
  Extract.stat fs dir <> None ->
  StronglySorted Path.le l -> NoDup l ->
  (forall z, z ∈ l <-> isFileAt fs z /\ foundBelow dir z) ->
  Extract.findAllZipFilesRecursive dir fs = Right l.
Proof.
  intros Hstat Hsorted Hnodup Hmem. unfold Extract.findAllZipFilesRecursive.
  destruct (Extract.stat fs dir); [|contradiction]. f_equal.
  apply (StronglySorted_unique Path.le).
  - apply StronglySorted_merge_sort; apply _.
  - exact Hsorted.
  - rewrite merge_sort_Permutation. apply NoDup_Permutation.
    + apply NoDup_fst_map_to_list.
    + exact Hnodup.
    + intros z. rewrite elem_of_walk, Hmem. reflexivity.
Qed.

Lemma collectZip_app (path : list string) (d : Extract.Inode)
    (zipFiles : list (list string)) :
  Extract.collectZip path d zipFiles = (zipFiles ++ Extract.collectZip path d [])%list.
Proof.
  unfold Extract.collectZip.
  destruct (negb (Extract.IsDir d) && Extract.isZipName (Path.Base path));
    [reflexivity|rewrite app_nil_r; reflexivity].
Qed.

(** At a regular file the list is the file itself, or nothing. *)
Lemma listing_file (fs : gmap (list string) Extract.Inode) (p : list string)
    (c : Extract.Content) :
  treeShaped fs -> fs !! p = Some (Extract.IFile c) ->
  Extract.findAllZipFilesRecursive p fs
  = Right (Extract.collectZip p (Extract.IFile c) []).
Proof.
  intros Htree Hp.
  assert (Hne : p <> []) by (destruct (Htree _ _ Hp) as (_ & H & _); exact H).
  assert (Hself : forall z, isFileAt fs z -> p `prefix_of` z -> z = p).
  { intros z [cz Hz] [more ->]. destruct more as [|e more]; [apply app_nil_r|].
    rewrite (tree_prefix fs p (e :: more) _ Htree Hne ltac:(discriminate) Hz) in Hp.
    discriminate. }
  apply listing_unique.
  - rewrite stat_lookup by exact Hne. congruence.
  - unfold Extract.collectZip. destruct (_ && _); repeat constructor.
  - unfold Extract.collectZip. destruct (_ && _); repeat constructor. inversion 1.
  - intros z. unfold Extract.collectZip, foundBelow. cbn [Extract.IsDir negb andb].
    destruct (Extract.isZipName (Path.Base p)) eqn:Ez; split.
    + intros Hin. apply list_elem_of_singleton in Hin as ->.
      split; [exists c; exact Hp|]. split; [exact Ez|reflexivity].
    + intros (Hfile & _ & Hpre). rewrite (Hself z Hfile Hpre).
      apply list_elem_of_singleton. reflexivity.
    + inversion 1.
    + intros (Hfile & Hname & Hpre). rewrite (Hself z Hfile Hpre) in Hname. congruence.
Qed.

Lemma walk_sorted (dir : list string) (fs : gmap (list string) Extract.Inode)
    (l : list (list string)) :
  Extract.findAllZipFilesRecursive dir fs = Right l -> StronglySorted Path.le l.
Proof.
  unfold Extract.findAllZipFilesRecursive. destruct (Extract.stat fs dir); [|discriminate].
  intros [= <-]. apply StronglySorted_merge_sort; apply _.
Qed.

(** The lists of the entries of a directory, one after the other in the
    order of the entries, are sorted, without repetition, and hold what
    is at or below these entries. *)
Lemma listings_in_order (fs : gmap (list string) Extract.Inode) (n : nat)
    (entries : list (list string * Extract.Inode)) (ls : list (list (list string))) :
  Forall2 (fun e l => Extract.findAllZipFilesRecursive e.1 fs = Right l) entries ls ->
  StronglySorted Extract.entryLe entries ->
  NoDup entries.*1 ->
  (forall e, e ∈ entries -> length e.1 = n) ->
  StronglySorted Path.le (concat ls)
  /\ NoDup (concat ls)
  /\ forall z, z ∈ concat ls
       <-> exists e, e ∈ entries /\ isFileAt fs z /\ foundBelow e.1 z.
Proof.
  induction 1 as [|e l entries ls Hl Hrest IH]; intros Hsorted Hnodup Hlen.
  - cbn [concat]. split; [constructor|]. split; [constructor|].
    intros z. split; [inversion 1|]. intros (e & He & _). inversion He.
  - apply StronglySorted_inv in Hsorted as [Hsorted Hfirst].
    rewrite fmap_cons in Hnodup. apply NoDup_cons in Hnodup as [Hfresh Hnodup].
    destruct IH as (IH1 & IH2 & IH3); [assumption|assumption| |].
    { intros e' He'. apply Hlen. right. exact He'. }
    destruct (walk_exact _ _ _ Hl) as (Hl1 & _ & Hl3).
    assert (Hcross : forall x1 x2, x1 ∈ l -> x2 ∈ concat ls ->
              Path.le x1 x2 /\ x1 <> x2).
    { intros x1 x2 H1 H2. apply Hl3 in H1 as (_ & _ & [r1 ->]).
      apply IH3 in H2 as (e' & He' & _ & _ & [r2 ->]).
      apply Path_le_extend.
      - rewrite (Hlen e) by left. rewrite (Hlen e') by (right; exact He'). reflexivity.
      - intros Heq. apply Hfresh. rewrite Heq. apply list_elem_of_fmap.
        exists e'. auto.
      - rewrite Forall_forall in Hfirst. apply Hfirst. exact He'. }
    cbn [concat]. split; [|split].
    + apply StronglySorted_app_2; [|eapply walk_sorted; exact Hl|exact IH1].
      intros x1 x2 H1 H2. apply Hcross; assumption.
    + apply NoDup_app. split; [exact Hl1|]. split; [|exact IH2].
      intros x H1 H2. destruct (Hcross x x H1 H2) as [_ Hne]. congruence.
    + intros z. rewrite elem_of_app, Hl3, IH3. split.
      * intros [[Hf Hb]|(e' & He' & Hf & Hb)].
        -- exists e. split; [left|auto].
        -- exists e'. split; [right; exact He'|auto].
      * intros (e' & He' & Hf & Hb). apply elem_of_cons in He' as [->|He'].
        -- left. auto.
        -- right. eauto.
Qed.

(** At a directory the list is made of the lists of its entries. *)
Lemma listing_dir (fs : gmap (list string) Extract.Inode) (path : list string)
    (entries : list (list string * Extract.Inode)) (ls : list (list (list string))) :
  treeShaped fs ->
  Extract.ReadDir path fs = Right entries ->
  Forall2 (fun e l => Extract.findAllZipFilesRecursive e.1 fs = Right l) entries ls ->
  Extract.findAllZipFilesRecursive path fs = Right (concat ls).
Proof.
  intros Htree Hread Hls.
  destruct (ReadDir_entries _ _ _ Hread) as (Hstat & Hsorted & Hnodup & Hmem).
  assert (Hin : forall e, e ∈ entries ->
            fs !! e.1 = Some e.2 /\ e.1 = (path ++ [Path.Base e.1])%list).
  { intros [p d] He. apply Hmem in He as (Hp & Hne & Hdir). cbn [fst snd].
    split; [exact Hp|]. rewrite <- Hdir. apply app_removelast_last. exact Hne. }
  destruct (listings_in_order fs (S (length path)) entries ls Hls Hsorted Hnodup)
    as (H1 & H2 & H3).
  { intros e He. destruct (Hin e He) as [_ ->]. rewrite length_app. simpl. lia. }
  apply listing_unique; [congruence|exact H1|exact H2|].
  intros z. rewrite H3. split.
  - intros (e & He & Hfile & Hname & Hpre). split; [exact Hfile|].
    split; [exact Hname|]. destruct (Hin e He) as [_ Hpath].
    etransitivity; [|exact Hpre]. rewrite Hpath. apply prefix_app_r. reflexivity.
  - intros ([c Hz] & Hname & [more ->]).
    destruct more as [|e more].
    + exfalso. rewrite app_nil_r in Hz. destruct path as [|a path].
      * destruct (Htree _ _ Hz) as (_ & H & _). contradiction.
      * cbn [Extract.stat] in Hstat. congruence.
    + assert (Hkey : exists d, fs !! (path ++ [e])%list = Some d).
      { destruct more as [|e' more].
        - eauto.
        - exists Extract.IDir.
          apply (tree_prefix fs (path ++ [e]) (e' :: more) (Extract.IFile c) Htree).
          + destruct path; discriminate.
          + discriminate.
          + rewrite <- app_assoc. exact Hz. }
      destruct Hkey as [d Hd]. exists (path ++ [e], d)%list. split.
      * apply Hmem. split; [exact Hd|]. split; [destruct path; discriminate|].
        unfold Path.Dir. apply removelast_last.
      * split; [exists c; exact Hz|]. split; [exact Hname|].
        cbn [fst]. exists more. rewrite <- app_assoc. reflexivity.
Qed.

(** The walk from a path of a tree gives the list of
    [findAllZipFilesRecursive] for that path, after what was collected
    before, as soon as its fuel covers the depth of the tree. *)
Lemma walkDir_listing (fs : gmap (list string) Extract.Inode) :
  treeShaped fs ->
  forall (fuel : nat) (path : list string) (d : Extract.Inode) (acc : list (list string)),
    Extract.stat fs path = Some d ->
    (depth fs < fuel + length path)%nat ->
    exists l,
      Extract.findAllZipFilesRecursive path fs = Right l
      /\ Extract.walkDir fuel fs path d acc = Some (Right (acc ++ l)%list).
Proof.
  intros Htree. induction fuel as [|fuel IH]; intros path d acc Hstat Hfuel.
  - exfalso. destruct path as [|a path]; [simpl in Hfuel; lia|].
    cbn [Extract.stat] in Hstat. apply depth_bound in Hstat. lia.
  - cbn [Extract.walkDir]. destruct d as [|c].
    + change (Extract.collectZip path Extract.IDir acc) with acc.
      destruct (Extract.ReadDir path fs) as [err|entries] eqn:Hread.
      { unfold Extract.ReadDir in Hread. rewrite Hstat in Hread. discriminate. }
      destruct (ReadDir_entries _ _ _ Hread) as (_ & _ & _ & Hmem).
      assert (Hloop : forall (es : list (list string * Extract.Inode))
                             (acc : list (list string)),
                (forall e, e ∈ es -> e ∈ entries) ->
                exists ls,
                  Forall2 (fun e l => Extract.findAllZipFilesRecursive e.1 fs = Right l)
                    es ls
                  /\ Extract.walkEntries (Extract.walkDir fuel fs) path es acc
                     = Some (Right (acc ++ concat ls)%list)).
      { induction es as [|[p d1] es IHes]; intros acc' Hes.
        - exists []. split; [constructor|]. cbn [Extract.walkEntries concat].
          rewrite app_nil_r. reflexivity.
        - assert (Hp : (p, d1) ∈ entries) by (apply Hes; left).
          apply Hmem in Hp as (Hp & Hne & Hdir).
          destruct (Htree _ _ Hp) as (Hplain & _ & _).
          cbn [Extract.walkEntries fst snd]. cbv zeta.
          assert (Hjoin : Path.Join path (Path.Base p) = p)
            by (rewrite <- Hdir; apply Join_Dir_Base; assumption).
          rewrite Hjoin.
          destruct (IH p d1 acc') as (l & Hl & Hw).
          { rewrite stat_lookup by exact Hne. exact Hp. }
          { rewrite (app_removelast_last "/" Hne), length_app. simpl.
            fold (Path.Dir p). rewrite Hdir. lia. }
          rewrite Hw.
          destruct (IHes (acc' ++ l)%list) as (ls & Hls & Hws).
          { intros e He. apply Hes. right. exact He. }
          rewrite Hws.
          exists (l :: ls). split; [constructor; assumption|].
          cbn [concat]. rewrite app_assoc. reflexivity. }
      destruct (Hloop entries acc) as (ls & Hls & ->); [auto|].
      exists (concat ls). split; [|reflexivity].
      eapply listing_dir; eassumption.
    + assert (Hne : path <> []) by (intros ->; discriminate).
      rewrite stat_lookup in Hstat by exact Hne.
      exists (Extract.collectZip path (Extract.IFile c) []).
      split; [apply listing_file; assumption|].
      rewrite collectZip_app. reflexivity.
Qed.

(** On a disk that is a tree, the walk of [findAllZipFilesRecursive],
    with fuel for the depth of the tree, gives what the unpacker takes
    it to give: each regular file at or below the directory whose name
    ends in [.zip] in any case, once, and in the order of the walk; or
    the error that the directory is not there. *)
Theorem findAllZipFilesRecursive_exact (dir : list string)
    (fs : gmap (list string) Extract.Inode) (fuel : nat) :
  treeShaped fs ->
  (depth fs < fuel)%nat ->
  Extract.WalkDirZip fuel dir fs = Some (Extract.findAllZipFilesRecursive dir fs)
  /\ match Extract.findAllZipFilesRecursive dir fs with
     | Right zipFiles =>
         NoDup zipFiles
         /\ Sorted Path.le zipFiles
         /\ forall z, z ∈ zipFiles <-> isFileAt fs z /\ foundBelow dir z
     | Left _ => Extract.stat fs dir = None
     end.
Proof.
  intros Htree Hfuel. split.
  - unfold Extract.WalkDirZip.
    destruct (Extract.stat fs dir) as [d|] eqn:Hstat.
    + destruct (walkDir_listing fs Htree fuel dir d [] Hstat) as (l & -> & ->); [lia|].
      reflexivity.
    + unfold Extract.findAllZipFilesRecursive. rewrite Hstat. reflexivity.
  - destruct (Extract.findAllZipFilesRecursive dir fs) as [err|zipFiles] eqn:Hwalk.
    + unfold Extract.findAllZipFilesRecursive in Hwalk.
      destruct (Extract.stat fs dir); [discriminate|reflexivity].
    + apply walk_exact. exact Hwalk.
Qed.

Lemma nestedDisk_tree : treeShaped Sample.nestedDisk.
Proof.
  intros p node Hp. unfold Sample.nestedDisk in Hp.
  repeat (apply lookup_insert_Some in Hp as [[<- <-]|[_ Hp]];
          [split; [repeat constructor; discriminate|];
           split; [discriminate|vm_compute; reflexivity]|]).
  apply lookup_singleton_Some in Hp as [<- <-].
  split; [repeat constructor; discriminate|].
  split; [discriminate|vm_compute; reflexivity].
Qed.

Lemma findAllZipFilesRecursive_exact_witness :
  Extract.WalkDirZip 4 ["d"; "out"] Sample.nestedDisk
  = Some (Extract.findAllZipFilesRecursive ["d"; "out"] Sample.nestedDisk)
  /\ match Extract.findAllZipFilesRecursive ["d"; "out"] Sample.nestedDisk with
     | Right zipFiles =>
         NoDup zipFiles
         /\ Sorted Path.le zipFiles
         /\ forall z, z ∈ zipFiles
              <-> isFileAt Sample.nestedDisk z /\ foundBelow ["d"; "out"] z
     | Left _ => Extract.stat Sample.nestedDisk ["d"; "out"] = None
     end.
Proof.
  apply (findAllZipFilesRecursive_exact ["d"; "out"] Sample.nestedDisk 4).
  - exact nestedDisk_tree.
  - apply Nat.ltb_lt. vm_compute. reflexivity.
Defined.

Lemma walk_empty (dir : list string) (fs : gmap (list string) Extract.Inode) :
  Extract.findAllZipFilesRecursive dir fs = Right [] -> noArchiveBelow dir fs.
Proof.
  intros H z Hfound Hfile.
  destruct (walk_exact dir fs [] H) as (_ & _ & Hmem).
  assert (Hin : z ∈ @nil (list string)) by (apply Hmem; auto).
  inversion Hin.
Qed.

(** ** The unpacker: what a return means *)

Lemma loop_success_no_archive (locked : list string -> bool)
    (DeleteAfter : bool) (fuel : nat) (dir : list string) (ctx : Context)
    (fs fs' : gmap (list string) Extract.Inode) :
  Extract.extractAllZipsInDir locked DeleteAfter fuel dir ctx fs = Some (fs', Right tt) ->
  noArchiveBelow dir fs'.
Proof.
  revert ctx fs. induction fuel as [|fuel IH]; intros ctx fs H; [discriminate|].
  rewrite extractAllZipsInDir_step in H.
  destruct (poll ctx) as [[] ctx1]; [discriminate|].
  destruct (Extract.findAllZipFilesRecursive dir fs) as [e|[|z zs]] eqn:Ewalk;
    [discriminate| |].
  - injection H as <-. apply walk_empty. exact Ewalk.
  - destruct (Extract.extractNested locked DeleteAfter (z :: zs) ctx1 fs)
      as [[ctx2 fs1] [err|]]; [discriminate|].
    eapply IH. exact H.
Qed.

(** When the loop returns without error, no archive is left below the
    directory, whether the unpacker deletes or not. *)
Theorem unpacker_success_leaves_no_archive (locked : list string -> bool)
    (DeleteAfter : bool) (fuel : nat) (dir : list string) (ctx : Context)
    (fs fs' : gmap (list string) Extract.Inode) :
  Extract.extractAllZipsInDir locked DeleteAfter fuel dir ctx fs = Some (fs', Right tt) ->
  noArchiveBelow dir fs'.
Proof. apply loop_success_no_archive. Qed.

Lemma unpacker_success_witness :
  noArchiveBelow ["d"; "out"]
    (default (Sample.nestedDisk, Left "")
       (Extract.extractAllZipsInDir (fun _ => false) true 2 ["d"; "out"] background
          Sample.nestedDisk)).1.
Proof.
  apply (unpacker_success_leaves_no_archive (fun _ => false) true 2 ["d"; "out"]
           background Sample.nestedDisk).
  vm_compute. reflexivity.
Defined.

(** ** The unpacker: when it returns *)

Lemma extractAllZipsInDir_more_fuel (locked : list string -> bool) (DeleteAfter : bool)
    (fuel extra : nat) (dir : list string) (ctx : Context)
    (fs : gmap (list string) Extract.Inode) (result : gmap (list string) Extract.Inode * Either unit) :
  Extract.extractAllZipsInDir locked DeleteAfter fuel dir ctx fs = Some result ->
  Extract.extractAllZipsInDir locked DeleteAfter (fuel + extra) dir ctx fs = Some result.
Proof.
  revert ctx fs. induction fuel as [|fuel IH]; intros ctx fs H; [discriminate|].
  change (S fuel + extra)%nat with (S (fuel + extra)).
  rewrite extractAllZipsInDir_step in H |- *.
  destruct (poll ctx) as [[] ctx1]; [exact H|].
  destruct (Extract.findAllZipFilesRecursive dir fs) as [e|[|z zs]]; [exact H|exact H|].
  destruct (Extract.extractNested locked DeleteAfter (z :: zs) ctx1 fs)
    as [[ctx2 fs1] [err|]]; [exact H|].
  apply IH. exact H.
Qed.

(** An unpacker that deletes, and whose deletions are not refused,
    always returns: one walk more than there are archives in the tree,
    nested ones counted, is enough, and more walks change nothing. *)
Theorem unpacker_with_deletion_returns (locked : list string -> bool)
    (dir : list string) (ctx : Context) (fs : gmap (list string) Extract.Inode) :
  (forall p, locked p = false) ->
  exists result,
    forall fuel, (Extract.pending dir fs < fuel)%nat ->
      Extract.extractAllZipsInDir locked true fuel dir ctx fs = Some result.
Proof.
  intros Hunlocked.
  destruct (extractAllZipsInDir_returns dir locked Hunlocked
              (Extract.pending dir fs) ctx fs) as [result Hrun]; [lia|].
  exists result. intros fuel Hfuel.
  replace fuel with (S (Extract.pending dir fs) + (fuel - S (Extract.pending dir fs)))%nat
    by lia.
  apply extractAllZipsInDir_more_fuel. exact Hrun.
Qed.

Lemma unpacker_with_deletion_witness :
  exists result,
    forall fuel, (Extract.pending ["d"; "out"] Sample.nestedDisk < fuel)%nat ->
      Extract.extractAllZipsInDir (fun _ => false) true fuel ["d"; "out"] background
        Sample.nestedDisk = Some result.
Proof.
  apply (unpacker_with_deletion_returns (fun _ => false) ["d"; "out"] background
           Sample.nestedDisk).
  reflexivity.
Defined.

Lemma extractNested_keeps_files (locked : list string -> bool)
    (zipFiles : list (list string)) (ctx ctx' : Context)
    (fs fs' : gmap (list string) Extract.Inode) (r : option string) (p : list string) :
  Extract.extractNested locked false zipFiles ctx fs = (ctx', fs', r) ->
  isFileAt fs p -> isFileAt fs' p.
Proof.
  revert ctx fs. induction zipFiles as [|z zs IH]; intros ctx fs H Hp; simpl in H.
  - injection H as _ <- _. exact Hp.
  - destruct (poll ctx) as [[] ctx1]; [injection H as _ <- _; exact Hp|].
    destruct (Extract.extractZipToDir z (Path.Dir z) fs) as [fs1 r1] eqn:Hex.
    assert (Hp1 : isFileAt fs1 p).
    { unfold Extract.extractZipToDir in Hex.
      destruct (fs !! z) as [[|[bytes|files]]|];
        try (injection Hex as <- _; exact Hp).
      eapply extractEntries_keeps_files; eassumption. }
    destruct r1 as [err|]; [injection H as _ <- _; exact Hp1|].
    eapply IH; eassumption.
Qed.

Lemma unpacker_never_done (locked : list string -> bool) (dir z : list string)
    (fuel : nat) (ctx : Context) (fs fs' : gmap (list string) Extract.Inode) :
  foundBelow dir z -> isFileAt fs z ->
  Extract.extractAllZipsInDir locked false fuel dir ctx fs <> Some (fs', Right tt).
Proof.
  intros Hfound. revert ctx fs. induction fuel as [|fuel IH]; intros ctx fs Hfile H;
    [discriminate|].
  rewrite extractAllZipsInDir_step in H.
  destruct (poll ctx) as [[] ctx1]; [discriminate|].
  destruct (Extract.findAllZipFilesRecursive dir fs) as [e|[|z' zs]] eqn:Ewalk;
    [discriminate| |].
  - apply walk_empty in Ewalk. exact (Ewalk z Hfound Hfile).
  - destruct (Extract.extractNested locked false (z' :: zs) ctx1 fs)
      as [[ctx2 fs1] [err|]] eqn:Erun; [discriminate|].
    eapply IH; [|exact H].
    eapply extractNested_keeps_files; eassumption.
Qed.

(** An unpacker that does not delete returns without error only when
    its first walk finds no archive at all; it has then changed nothing.
    With an archive below the directory it ends in an error or not at
    all. *)
Theorem unpacker_without_deletion_success (locked : list string -> bool)
    (fuel : nat) (dir : list string) (ctx : Context)
    (fs fs' : gmap (list string) Extract.Inode) :
  Extract.extractAllZipsInDir locked false fuel dir ctx fs = Some (fs', Right tt) ->
  fs' = fs /\ Extract.findAllZipFilesRecursive dir fs = Right [] /\ noArchiveBelow dir fs.
Proof.
  intros H. destruct fuel as [|fuel]; [discriminate|].
  pose proof H as H0. rewrite extractAllZipsInDir_step in H.
  destruct (poll ctx) as [[] ctx1]; [discriminate|].
  destruct (Extract.findAllZipFilesRecursive dir fs) as [e|[|z zs]] eqn:Ewalk;
    [discriminate| |].
  - injection H as <-. split; [reflexivity|]. split; [reflexivity|].
    apply walk_empty. exact Ewalk.
  - exfalso.
    destruct (walk_exact dir fs (z :: zs) Ewalk) as (_ & _ & Hmem).
    destruct (proj1 (Hmem z) ltac:(left)) as [Hfile Hfound].
    exact (unpacker_never_done locked dir z (S fuel) ctx fs fs' Hfound Hfile H0).
Qed.

Lemma unpacker_without_deletion_witness :
  Sample.plainDisk = Sample.plainDisk
  /\ Extract.findAllZipFilesRecursive ["d"] Sample.plainDisk = Right []
  /\ noArchiveBelow ["d"] Sample.plainDisk.
Proof.
  apply (unpacker_without_deletion_success (fun _ => false) 1 ["d"]
           background Sample.plainDisk Sample.plainDisk).
  vm_compute. reflexivity.
Defined.

Lemma poll_Some (m : nat) :
  exists m', (poll (Some m)).2 = Some m' /\ (m' <= m)%nat
             /\ ((poll (Some m)).1 = false -> m = S m').
Proof.
  destruct m as [|m]; simpl.
  - exists 0%nat. split; [reflexivity|]. split; [lia|discriminate].
  - exists m. split; [reflexivity|]. split; [lia|reflexivity].
Qed.

Lemma extractNested_cons (locked : list string -> bool) (DeleteAfter : bool)
    (zipFile : list string) (rest : list (list string)) (ctx : Context)
    (fs : gmap (list string) Extract.Inode) :
  Extract.extractNested locked DeleteAfter (zipFile :: rest) ctx fs
  = let (done, ctx1) := poll ctx in
    if done then (ctx1, fs, Some Canceled)
    else
      match Extract.extractZipToDir zipFile (Path.Dir zipFile) fs with
      | (fs1, Some err) => (ctx1, fs1, Some err)
      | (fs1, None) =>
          Extract.extractNested locked DeleteAfter rest ctx1
            (if DeleteAfter then
               match Extract.Remove locked zipFile fs1 with
               | Left _ => fs1
               | Right fs' => fs'
               end
             else fs1)
      end.
Proof. reflexivity. Qed.

Lemma extractNested_context (locked : list string -> bool) (DeleteAfter : bool)
    (zipFiles : list (list string)) (m : nat) (ctx' : Context)
    (fs fs' : gmap (list string) Extract.Inode) (r : option string) :
  Extract.extractNested locked DeleteAfter zipFiles (Some m) fs = (ctx', fs', r) ->
  exists m', ctx' = Some m' /\ (m' <= m)%nat.
Proof.
  revert m fs. induction zipFiles as [|z zs IH]; intros m fs H.
  - injection H as <- _ _. exists m. auto.
  - rewrite extractNested_cons in H.
    destruct (poll_Some m) as (m1 & Hctx & Hle & _).
    destruct (poll (Some m)) as [done ctx1]. simpl in Hctx. subst ctx1.
    destruct done; [injection H as <- _ _; eauto|].
    destruct (Extract.extractZipToDir z (Path.Dir z) fs) as [fs1 [err|]];
      [injection H as <- _ _; eauto|].
    destruct (IH _ _ H) as (m' & -> & Hle'). exists m'. split; [reflexivity|lia].
Qed.

Lemma cancelled_loop_returns (locked : list string -> bool) (DeleteAfter : bool)
    (dir : list string) (n : nat) :
  forall (m : nat) (fs : gmap (list string) Extract.Inode),
    (m <= n)%nat ->
    exists result,
      Extract.extractAllZipsInDir locked DeleteAfter (S n) dir (Some m) fs = Some result.
Proof.
  induction n as [|n IH]; intros m fs Hm; rewrite extractAllZipsInDir_step;
    destruct (poll_Some m) as (m1 & Hctx & Hle & Hstep);
    destruct (poll (Some m)) as [done ctx1]; simpl in Hctx, Hstep; subst ctx1;
    (destruct done; [eauto|]); specialize (Hstep eq_refl); [lia|].
  destruct (Extract.findAllZipFilesRecursive dir fs) as [e|[|z zs]]; eauto.
  destruct (Extract.extractNested locked DeleteAfter (z :: zs) (Some m1) fs)
    as [[ctx2 fs1] [err|]] eqn:Erun; eauto.
  destruct (extractNested_context _ _ _ _ _ _ _ _ Erun) as (m2 & -> & Hle2).
  apply IH. lia.
Qed.

(** Cancellation always ends the loop, also when the unpacker does not
    delete: under a context that is cancelled after [n] polls, [n + 1]
    walks are enough for a result, and more walks change nothing. *)
Theorem unpacker_cancelled_returns (locked : list string -> bool) (DeleteAfter : bool)
    (dir : list string) (n : nat) (fs : gmap (list string) Extract.Inode) :
  exists result,
    forall fuel, (n < fuel)%nat ->
      Extract.extractAllZipsInDir locked DeleteAfter fuel dir (Some n) fs = Some result.
Proof.
  destruct (cancelled_loop_returns locked DeleteAfter dir n n fs) as [result Hrun]; [lia|].
  exists result. intros fuel Hfuel.
  replace fuel with (S n + (fuel - S n))%nat by lia.
  apply extractAllZipsInDir_more_fuel. exact Hrun.
Qed.

(** ** One archive: what is on the disk afterwards *)

(** After an extraction without error, the content of a file entry is
    on the disk, whole, at the joined path of the entry, unless an entry
    later in the archive has the same path. *)
Theorem extracted_entry_on_disk (zipPath destDir : list string)
    (before after : list Extract.Entry) (n : string) (body : Extract.Content)
    (fs fs' : gmap (list string) Extract.Inode) :
  fs !! zipPath
    = Some (Extract.IFile (Extract.Zip (before ++ Extract.Regular n body :: after)%list)) ->
  Extract.extractZipToDir zipPath destDir fs = (fs', None) ->
  (forall f, In f after -> Path.Join destDir (Extract.Name f) <> Path.Join destDir n) ->
  fs' !! Path.Join destDir n = Some (Extract.IFile body).
Proof.
  intros Hzip Hex Hlater. unfold Extract.extractZipToDir in Hex. rewrite Hzip in Hex.
  exact (extractEntries_puts zipPath destDir before after (Extract.Regular n body) body
           fs fs' eq_refl Hex Hlater).
Qed.

Lemma extracted_entry_witness :
  (Extract.extractZipToDir ["d"; "a.zip"] ["d"; "a"] Sample.slipDisk).1
    !! Path.Join ["d"; "a"] "ok.xml"
  = Some (Extract.IFile (Extract.Data "<a/>")).
Proof.
  apply (extracted_entry_on_disk ["d"; "a.zip"] ["d"; "a"] []
           [Extract.Regular "../evil.txt" (Extract.Data "x")] "ok.xml"
           (Extract.Data "<a/>") Sample.slipDisk).
  - vm_compute. reflexivity.
  - vm_compute. reflexivity.
  - intros f [<-|[]]. vm_compute. discriminate.
Defined.

(** ** One top-level archive *)

Lemma isClean_app (p q : list string) :
  Path.isClean p -> Path.isClean q -> Path.isClean (p ++ q)%list.
Proof. unfold Path.isClean. intros Hp Hq. apply Forall_app. auto. Qed.

Lemma split_not_nil (s : string) : Path.split s <> [].
Proof.
  destruct s as [|c s]; simpl; [discriminate|].
  destruct (decide (c = "/"%char)); [discriminate|].
  destruct (Path.split s); discriminate.
Qed.

Lemma fold_collects {A B : Type} (f : A -> bool) (g : A -> B) (entries : list A)
    (acc : list B) (z : B) :
  z ∈ acc \/ (exists e, e ∈ entries /\ f e = true /\ z = g e) ->
  z ∈ List.fold_left (fun l e => if f e then (l ++ [g e])%list else l) entries acc.
Proof.
  revert acc. induction entries as [|e entries IH]; intros acc H; cbn [List.fold_left].
  - destruct H as [H|(e & He & _)]; [exact H|inversion He].
  - apply IH. destruct H as [H|(e' & He' & Hf & Hz)].
    + left. destruct (f e); [apply elem_of_app; left|]; exact H.
    + apply elem_of_cons in He' as [->|He'].
      * left. rewrite Hf. apply elem_of_app. right. subst z. left.
      * right. exists e'. auto.
Qed.

(** The top-level pass lists every regular file of the directory whose
    name ends in [.zip], in any case. *)
Lemma findZipFiles_lists (fs : gmap (list string) Extract.Inode) (z : list string)
    (c : Extract.Content) :
  plainPath z -> z <> [] ->
  fs !! z = Some (Extract.IFile c) ->
  Extract.stat fs (Path.Dir z) = Some Extract.IDir ->
  Extract.isZipName (Path.Base z) = true ->
  exists zipFiles,
    Extract.findZipFiles (Path.Dir z) fs = Right zipFiles /\ z ∈ zipFiles.
Proof.
  intros Hplain Hne Hz Hdir Hname. unfold Extract.findZipFiles.
  destruct (Extract.ReadDir (Path.Dir z) fs) as [err|entries] eqn:Hread.
  { unfold Extract.ReadDir in Hread. rewrite Hdir in Hread. discriminate. }
  destruct (ReadDir_entries _ _ _ Hread) as (_ & _ & _ & Hmem).
  eexists. split; [reflexivity|].
  apply (fold_collects
           (fun entry : list string * Extract.Inode =>
              negb (Extract.IsDir entry.2) && Extract.isZipName (Path.Base entry.1))
           (fun entry : list string * Extract.Inode =>
              Path.Join (Path.Dir z) (Path.Base entry.1))).
  right. exists (z, Extract.IFile c). split; [apply Hmem; auto|].
  cbn [fst snd Extract.IsDir negb andb]. split; [exact Hname|].
  symmetry. apply Join_Dir_Base; assumption.
Qed.

(** With the archive as its own directory, an entry with a plain name
    cannot be unpacked: the archive is a file in its way. *)
Lemma extractEntry_blocked (zipPath z : list string) (f : Extract.Entry)
    (fs : gmap (list string) Extract.Inode) :
  plainPath z -> z <> [] -> isFileAt fs z ->
  Path.isClean (Path.split (Extract.Name f)) ->
  exists err, Extract.extractEntry zipPath z f fs = (fs, Some err).
Proof.
  intros Hplain Hne [c Hfile] Hname.
  assert (Hjoin : Path.Join z (Extract.Name f)
                  = (z ++ Path.split (Extract.Name f))%list).
  { unfold Path.Join. apply Clean_clean, isClean_app; [|exact Hname].
    apply plainPath_isClean, Hplain. }
  assert (Hdir : Path.Dir (z ++ Path.split (Extract.Name f))%list
                 = (z ++ List.removelast (Path.split (Extract.Name f)))%list).
  { unfold Path.Dir. apply removelast_app, split_not_nil. }
  unfold Extract.extractEntry. rewrite Hjoin, Hdir.
  rewrite !(MkdirAll_through_file z _ _ fs Hne Hfile).
  destruct f; eauto.
Qed.

Lemma extractEntries_blocked (zipPath z : list string) (files : list Extract.Entry)
    (f : Extract.Entry) (fs : gmap (list string) Extract.Inode) :
  plainPath z -> z <> [] -> isFileAt fs z ->
  In f files -> Path.isClean (Path.split (Extract.Name f)) ->
  exists fs' err, Extract.extractEntries zipPath z files fs = (fs', Some err).
Proof.
  intros Hplain Hne Hfile Hin Hname. revert fs Hfile.
  induction files as [|f0 files IH]; intros fs Hfile; [destruct Hin|].
  cbn [Extract.extractEntries].
  destruct (Extract.extractEntry zipPath z f0 fs) as [fs1 [err|]] eqn:E1; [eauto|].
  destruct Hin as [->|Hin].
  - destruct (extractEntry_blocked zipPath z f fs Hplain Hne Hfile Hname) as [err He].
    congruence.
  - apply (IH Hin). eapply extractEntry_keeps_files; eassumption.
Qed.

(** An archive whose name ends in [.zip] in some other case than the
    lower one, such as [A.ZIP], is listed by the top-level pass, and
    given its own path for a directory: [TrimSuffix] cuts nothing. As
    soon as it has an entry with a plain name, it cannot be processed
    without error; and when its first entry is one, the disk is left as
    it was. *)
Theorem processSingleZip_capital_suffix_fails (locked : list string -> bool)
    (DeleteAfter : bool) (fuel : nat) (zipPath : list string) (ctx : Context)
    (fs : gmap (list string) Extract.Inode)
    (files : list Extract.Entry) (f : Extract.Entry) :
  plainPath zipPath -> zipPath <> [] ->
  Str.HasSuffix (Path.Base zipPath) ".zip" = false ->
  fs !! zipPath = Some (Extract.IFile (Extract.Zip files)) ->
  In f files ->
  Path.isClean (Path.split (Extract.Name f)) ->
  (Extract.isZipName (Path.Base zipPath) = true ->
   Extract.stat fs (Path.Dir zipPath) = Some Extract.IDir ->
   exists zipFiles,
     Extract.findZipFiles (Path.Dir zipPath) fs = Right zipFiles
     /\ zipPath ∈ zipFiles)
  /\ Extract.destDirOf zipPath = zipPath
  /\ (exists fs' err,
        Extract.processSingleZip locked DeleteAfter fuel zipPath ctx fs
        = Some (fs', Left err))
  /\ (forall rest, files = f :: rest ->
        exists err,
          Extract.processSingleZip locked DeleteAfter fuel zipPath ctx fs
          = Some (fs, Left err)).
Proof.
  intros Hplain Hne Hsuffix Hzip Hin Hname.
  split; [intros Hzipname Hdir; eapply findZipFiles_lists; eassumption|].
  assert (Hdest : Extract.destDirOf zipPath = zipPath).
  { unfold Extract.destDirOf, Str.TrimSuffix. rewrite Hsuffix.
    apply Join_Dir_Base; assumption. }
  assert (Hfile : isFileAt fs zipPath) by (eexists; exact Hzip).
  split; [exact Hdest|]. unfold Extract.processSingleZip. rewrite Hdest.
  destruct (poll ctx) as [[] ctx0]; [eauto|].
  destruct (poll ctx0) as [[] ctx1]; [eauto|].
  unfold Extract.extractZipToDir. rewrite Hzip. split.
  - destruct (extractEntries_blocked zipPath zipPath files f fs Hplain Hne Hfile Hin Hname)
      as (fs' & err & ->). eauto.
  - intros rest ->. cbn [Extract.extractEntries].
    destruct (extractEntry_blocked zipPath zipPath f fs Hplain Hne Hfile Hname)
      as [err ->]. eauto.
Qed.

Lemma processSingleZip_capital_witness :
  (Extract.isZipName (Path.Base ["d"; "A.ZIP"]) = true ->
   Extract.stat Sample.upperDisk (Path.Dir ["d"; "A.ZIP"]) = Some Extract.IDir ->
   exists zipFiles,
     Extract.findZipFiles (Path.Dir ["d"; "A.ZIP"]) Sample.upperDisk = Right zipFiles
     /\ ["d"; "A.ZIP"] ∈ zipFiles)
  /\ Extract.destDirOf ["d"; "A.ZIP"] = ["d"; "A.ZIP"]
  /\ (exists fs' err,
        Extract.processSingleZip (fun _ => false) true 5 ["d"; "A.ZIP"] background
          Sample.upperDisk = Some (fs', Left err))
  /\ (forall rest, [Extract.Regular "x.xml" (Extract.Data "<a/>")]
                   = Extract.Regular "x.xml" (Extract.Data "<a/>") :: rest ->
        exists err,
          Extract.processSingleZip (fun _ => false) true 5 ["d"; "A.ZIP"] background
            Sample.upperDisk = Some (Sample.upperDisk, Left err)).
Proof.
  apply (processSingleZip_capital_suffix_fails (fun _ => false) true 5 ["d"; "A.ZIP"]
           background Sample.upperDisk
           [Extract.Regular "x.xml" (Extract.Data "<a/>")]
           (Extract.Regular "x.xml" (Extract.Data "<a/>"))).
  - repeat constructor; discriminate.
  - discriminate.
  - vm_compute. reflexivity.
  - vm_compute. reflexivity.
  - left. reflexivity.
  - repeat constructor; discriminate.
Defined.

Lemma extractAllZipsInDir_unpackAll (locked : list string -> bool) (DeleteAfter : bool)
    (fuel : nat) (dir : list string) (ctx : Context)
    (fs : gmap (list string) Extract.Inode) :
  Extract.extractAllZipsInDir locked DeleteAfter fuel dir ctx fs
  = (fun r : Context * gmap (list string) Extract.Inode * Either unit => (r.1.2, r.2))
      <$> Extract.unpackAll locked DeleteAfter fuel dir ctx fs.
Proof.
  revert ctx fs. induction fuel as [|fuel IH]; intros ctx fs; [reflexivity|].
  rewrite extractAllZipsInDir_step. cbn [Extract.unpackAll].
  destruct (poll ctx) as [[] ctx1]; [reflexivity|].
  destruct (Extract.findAllZipFilesRecursive dir fs) as [e|[|z zs]];
    [reflexivity|reflexivity|].
  destruct (Extract.extractNested locked DeleteAfter (z :: zs) ctx1 fs)
    as [[ctx2 fs1] [err|]]; [reflexivity|].
  apply IH.
Qed.

Lemma noArchiveBelow_delete (dir p : list string) (fs : gmap (list string) Extract.Inode) :
  noArchiveBelow dir fs -> noArchiveBelow dir (delete p fs).
Proof.
  intros H z Hfound [c Hc]. apply lookup_delete_Some in Hc as [_ Hc].
  apply (H z Hfound). exists c. exact Hc.
Qed.

(** When an archive has been processed without error by an unpacker
    that deletes, and no deletion is refused, the archive is no longer
    on the disk and nothing is left to unpack below its directory. *)
Theorem processSingleZip_done (locked : list string -> bool) (fuel : nat)
    (zipPath : list string) (ctx : Context) (fs fs' : gmap (list string) Extract.Inode) :
  (forall p, locked p = false) ->
  Extract.processSingleZip locked true fuel zipPath ctx fs = Some (fs', Right tt) ->
  ~ isFileAt fs' zipPath /\ noArchiveBelow (Extract.destDirOf zipPath) fs'.
Proof.
  intros Hunlocked H. unfold Extract.processSingleZip in H.
  destruct (poll ctx) as [[] ctx0]; [discriminate|].
  destruct (poll ctx0) as [[] ctx1]; [discriminate|].
  destruct (Extract.extractZipToDir zipPath (Extract.destDirOf zipPath) fs)
    as [fs1 [err|]]; [discriminate|].
  destruct (poll ctx1) as [[] ctx2]; [discriminate|].
  destruct (Extract.unpackAll locked true fuel (Extract.destDirOf zipPath) ctx2 fs1)
    as [[[ctx3 fs2] [err|[]]]|] eqn:Eloop; [discriminate| |discriminate].
  assert (Hnone : noArchiveBelow (Extract.destDirOf zipPath) fs2).
  { apply (loop_success_no_archive locked true fuel _ ctx2 fs1).
    rewrite extractAllZipsInDir_unpackAll, Eloop. reflexivity. }
  destruct (poll ctx3) as [[] ctx4]; [discriminate|].
  unfold Extract.Remove in H. rewrite Hunlocked in H.
  destruct (fs2 !! zipPath) as [[|c]|] eqn:Ez.
  - destruct (Extract.isEmptyDir zipPath fs2); injection H as <-.
    + split; [|apply noArchiveBelow_delete; exact Hnone].
      intros [c Hc]. rewrite lookup_delete_eq in Hc. discriminate.
    + split; [|exact Hnone]. intros [c Hc]. congruence.
  - injection H as <-. split; [|apply noArchiveBelow_delete; exact Hnone].
    intros [c' Hc]. rewrite lookup_delete_eq in Hc. discriminate.
  - injection H as <-. split; [|exact Hnone]. intros [c Hc]. congruence.
Qed.

Lemma processSingleZip_done_witness :
  ~ isFileAt
      (default (Sample.slipDisk, Left "")
         (Extract.processSingleZip (fun _ => false) true 3 ["d"; "a.zip"] background
            Sample.slipDisk)).1 ["d"; "a.zip"]
  /\ noArchiveBelow (Extract.destDirOf ["d"; "a.zip"])
       (default (Sample.slipDisk, Left "")
          (Extract.processSingleZip (fun _ => false) true 3 ["d"; "a.zip"] background
             Sample.slipDisk)).1.
Proof.
  apply (processSingleZip_done (fun _ => false) 3 ["d"; "a.zip"] background
           Sample.slipDisk).
  - reflexivity.
  - vm_compute. reflexivity.
Defined.
